(* ===== verification/_CoqProject ===== *)
-Q . S2P
Prelude.v
JsValue.v
Json.v
JsonValue.v
Storage.v
Relay.v
Form.v
Render.v
Request.v
Wire.v
System.v
Service.v
Continuity.v
Home.v
Restore.v
