(* ===== verification/Prelude.v ===== *)
(** * A verification development of uchat-chatgpt

    The repository is a minimal chat UI written with Next.js: two programs
    connected by one HTTP endpoint, [POST /api/main].

    - [src/components/Form.tsx], the browser-side controller [Form]: React
      state ([response], [isLoading], [currConversationId], [currMessageId]),
      a text area read through the ref [messageInput], the handlers
      [handleEnter], [handleSubmit] and [handleReset], an SWR fetcher that
      restores the state from [localStorage], and the rendering of the
      transcript, whose bubble style is chosen by index parity.
    - [src/pages/api/main.ts], the server-side [handler]: it builds a
      Redis-backed Keyv store and a [ChatGPTAPI] client for every request,
      answers an empty message with a canned prompt, and otherwise calls
      [sendMessage], passing the continuation identifiers only when both
      are present.
    - [src/pages/index.tsx] only renders [Form] inside a page head.

    The client sends [{message, conversationId, parentMessageId}]; the
    server answers [{message, conversationId, messageId}]; the client keeps
    the identifiers for the next message and persists the transcript and
    the identifiers under three [localStorage] keys.

    ** Files, in dependency order

    - [Prelude] (this file): the notation scope [chat_scope], the hint
      databases [chat] and [chat_rw], the tactic [case_streq], a library of
      event-driven machines ([run], [reachable] and the rule-induction
      lemma [reachable_ind']) and equations of string append.
    - [JsValue]: the JavaScript values the code tests ([jsval]), ToBoolean
      ([truthy]), [=== ''], [!==] on strings or [undefined], [String(v)]
      ([to_js_string]) and [process.env.X || d] ([or_default]).
    - [Json]: [JSON.stringify] and [JSON.parse] on arrays of strings, as
      called by [Form.tsx] at lines 63 and 86, after the ECMAScript
      algorithms (QuoteJSONString, SerializeJSONArray, the JSON grammar).
    - [JsonValue]: [JSON.parse] on the whole JSON grammar ([json]: null,
      booleans, numbers as exact decimals, strings, arrays, objects), its
      ToBoolean, and the proof that [Json]'s parser is this one followed
      by the test for an array of strings.
    - [Storage]: [localStorage] as a [gmap] from string keys to strings.
    - [Relay]: [main.ts].  The completion service is the type class
      [CompletionService] (the constructor's check of its configuration,
      [client_error], and [sendMessage]), so that the handler's theorems
      hold for every implementation.  [handler] builds the client before
      it looks at the message, as the code does; [route] puts
      [dotenv-safe]'s module-load check ([missing_vars]) in front of it; [relay_spec] and [spec_handler] state the contract of
      the spec (its section 4.2); [scripted_service] is a reference
      implementation used to run examples.
    - [Form]: [Form.tsx] as a deterministic machine.  A [world] holds the
      React state, the text area, [localStorage], the suspended
      [handleSubmit] calls ([pending]: one per request in flight, with the
      values its closure captured) and logs of the requests sent and of the
      notifications shown.  [step] maps each browser event (a key press,
      a click on the submit or the reset button, the settlement of a
      request, an SWR revalidation, a reload, typing) to its handler.  A
      page is mounted ([mount]: the initial state, then the SWR fetcher,
      which [useSWR] calls in its mount effect) on the first load
      ([initial_world]) and on every reload.
    - [Render]: the JSX tree [Form] returns ([Form_page], [Form_view]) and
      the browser's dispatch of clicks and key presses on it ([dispatch],
      [dom_step]), which the event wiring of [Form.step] refines.
    - [Request]: the spec's request state machine (its section 9) and the
      simulation of it by the client.
    - [Wire]: the request and response bodies as the JSON text
      [JSON.stringify] writes and [JSON.parse] reads, and the proof that
      the text carries the fields through unchanged.
    - [System]: client and server composed.  A request in flight is
      delivered to [handler] as text and its outcome settles the client's
      call; an unhandled rejection is the 500 page, which the client cannot
      parse.
    - [Service]: the [chatgpt] package's [ChatGPTAPI] over its Keyv store,
      modelled from the spec as the instance [chatgpt_service]: a
      constructor that throws on an empty API key, messages
      stored under namespaced keys with their parent ids, fresh ids, the
      prompt built by following parent ids ([build_history]) within a
      budget, and a model that answers or fails.  [chain] is the
      reference definition of the conversation an id designates.
    - [Continuity]: [System] over [chatgpt_service]; the invariant
      [coupled] relates the client's transcript and identifiers to the
      conversations in the store.
    - [Home]: [index.tsx], the page that mounts [Form].
    - [Restore]: the SWR restore and the render over any JSON value read
      back from [localStorage] ([restored_value], [render_response]), the
      first Enter on such a page ([enter_on_value]), and their agreement
      with [Form] and [Render] on the texts the client writes.

    ** What the theorems show (claim ids of the manifest)

    - The protocol end to end (C1): for any service,
      a first message starts a session, the reply's identifiers are
      adopted and stored, and the next message is forwarded with them as
      the continuation.  With the message store
      (C3, C15):
      on the Enter path with a model that answers, the transcript the
      client renders is, role by role, the conversation the store holds
      for the client's message id, and each delivery asks the model with
      the last [budget] turns of the transcript; each delivery releases
      the lock (C18).  The Enter path includes
      reloads, whose mount restores the page from [localStorage], so the
      invariant carries what the storage holds.
    - The server: the handler refines [relay_spec]
      (C2); continuation with two identifiers
      (C8), a new session with a partial set
      (C14), the empty-message prompt
      (C9), which a server without an API
      key never gives, since the client is built first and its
      constructor throws (C10), service
      errors left unhandled
      (C24), a message that is not a string
      forwarded as its [String()] text (C25),
      and the prompt budget (C35).
    - The client's operations: Submit by Enter (C5), the
      rejection of an empty text (C13), the settlement
      on success (C6) and on failure
      (C20), Reset followed by the restore
      (C22), a revalidation during a request, which
      commutes with its settlement (C33), and the
      first Enter on a loaded page, which continues the stored session
      since the restore runs at mount (C11).
    - Persistence: the round trip through [localStorage] across a reload
      (C16) and the stored transcript, which
      always parses (C19).  The JSON writer and
      parsers are checked by lemmas: [Json.parse_stringify] (the round
      trip), [JsonValue.JSON_parse_string_arrays] (the client model's
      parser is [JSON.parse] restricted to arrays of strings) and
      [Json.parse_elems_fuel] (the fuel never stops the loop).
    - Invariants and refinement: the event wiring of [Form.step] is what
      the browser dispatches on the page [Form] renders, the submit button
      disabled while loading (C4); the Enter
      path refines the spec's request state machine
      (C7) and keeps one
      request in flight (C17); the client never reaches the server's
      empty-message shortcut (C23), by rule induction
      over the composed system.
    - Where the code departs from the spec: an empty Enter locks the form
      until a reload (C12); the submit button does
      not take the lock (C26), so it is not a
      step of the request machine; a Reset during a
      request is undone when it settles (C27); two
      requests in flight lose a turn (C28) and fork
      the conversation in the store, so that the transcript and the
      conversation the service continues diverge
      (C29); after a failure, turns are drawn with
      the wrong role (C30), the model never sees the
      failed turn (C31), and a revalidation
      drops it from the screen (C32); a reply
      without a conversation id stores the text "undefined", which is later
      sent as an identifier (C34); a stored
      transcript that is valid JSON but not an array unmounts the page, at
      the first render or at the first Enter
      (C21).

    ** Modelling choices, bounds and fuel

    - Strings are Rocq [string]s (8-bit characters); JavaScript strings are
      UTF-16.  The JSON escaping of code units below 256 is exact; the
      parsers reject [\uXXXX] escapes above [00FF].
    - [Form] reads the stored transcript with [Json.JSON_parse], which
      accepts the arrays of strings the client writes; on any other text
      it fails, which the SWR fetcher of [Form] treats as an exception
      that skips the rest of the fetcher.  That is the code's behaviour
      when [JSON.parse] throws; for valid JSON text whose value is not an
      array of strings the code calls [setResponse] with that value,
      which [Restore] models ([JsonValue.JSON_parse_string_arrays] shows
      the two parsers agree on everything else).
    - A JSON number is its exact decimal value; its ToBoolean is false
      exactly when the value rounds to zero as a double (magnitude at
      most [2^-1075]).  A number rendered as a child is a [NumText] node:
      its text [String(n)] is not computed.
    - The ref [messageInput] is attached before any handler runs (the text
      area is always rendered), so [messageInput.current?.value] is a
      string.  The server always sends a [message] field, so a reply's
      [message] is a string; its identifiers may be missing ([None]).
    - React batches the state updates of a handler and applies them in
      order; the code after [await fetch] runs when its request settles,
      with the state its closure captured.  Event handlers run to
      completion one at a time, on the page rendered from the current
      state.  A key press models only its handler; the browser's default
      action is a separate [TypeInput] event.
    - [useSWR] revalidates in its mount layout effect and, with no cached
      data (a fresh page), calls the fetcher at once; the fetcher has no
      [await], so the restore is done before the page handles any event.
      [Revalidate] is every later revalidation (window focus, reconnect),
      which may come between any two events.
    - Every operation is a total function and runs need no fuel.  The two
      JSON parsers have fuel, set to the length of the input (plus one for
      [JSON_parse_value]); every round consumes at least one character,
      and [Json.parse_elems_fuel] and [JsonValue.parse_value_fuel] show
      that any larger fuel gives the same result.  The service's history
      walk is bounded by the prompt budget [ms_budget], as the library's
      loop is bounded by its token limit; a conversation of [n] turns is
      read whole with [n + 1] units ([chain_build_history]) and cut to its
      last [budget] turns otherwise ([build_history_suffix]).
    - The completion service's ids are [uuidv4 k] for a counter [k], drawn
      in the library's order; the prompt budget counts turns, not tokens;
      the prompt is the list of turns, not its text rendering.
    - The theorems on a forwarded request assume that the client was
      built: [client_error] of the configuration is [None] for a generic
      service, and [OPENAI_API_KEY] is set and non-empty for
      [chatgpt_service]; [Service.handler_without_api_key_rejects] covers the other case.

    ** Not modelled

    - The Redis connection itself, the OpenAI HTTP API, token counting,
      streaming and timeouts of the [chatgpt] client; the constructor's
      checks other than the API key.
    - The contents of [.env.example], which lists the variables
      [dotenv-safe] requires and is not part of the sources: [route] takes
      the list as a parameter, and [System] composes the client with
      [handler], that is with a module that loaded; [localStorage]
      quota errors, the display of the notifications and the CSS itself
      (the class names are modelled).
    - Which element has the focus (a key press may target any element),
      and the text editing of the text area (modelled as the event
      [TypeInput]).
    - JavaScript objects and arrays as request fields, and NaN.
    - A request abandoned by a reload that the server still processes:
      the composition delivers only the requests the page still awaits.

    - Interleavings of SWR revalidation with requests in flight beyond
      one revalidation: [Form] models each revalidation as one event, and
      the theorems cover one during a request.
    - Request fields that are numbers, arrays or objects: [Wire] reads
      them as outside [jsval], since the client only sends strings. *)

From Stdlib Require Export String Ascii.
From stdpp Require Export base list gmap strings options.

Declare Scope chat_scope.
Delimit Scope chat_scope with chat.

Create HintDb chat.
Create Rewrite HintDb chat_rw.

(** ** Tactics *)

(** Decide the string equalities of the code's guards. *)
Ltac case_streq :=
  repeat match goal with
  | |- context [String.eqb ?a ?b] =>
      destruct (String.eqb_spec a b); subst; try congruence
  | H : context [String.eqb ?a ?b] |- _ =>
      destruct (String.eqb_spec a b); subst; try congruence
  end.

(** ** Event-driven transition systems

    The client and the whole system are deterministic machines that react
    to events.  A run folds the step function over a list of events; a
    state is reachable when some run leads to it.  Invariants are proved by
    rule induction on [reachable]. *)

Section Machine.
Context {S E : Type} (step : S -> E -> S).

Definition run (s : S) (es : list E) : S := fold_left step es s.

(** The states reachable from [s0] by events satisfying [allowed]. *)
Inductive reachable (allowed : E -> Prop) (s0 : S) : S -> Prop :=
| reach_init : reachable allowed s0 s0
| reach_step s e :
    reachable allowed s0 s -> allowed e -> reachable allowed s0 (step s e).

Lemma run_app s es1 es2 : run s (es1 ++ es2) = run (run s es1) es2.
Proof. apply fold_left_app. Qed.

Lemma run_snoc s es e : run s (es ++ [e]) = step (run s es) e.
Proof. by rewrite run_app. Qed.

(** Reachability is exactly running a list of allowed events. *)
Lemma reachable_run allowed s0 s :
  reachable allowed s0 s <-> exists es, Forall allowed es /\ run s0 es = s.
Proof.
  split.
  - induction 1 as [|s e _ [es [Hall <-]] He].
    + by exists [].
    + exists (es ++ [e]). rewrite run_snoc. split; [|done].
      apply Forall_app; auto.
  - intros [es [Hall <-]]. induction es as [|e es IH] using rev_ind.
    + constructor.
    + apply Forall_app in Hall as [Hall He%Forall_inv].
      rewrite run_snoc. constructor; auto.
Qed.

(** Rule induction: a property that holds initially and that every
    allowed event preserves holds in every reachable state. *)
Lemma reachable_ind' (allowed : E -> Prop) (P : S -> Prop) s0 :
  P s0 ->
  (forall s e, P s -> allowed e -> P (step s e)) ->
  forall s, reachable allowed s0 s -> P s.
Proof. intros H0 Hs s Hr. induction Hr; auto. Qed.

End Machine.

Arguments reachable {S E} step allowed s0 _.

#[export] Hint Constructors reachable : chat.
#[export] Hint Rewrite @run_app @run_snoc : chat_rw.


(** ** Generic lemmas on strings

    stdpp makes [String.append] (its [+:+]) opaque to [simpl]; these
    equations are the rewriting steps the development uses instead. *)

Lemma append_nil_l_str (a : string) : "" +:+ a = a.
Proof. reflexivity. Qed.

Lemma append_cons_str (c : ascii) (a b : string) : String c a +:+ b = String c (a +:+ b).
Proof. reflexivity. Qed.

Lemma append_assoc_str (a b c : string) : (a +:+ b) +:+ c = a +:+ (b +:+ c).
Proof. induction a as [|x a IH]; [done|]. by rewrite !append_cons_str, IH. Qed.

Lemma append_nil_r_str (a : string) : a +:+ "" = a.
Proof. induction a as [|x a IH]; [done|]. by rewrite append_cons_str, IH. Qed.

Lemma length_append_str (a b : string) :
  String.length (a +:+ b) = String.length a + String.length b.
Proof. induction a as [|x a IH]; [done|]. rewrite append_cons_str. simpl. by rewrite IH. Qed.

#[export] Hint Rewrite append_nil_l_str append_cons_str append_assoc_str
  append_nil_r_str length_append_str : chat_rw.
