(* ===== verification/JsValue.v ===== *)
(** * JavaScript values as the two programs inspect them

    The handler reads untyped request fields ([req.body.conversationId])
    and tests them with [&&] and [!==]; the client stores possibly
    [undefined] identifiers with [localStorage.setItem], which coerces its
    argument with [String(v)]; [process.env.X || 'default'] picks a default.
    This file gives those language operations their ECMAScript meaning on
    the values that reach them.  Numbers are integers here (NaN and
    fractions never reach these tests), and objects and arrays as field
    values are not modelled. *)

From S2P Require Import Prelude.
From Stdlib Require Import ZArith.

Inductive jsval :=
| JUndefined
| JNull
| JBool (b : bool)
| JNumber (n : Z)
| JString (s : string).

#[export] Instance jsval_eq_dec : EqDecision jsval.
Proof. solve_decision. Defined.

(** ToBoolean: the value of [v] in [if (v)] and [v && w]. *)
Definition truthy (v : jsval) : bool :=
  match v with
  | JUndefined | JNull => false
  | JBool b => b
  | JNumber n => negb (Z.eqb n 0)
  | JString s => negb (String.eqb s "")
  end.

(** [v === lit] for a string literal [lit]: strict equality never converts,
    so only a string with the same characters is equal. *)
Definition strict_eq_str (v : jsval) (lit : string) : bool :=
  match v with
  | JString s => String.eqb s lit
  | _ => false
  end.

(** A value that is a string or [undefined], the type of the identifiers
    the client holds after destructuring a JSON reply. *)
Definition of_option (o : option string) : jsval :=
  match o with
  | Some s => JString s
  | None => JUndefined
  end.

(** [String(v)] on a string or [undefined]: the coercion that
    [localStorage.setItem] applies to its value. *)
Definition to_js_string (o : option string) : string :=
  match o with
  | Some s => s
  | None => "undefined"
  end.

(** [a !== b] on two values that are strings or [undefined]. *)
Definition strict_neq_opt (a b : option string) : bool :=
  negb (bool_decide (a = b)).

(** [v || d] where [v] is a string or [undefined] (an environment variable)
    and [d] a string: the empty string is falsy and yields [d]. *)
Definition or_default (v : option string) (d : string) : string :=
  match v with
  | Some s => if String.eqb s "" then d else s
  | None => d
  end.

(** ** Lemmas *)

Lemma truthy_string s : truthy (JString s) = true <-> s <> "".
Proof. simpl. case_streq; intuition done. Qed.

(** A truthy value is never the empty string, so [v && v !== ''] is [v]. *)
Lemma truthy_not_empty v : truthy v = true -> strict_eq_str v "" = false.
Proof. destruct v; simpl; try done. by case_streq. Qed.

Lemma truthy_guard v : truthy v && negb (strict_eq_str v "") = truthy v.
Proof. destruct (truthy v) eqn:Hv; [by rewrite truthy_not_empty|done]. Qed.

Lemma truthy_guard_r (x : bool) v : x && truthy v && negb (strict_eq_str v "") = x && truthy v.
Proof. by rewrite <- andb_assoc, truthy_guard. Qed.

Lemma strict_eq_str_spec v lit : strict_eq_str v lit = true <-> v = JString lit.
Proof.
  destruct v; simpl; try (split; congruence).
  case_streq; split; congruence.
Qed.

Lemma strict_neq_opt_spec a b : strict_neq_opt a b = false <-> a = b.
Proof. unfold strict_neq_opt. rewrite negb_false_iff. apply bool_decide_eq_true. Qed.

#[export] Hint Resolve truthy_not_empty : chat.

Lemma strict_neq_opt_some (a b : string) : a <> b -> strict_neq_opt (Some a) (Some b) = true.
Proof. intros Hne. unfold strict_neq_opt. rewrite bool_decide_eq_false_2; [done|congruence]. Qed.

