(* ===== verification/Json.v ===== *)
(** * JSON text of the persisted transcript

    The client writes [JSON.stringify(totalResponse)] to [localStorage]
    (an array of strings) and reads it back with [JSON.parse].  These are
    ECMAScript built-ins, modelled from the ECMAScript specification:
    [JSON_stringify] follows SerializeJSONArray and QuoteJSONString with no
    indentation, [JSON_parse] the JSON grammar restricted to arrays of
    strings, with insignificant whitespace.  Characters are 8-bit here, so
    a [\uXXXX] escape above [00FF] is rejected.

    The parser's array loop has fuel; [JSON_parse] gives it the length of
    its input, and a lemma below shows that more fuel changes
    nothing. *)

From S2P Require Import Prelude.

(** ** Characters *)

Abbreviation dq := "034"%char.
Abbreviation bsl := "092"%char.

(** Lower-case hexadecimal digit of a nibble. *)
Definition hex_digit (n : nat) : ascii :=
  if n <? 10 then ascii_of_nat (48 + n) else ascii_of_nat (87 + n).

Definition hex_val (c : ascii) : option nat :=
  let n := nat_of_ascii c in
  if (48 <=? n) && (n <=? 57) then Some (n - 48)
  else if (97 <=? n) && (n <=? 102) then Some (n - 87)
  else if (65 <=? n) && (n <=? 70) then Some (n - 55)
  else None.

Definition hex4 (a b c d : ascii) : option nat :=
  match hex_val a, hex_val b, hex_val c, hex_val d with
  | Some a, Some b, Some c, Some d => Some (((a * 16 + b) * 16 + c) * 16 + d)
  | _, _, _, _ => None
  end.

Definition is_ws (c : ascii) : bool :=
  let n := nat_of_ascii c in (n =? 32) || (n =? 9) || (n =? 10) || (n =? 13).

(** ** JSON.stringify *)

(** QuoteJSONString, one code unit: the short escapes of the table, a
    [\u00XX] escape for the other control characters, the character
    itself otherwise. *)
Definition escape_char (c : ascii) : string :=
  let n := nat_of_ascii c in
  if n =? 8 then String bsl "b"
  else if n =? 9 then String bsl "t"
  else if n =? 10 then String bsl "n"
  else if n =? 12 then String bsl "f"
  else if n =? 13 then String bsl "r"
  else if n =? 34 then String bsl (String dq "")
  else if n =? 92 then String bsl (String bsl "")
  else if n <? 32 then
    String bsl (String "u" (String "0" (String "0"
      (String (hex_digit (n / 16)) (String (hex_digit (n mod 16)) "")))))
  else String c "".

Fixpoint escape (s : string) : string :=
  match s with
  | EmptyString => EmptyString
  | String c r => escape_char c +:+ escape r
  end.

Definition quote (s : string) : string := String dq (escape s +:+ String dq "").

Fixpoint join_comma (l : list string) : string :=
  match l with
  | [] => ""
  | [x] => x
  | x :: r => x +:+ String "," (join_comma r)
  end.

Definition JSON_stringify (l : list string) : string :=
  String "[" (join_comma (map quote l) +:+ "]").

(** ** JSON.parse *)

Fixpoint skip_ws (s : string) : string :=
  match s with
  | String c r => if is_ws c then skip_ws r else s
  | EmptyString => EmptyString
  end.

Definition unescape (e : ascii) : option ascii :=
  let n := nat_of_ascii e in
  if n =? 34 then Some dq
  else if n =? 92 then Some bsl
  else if n =? 47 then Some "/"%char
  else if n =? 98 then Some (ascii_of_nat 8)
  else if n =? 102 then Some (ascii_of_nat 12)
  else if n =? 110 then Some (ascii_of_nat 10)
  else if n =? 114 then Some (ascii_of_nat 13)
  else if n =? 116 then Some (ascii_of_nat 9)
  else None.

Definition cons_char (c : ascii) (o : option (string * string)) : option (string * string) :=
  option_map (fun '(x, rest) => (String c x, rest)) o.

(** The characters of a string literal after its opening quote, up to and
    without the closing quote; returns the text after it. *)
Fixpoint parse_chars (s : string) : option (string * string) :=
  match s with
  | EmptyString => None
  | String c r =>
      if Ascii.eqb c dq then Some (EmptyString, r)
      else if Ascii.eqb c bsl then
        match r with
        | String "u" (String h1 (String h2 (String h3 (String h4 r')))) =>
            match hex4 h1 h2 h3 h4 with
            | Some n => if n <? 256 then cons_char (ascii_of_nat n) (parse_chars r') else None
            | None => None
            end
        | String e r' =>
            match unescape e with
            | Some c' => cons_char c' (parse_chars r')
            | None => None
            end
        | EmptyString => None
        end
      else if nat_of_ascii c <? 32 then None
      else cons_char c (parse_chars r)
  end.

(** The elements of a non-empty array, after its opening bracket, up to
    and including the closing bracket. *)
Fixpoint parse_elems (fuel : nat) (s : string) : option (list string * string) :=
  match fuel with
  | 0 => None
  | S f =>
      match skip_ws s with
      | String c r =>
          if Ascii.eqb c dq then
            match parse_chars r with
            | Some (x, r1) =>
                match skip_ws r1 with
                | String c' r2 =>
                    if Ascii.eqb c' "," then
                      option_map (fun '(xs, r3) => (x :: xs, r3)) (parse_elems f r2)
                    else if Ascii.eqb c' "]" then Some ([x], r2)
                    else None
                | EmptyString => None
                end
            | None => None
            end
          else None
      | EmptyString => None
      end
  end.

Definition JSON_parse (s : string) : option (list string) :=
  match skip_ws s with
  | String c r =>
      if Ascii.eqb c "[" then
        let body :=
          match skip_ws r with
          | String c' r' => if Ascii.eqb c' "]" then Some ([], r') else parse_elems (String.length s) r
          | EmptyString => None
          end in
        match body with
        | Some (l, rest) => if String.eqb (skip_ws rest) "" then Some l else None
        | None => None
        end
      else None
  | EmptyString => None
  end.

(** ** Lemmas *)

(** The parser undoes the escaping of one character, whatever follows:
    checked on each of the 256 characters. *)
Lemma parse_chars_escape_char (c : ascii) (rest : string) :
  parse_chars (escape_char c +:+ rest) = cons_char c (parse_chars rest).
Proof.
  destruct c as [[] [] [] [] [] [] [] []]; reflexivity.
Qed.

Lemma parse_chars_escape (s rest : string) :
  parse_chars (escape s +:+ String dq rest) = Some (s, rest).
Proof.
  induction s as [|c s IH]; [reflexivity|].
  cbn [escape]. rewrite append_assoc_str, parse_chars_escape_char, IH.
  reflexivity.
Qed.

Lemma quote_append (s rest : string) :
  quote s +:+ rest = String dq (escape s +:+ String dq rest).
Proof. unfold quote. by rewrite append_cons_str, append_assoc_str. Qed.

Lemma join_comma_cons2 (x y : string) (l : list string) :
  join_comma (x :: y :: l) = x +:+ String "," (join_comma (y :: l)).
Proof. reflexivity. Qed.

(** The element loop reads back the elements written by [join_comma],
    given one unit of fuel per element. *)
Lemma parse_elems_join (l : list string) (x rest : string) (fuel : nat) :
  length l < fuel ->
  parse_elems fuel (join_comma (map quote (x :: l)) +:+ String "]" rest) = Some (x :: l, rest).
Proof.
  revert x fuel. induction l as [|y l IH]; intros x [|fuel] Hf; [lia| |lia|].
  - cbn [map join_comma]. rewrite quote_append. simpl.
    rewrite parse_chars_escape. reflexivity.
  - pose proof (IH y fuel ltac:(simpl in Hf; lia)) as E. cbn [map] in E |- *.
    rewrite join_comma_cons2, append_assoc_str, quote_append, append_cons_str.
    set (J := join_comma (quote y :: map quote l)) in E |- *.
    simpl. rewrite parse_chars_escape. simpl. by rewrite E.
Qed.

Lemma cons_char_Some c o x r :
  cons_char c o = Some (x, r) -> exists x', o = Some (x', r) /\ x = String c x'.
Proof. destruct o as [[]|]; simpl; intros; simplify_eq; eauto. Qed.

(** Reading a string literal consumes at least its closing quote. *)
Lemma parse_chars_shorter (s x r : string) :
  parse_chars s = Some (x, r) -> String.length r < String.length s.
Proof.
  remember (String.length s) as n eqn:En. revert s x r En.
  induction n as [n IH] using lt_wf_ind. intros s x r -> H.
  destruct s as [|c s]; [discriminate|]. simpl in H.
  repeat (case_match; simplify_eq/=; try lia);
    try (apply cons_char_Some in H as (? & H & ->));
    match goal with
    | H : parse_chars ?s' = Some _ |- _ =>
        let Hl := fresh in
        pose proof (IH (String.length s') ltac:(simpl; lia) s' _ _ eq_refl H) as Hl;
        simpl; lia
    end.
Qed.

Lemma skip_ws_length (s : string) : String.length (skip_ws s) <= String.length s.
Proof. induction s as [|c s IH]; simpl; [lia|]. destruct (is_ws c); simpl; lia. Qed.

Lemma skip_ws_cons_length (s r : string) (c : ascii) :
  skip_ws s = String c r -> String.length r < String.length s.
Proof. intros H. pose proof (skip_ws_length s) as Hl. rewrite H in Hl. simpl in Hl. lia. Qed.

(** Termination of the element loop: each round consumes input, so any
    fuel larger than the length of the text gives the same result; the
    fuel [JSON_parse] passes is never what stops the loop. *)
Lemma parse_elems_fuel (f1 f2 : nat) (s : string) :
  String.length s < f1 -> String.length s < f2 ->
  parse_elems f1 s = parse_elems f2 s.
Proof.
  revert f2 s. induction f1 as [|f1 IH]; intros [|f2] s H1 H2; [lia..|].
  simpl. destruct (skip_ws s) as [|c r] eqn:Ews; [done|].
  apply skip_ws_cons_length in Ews.
  destruct (Ascii.eqb c dq); [|done].
  destruct (parse_chars r) as [[x r1]|] eqn:Epc; [|done].
  apply parse_chars_shorter in Epc.
  destruct (skip_ws r1) as [|c' r2] eqn:Ews1; [done|].
  apply skip_ws_cons_length in Ews1.
  by rewrite (IH f2 r2) by lia.
Qed.

Lemma length_quote (s : string) : 2 <= String.length (quote s).
Proof. unfold quote. simpl. rewrite length_append_str. simpl. lia. Qed.

Lemma length_join_quote (l : list string) :
  2 * length l <= String.length (join_comma (map quote l)).
Proof.
  induction l as [|x [|y l] IH]; [simpl; lia| |].
  - cbn [map join_comma length]. pose proof (length_quote x). lia.
  - cbn [map length] in *. rewrite join_comma_cons2, length_append_str.
    pose proof (length_quote x). cbn [String.length]. lia.
Qed.

Lemma join_quote_starts (x : string) (l : list string) :
  exists t, join_comma (map quote (x :: l)) +:+ "]" = String dq t.
Proof.
  destruct l as [|y l]; cbn [map join_comma].
  - rewrite quote_append. eauto.
  - rewrite append_assoc_str, quote_append. eauto.
Qed.

(** Parsing the JSON text of an array of strings gives the array back. *)
Lemma parse_stringify (l : list string) :
  JSON_parse (JSON_stringify l) = Some l.
Proof.
  destruct l as [|x l]; [reflexivity|].
  pose proof (length_join_quote (x :: l)) as Hlen.
  destruct (join_quote_starts x l) as [t Ht].
  unfold JSON_parse, JSON_stringify.
  remember (String.length (String "[" (join_comma (map quote (x :: l)) +:+ "]"))) as n eqn:En.
  rewrite Ht. simpl. rewrite <- Ht.
  rewrite parse_elems_join; [reflexivity|].
  subst n. cbn [String.length length] in Hlen |- *. rewrite length_append_str.
  cbn [String.length]. lia.
Qed.

(** ** Size of the JSON text *)

(** One character is written with one to six characters: itself, a short
    escape, or [\u00XX]. *)
Lemma length_escape_char (c : ascii) :
  1 <= String.length (escape_char c) <= 6.
Proof. destruct c as [[] [] [] [] [] [] [] []]; simpl; lia. Qed.

Lemma length_escape (s : string) :
  String.length s <= String.length (escape s) <= 6 * String.length s.
Proof.
  induction s as [|c s IH]; [simpl; lia|].
  cbn [escape]. rewrite length_append_str. pose proof (length_escape_char c). simpl. lia.
Qed.

Lemma length_join_comma (l : list string) :
  l <> [] ->
  String.length (join_comma l) = sum_list_with String.length l + (length l - 1).
Proof.
  induction l as [|x [|y l] IH]; intros _; [done|simpl; lia|].
  rewrite join_comma_cons2, length_append_str. cbn [String.length].
  rewrite IH by done. simpl. lia.
Qed.

(** Bounds on the size of the stored transcript: the JSON text of a
    non-empty array of strings holding [n] characters in [k] elements
    has at least [n + 3k + 1] and at most [6n + 3k + 1] characters (two
    brackets, two quotes per element, the commas between them, and one
    to six characters per character of the elements). *)
Lemma JSON_stringify_length (l : list string) :
  l <> [] ->
  sum_list_with String.length l + 3 * length l + 1 <= String.length (JSON_stringify l) <=
  6 * sum_list_with String.length l + 3 * length l + 1.
Proof.
  intros Hne. unfold JSON_stringify. cbn [String.length].
  rewrite length_append_str, length_join_comma by (destruct l; done).
  rewrite length_map. cbn [String.length].
  assert (Hq : forall l', sum_list_with String.length (map quote l') =
                          sum_list_with (fun x => String.length (escape x)) l' + 2 * length l').
  { induction l' as [|x l' IH]; [done|].
    cbn [map sum_list_with length]. unfold quote at 1. cbn [String.length].
    rewrite length_append_str. cbn [String.length]. lia. }
  rewrite Hq.
  assert (Hs : forall l', sum_list_with String.length l' <= sum_list_with (fun x => String.length (escape x)) l' <=
                          6 * sum_list_with String.length l').
  { induction l' as [|x l' IH]; [simpl; lia|]. simpl. pose proof (length_escape x). lia. }
  pose proof (Hs l). destruct l; [done|]. simpl length. lia.
Qed.

Lemma JSON_stringify_length_witness :
  sum_list_with String.length ["hello"; "hi"] + 3 * length ["hello"; "hi"] + 1 <=
    String.length (JSON_stringify ["hello"; "hi"]) <=
  6 * sum_list_with String.length ["hello"; "hi"] + 3 * length ["hello"; "hi"] + 1.
Proof. apply JSON_stringify_length. discriminate. Defined.
