(* ===== verification/JsonValue.v ===== *)
(** * JSON values: [JSON.parse] on any text

    [Json] models [JSON.parse] on the texts the client writes, arrays of
    strings.  The text read back from [localStorage] can be any JSON text
    (the storage is shared by every script of the origin and editable by
    the user), and [JSON.parse] then returns any JSON value, which
    [Form.tsx] passes to [setResponse] as it is.  This file models the
    whole JSON grammar of ECMA-404 as [JSON.parse] reads it: null, the
    booleans, numbers, strings, arrays and objects, with insignificant
    whitespace.  A number is kept as its exact decimal value, a mantissa
    and a power of ten; its truthiness follows the rounding of that value
    to the nearest double.

    The parser's recursion has fuel: [JSON_parse_value] gives it one unit
    more than the length of its input, which is enough (each nested value
    consumes at least one character), and a theorem shows that more fuel
    changes nothing.  The restricted parser of [Json] is the composition
    of this parser with the test that the value is an array of
    strings. *)

From S2P Require Import Prelude JsValue Json.
From Stdlib Require Import ZArith.

(** ** Values *)

(** A JSON number: [(-1)^neg * mant * 10^exp10], the exact value of its
    decimal text. *)
Record number := mk_number {
  num_neg : bool;
  num_mant : Z;
  num_exp10 : Z
}.

#[warnings="-register-all"]
Inductive json :=
| JSONNull
| JSONBool (b : bool)
| JSONNumber (n : number)
| JSONString (s : string)
| JSONArray (l : list json)
| JSONObject (fields : list (string * json)).

(** A number rounds to zero when its magnitude is at most [2^-1075], half
    the least positive double (the tie rounds to the even neighbour,
    zero). *)
Definition number_is_zero (n : number) : bool :=
  Z.eqb (num_mant n) 0 ||
  (Z.ltb (num_exp10 n) 0 && Z.leb (num_mant n * 2 ^ 1075) (10 ^ (- num_exp10 n))).

(** ToBoolean of a parsed value: [null], [false], a zero and [""] are
    falsy; every array and object is truthy. *)
Definition json_truthy (v : json) : bool :=
  match v with
  | JSONNull => false
  | JSONBool b => b
  | JSONNumber n => negb (number_is_zero n)
  | JSONString s => negb (String.eqb s "")
  | JSONArray _ | JSONObject _ => true
  end.

(** ** Numbers *)

(** The text after the character [k], when the text starts with it. *)
Definition after (k : ascii) (s : string) : option string :=
  match s with
  | String c r => if Ascii.eqb c k then Some r else None
  | EmptyString => None
  end.

Definition is_digit (c : ascii) : bool :=
  (48 <=? nat_of_ascii c) && (nat_of_ascii c <=? 57).

(** The longest run of digits at the start of a text. *)
Fixpoint digit_run (s : string) : list nat * string :=
  match s with
  | String c r =>
      if is_digit c then let '(ds, r') := digit_run r in (nat_of_ascii c - 48 :: ds, r')
      else ([], s)
  | EmptyString => ([], EmptyString)
  end.

Definition digits_Z (ds : list nat) : Z :=
  fold_left (fun acc d => acc * 10 + Z.of_nat d)%Z ds 0%Z.

(** [int]: [0] or a non-zero digit followed by digits. *)
Definition number_int (s : string) : option (list nat * string) :=
  match s with
  | String c r =>
      if Ascii.eqb c "0" then Some ([0], r)
      else if is_digit c then let '(ds, r') := digit_run r in Some (nat_of_ascii c - 48 :: ds, r')
      else None
  | EmptyString => None
  end.

(** [frac]: nothing, or [.] followed by at least one digit. *)
Definition number_frac (s : string) : option (list nat * string) :=
  match after "." s with
  | Some r =>
      match digit_run r with
      | ([], _) => None
      | (ds, r') => Some (ds, r')
      end
  | None => Some ([], s)
  end.

(** [exp]: nothing, or [e] or [E], an optional sign and at least one
    digit. *)
Definition number_exp (s : string) : option (Z * string) :=
  match s with
  | String c r =>
      if Ascii.eqb c "e" || Ascii.eqb c "E" then
        let '(neg, r1) := match after "-" r, after "+" r with
                          | Some r', _ => (true, r')
                          | None, Some r' => (false, r')
                          | None, None => (false, r)
                          end in
        match digit_run r1 with
        | ([], _) => None
        | (ds, r2) => Some (if neg then (- digits_Z ds)%Z else digits_Z ds, r2)
        end
      else Some (0%Z, s)
  | EmptyString => Some (0%Z, EmptyString)
  end.

Definition parse_number (s : string) : option (json * string) :=
  let '(neg, s1) := match after "-" s with Some r => (true, r) | None => (false, s) end in
  match number_int s1 with
  | Some (int, s2) =>
      match number_frac s2 with
      | Some (frac, s3) =>
          match number_exp s3 with
          | Some (e, s4) =>
              Some (JSONNumber (mk_number neg (digits_Z (int ++ frac))
                                  (e - Z.of_nat (length frac))), s4)
          | None => None
          end
      | None => None
      end
  | None => None
  end.

(** ** The parser *)

(** A keyword after its first character. *)
Definition literal (word : string) (v : json) (s : string) : option (json * string) :=
  if String.prefix word s then Some (v, substring (String.length word) (String.length s) s)
  else None.

Section Loops.
Variable value : string -> option (json * string).

(** The elements of a non-empty array, up to and including [\]], each
    read by [value]; [fuel] bounds their number. *)
Fixpoint parse_elements (fuel : nat) (s : string) : option (list json * string) :=
  match fuel with
  | 0 => None
  | S g =>
      match value s with
      | Some (v, r) =>
          match after "," (skip_ws r), after "]" (skip_ws r) with
          | Some r', _ => option_map (fun '(vs, r'') => (v :: vs, r'')) (parse_elements g r')
          | None, Some r' => Some ([v], r')
          | None, None => None
          end
      | None => None
      end
  end.

(** The members of a non-empty object, up to and including [}]. *)
Fixpoint parse_members (fuel : nat) (s : string) : option (list (string * json) * string) :=
  match fuel with
  | 0 => None
  | S g =>
      match skip_ws s with
      | String c r =>
          if Ascii.eqb c dq then
            match parse_chars r with
            | Some (k, r1) =>
                match after ":" (skip_ws r1) with
                | Some r2 =>
                    match value r2 with
                    | Some (v, r3) =>
                        match after "," (skip_ws r3), after "}" (skip_ws r3) with
                        | Some r', _ =>
                            option_map (fun '(kvs, r'') => ((k, v) :: kvs, r'')) (parse_members g r')
                        | None, Some r' => Some ([(k, v)], r')
                        | None, None => None
                        end
                    | None => None
                    end
                | None => None
                end
            | None => None
            end
          else None
      | EmptyString => None
      end
  end.
End Loops.

(** A value after insignificant whitespace; returns the text after it. *)
Fixpoint parse_value (fuel : nat) (s : string) : option (json * string) :=
  match fuel with
  | 0 => None
  | S f =>
      match skip_ws s with
      | String c r =>
          if Ascii.eqb c "n" then literal "ull" JSONNull r
          else if Ascii.eqb c "t" then literal "rue" (JSONBool true) r
          else if Ascii.eqb c "f" then literal "alse" (JSONBool false) r
          else if Ascii.eqb c dq then
            option_map (fun '(x, r') => (JSONString x, r')) (parse_chars r)
          else if Ascii.eqb c "[" then
            match after "]" (skip_ws r) with
            | Some r' => Some (JSONArray [], r')
            | None => option_map (fun '(vs, r') => (JSONArray vs, r')) (parse_elements (parse_value f) f r)
            end
          else if Ascii.eqb c "{" then
            match after "}" (skip_ws r) with
            | Some r' => Some (JSONObject [], r')
            | None => option_map (fun '(kvs, r') => (JSONObject kvs, r')) (parse_members (parse_value f) f r)
            end
          else parse_number (String c r)
      | EmptyString => None
      end
  end.

(** [JSON.parse(text)]: one value and nothing but whitespace after it;
    [None] is the [SyntaxError] it throws. *)
Definition JSON_parse_value (s : string) : option json :=
  match parse_value (S (String.length s)) s with
  | Some (v, rest) => if String.eqb (skip_ws rest) "" then Some v else None
  | None => None
  end.

(** The string a value is, if it is one. *)
Definition str_of (v : json) : option string :=
  match v with JSONString s => Some s | _ => None end.

(** The strings of an array of strings. *)
Definition as_strings (v : json) : option (list string) :=
  match v with
  | JSONArray vs => mapM str_of vs
  | _ => None
  end.

(** ** The restricted parser is this parser followed by a test *)

Section Elements.
Variable value : string -> option (json * string).

(** [value] reads a string literal as the string parser does, and
    nothing else as a string. *)
Hypothesis value_string : forall s,
  match skip_ws s with
  | String c r =>
      if Ascii.eqb c dq then value s = option_map (fun '(x, r') => (JSONString x, r')) (parse_chars r)
      else forall v r', value s = Some (v, r') -> str_of v = None
  | EmptyString => value s = None
  end.

Lemma parse_elems_elements (n : nat) (s : string) :
  parse_elems n s =
  match parse_elements value n s with
  | Some (vs, r) => option_map (fun l => (l, r)) (mapM str_of vs)
  | None => None
  end.
Proof using value_string.
  revert s. induction n as [|n IH]; intros s; [done|]. cbn [parse_elems parse_elements].
  specialize (value_string s). destruct (skip_ws s) as [|c r]; [by rewrite value_string|].
  destruct (Ascii.eqb c dq).
  - rewrite value_string. destruct (parse_chars r) as [[x r1]|]; [|done]. cbn [option_map].
    destruct (skip_ws r1) as [|c' r2]; [done|]. cbn [after].
    destruct (Ascii.eqb c' ","); [|by destruct (Ascii.eqb c' "]")].
    rewrite IH. destruct (parse_elements value n r2) as [[vs r3]|]; [|done].
    simpl. by destruct (mapM str_of vs).
  - destruct (value s) as [[v r']|] eqn:E; [|done].
    specialize (value_string v r' eq_refl).
    destruct (after "," (skip_ws r')); [|destruct (after "]" (skip_ws r'))];
      try destruct (parse_elements value n _) as [[vs r3]|]; simpl; by rewrite ?value_string.
Qed.
End Elements.

Lemma parse_number_number (s r : string) (v : json) :
  parse_number s = Some (v, r) -> exists n, v = JSONNumber n.
Proof.
  unfold parse_number. destruct (match after "-" s with Some r => (true, r) | None => (false, s) end) as [neg s1].
  destruct (number_int s1) as [[int s2]|]; [|done].
  destruct (number_frac s2) as [[frac s3]|]; [|done].
  destruct (number_exp s3) as [[e s4]|]; [|done]. intros [= <- _]. by eexists.
Qed.

Lemma literal_value (w s r : string) (v v' : json) : literal w v s = Some (v', r) -> v' = v.
Proof. unfold literal. by destruct (String.prefix w s); [intros [= <- _]|]. Qed.

(** What a value that starts with neither a bracket nor a quote is not. *)
Lemma parse_value_other (f : nat) (s r r' : string) (c : ascii) (v : json) :
  skip_ws s = String c r -> parse_value (S f) s = Some (v, r') ->
  (c <> "["%char -> as_strings v = None) /\ (c <> dq -> str_of v = None).
Proof.
  intros Hs. cbn [parse_value]. rewrite Hs.
  repeat match goal with
  | |- context [if Ascii.eqb c ?k then _ else _] => destruct (Ascii.eqb_spec c k) as [->|?]
  end.
  all: try (intros ->%literal_value; done).
  all: try (intros (num & ->)%parse_number_number; done).
  all: try (intros ?; destruct (parse_chars r) as [[x ?]|]; simplify_eq/=; done).
  - destruct (after "]" (skip_ws r)); [intros [= <- _]|];
      [|destruct (parse_elements (parse_value f) f r) as [[vs ?]|]; intros [= <- _]];
      (split; [intros Hc; by contradict Hc | done]).
  - destruct (after "}" (skip_ws r)); [intros [= <- _]; done|].
    destruct (parse_members (parse_value f) f r) as [[kvs ?]|]; by intros [= <- _].
Qed.

Lemma skip_ws_cons (c : ascii) (s : string) :
  is_ws c = false -> skip_ws (String c s) = String c s.
Proof. cbn. by intros ->. Qed.

(** The unfolding of one round of [parse_value]. *)
Lemma parse_value_S (f : nat) (s : string) :
  parse_value (S f) s =
  match skip_ws s with
  | String c r =>
      if Ascii.eqb c "n" then literal "ull" JSONNull r
      else if Ascii.eqb c "t" then literal "rue" (JSONBool true) r
      else if Ascii.eqb c "f" then literal "alse" (JSONBool false) r
      else if Ascii.eqb c dq then option_map (fun '(x, r') => (JSONString x, r')) (parse_chars r)
      else if Ascii.eqb c "[" then
        match after "]" (skip_ws r) with
        | Some r' => Some (JSONArray [], r')
        | None => option_map (fun '(vs, r') => (JSONArray vs, r')) (parse_elements (parse_value f) f r)
        end
      else if Ascii.eqb c "{" then
        match after "}" (skip_ws r) with
        | Some r' => Some (JSONObject [], r')
        | None => option_map (fun '(kvs, r') => (JSONObject kvs, r')) (parse_members (parse_value f) f r)
        end
      else parse_number (String c r)
  | EmptyString => None
  end.
Proof. reflexivity. Qed.

(** [parse_value] reads strings as the string parser does. *)
Lemma parse_value_string (f : nat) (s : string) :
  match skip_ws s with
  | String c r =>
      if Ascii.eqb c dq then
        parse_value (S f) s = option_map (fun '(x, r') => (JSONString x, r')) (parse_chars r)
      else forall v r', parse_value (S f) s = Some (v, r') -> str_of v = None
  | EmptyString => parse_value (S f) s = None
  end.
Proof.
  destruct (skip_ws s) as [|c r] eqn:Hs; [by cbn [parse_value]; rewrite Hs|].
  destruct (Ascii.eqb_spec c dq) as [->|Hc].
  - cbn [parse_value]. by rewrite Hs.
  - intros v r' Hp. by apply (parse_value_other f s r r' c v Hs Hp).
Qed.

(** The restricted parser of [Json] is this parser followed by the test
    that the value is an array of strings. *)
Lemma JSON_parse_value_strings (s : string) :
  JSON_parse s = JSON_parse_value s ≫= as_strings.
Proof.
  unfold JSON_parse, JSON_parse_value.
  destruct (skip_ws s) as [|c r] eqn:Hs; [by rewrite parse_value_S, Hs|].
  destruct (String.length s) as [|n] eqn:Hn; [by destruct s; [discriminate|]|].
  destruct (Ascii.eqb_spec c "[") as [->|Hc].
  - rewrite parse_value_S, Hs. cbn -[parse_elements parse_elems parse_value].
    destruct (skip_ws r) as [|c' r'] eqn:Hr.
    + cbn [after parse_elements]. pose proof (parse_value_string n r) as Hv.
      rewrite Hr in Hv. by rewrite Hv.
    + cbn [after]. destruct (Ascii.eqb c' "]").
      * cbn. by destruct (String.eqb (skip_ws r') "").
      * rewrite (parse_elems_elements _ (parse_value_string n) (S n) r).
        destruct (parse_elements (parse_value (S n)) (S n) r) as [[vs rest]|]; [|done].
        cbn [option_map]. destruct (String.eqb (skip_ws rest) "") eqn:E; cbn;
          destruct (mapM str_of vs); cbn; by rewrite ?E.
  - destruct (parse_value (S (S n)) s) as [[v rest]|] eqn:Hp.
    + destruct (parse_value_other _ _ _ _ _ _ Hs Hp) as [Ha _].
      destruct (Ascii.eqb c "[") eqn:E; [by apply Ascii.eqb_eq in E|].
      destruct (String.eqb (skip_ws rest) ""); cbn; by rewrite ?Ha.
    + by destruct (Ascii.eqb c "[").
Qed.

(** ** Every round consumes input, so the fuel is enough *)

Lemma after_length (k : ascii) (s r : string) :
  after k s = Some r -> String.length r < String.length s.
Proof. destruct s as [|c s]; cbn; [done|]. destruct (Ascii.eqb c k); intros [= <-]; lia. Qed.

Lemma skip_after_length (k : ascii) (s r : string) :
  after k (skip_ws s) = Some r -> String.length r < String.length s.
Proof. intros H%after_length. pose proof (skip_ws_length s). lia. Qed.

Lemma digit_run_length (s r : string) (ds : list nat) :
  digit_run s = (ds, r) -> String.length r <= String.length s.
Proof.
  revert ds. induction s as [|c s IH]; intros ds; cbn; [intros [= _ <-]; done|].
  destruct (is_digit c); [|intros [= _ <-]; done].
  destruct (digit_run s) as [ds' r'] eqn:E. intros [= _ <-]. specialize (IH _ eq_refl). lia.
Qed.

Lemma substring_length_le (n m : nat) (s : string) :
  String.length (substring n m s) <= String.length s.
Proof.
  revert n m. induction s as [|c s IH]; intros n m; destruct n as [|n], m as [|m]; cbn; try lia.
  - specialize (IH 0 m). lia.
  - specialize (IH n 0). lia.
  - specialize (IH n (S m)). lia.
Qed.

Lemma literal_length (w s r : string) (v v' : json) :
  literal w v s = Some (v', r) -> String.length r <= String.length s.
Proof.
  unfold literal. destruct (String.prefix w s); [|done]. intros [= _ <-]. apply substring_length_le.
Qed.

Lemma parse_number_length (s r : string) (v : json) :
  parse_number s = Some (v, r) -> String.length r < String.length s.
Proof.
  unfold parse_number.
  assert (E1 : String.length (snd (match after "-" s with Some r => (true, r) | None => (false, s) end))
               <= String.length s)
    by (destruct (after "-" s) eqn:E; cbn; [apply after_length in E|]; lia).
  destruct (match after "-" s with Some r => (true, r) | None => (false, s) end) as [neg s1].
  cbn in E1.
  destruct (number_int s1) as [[int s2]|] eqn:E2; [|done].
  destruct (number_frac s2) as [[frac s3]|] eqn:E3; [|done].
  destruct (number_exp s3) as [[e s4]|] eqn:E4; [|done]. intros [= _ <-].
  assert (String.length s2 < String.length s1).
  { destruct s1 as [|c s1']; [done|]. cbn in E2.
    destruct (Ascii.eqb c "0"); [injection E2 as _ <-; cbn; lia|].
    destruct (is_digit c); [|done]. destruct (digit_run s1') as [ds r'] eqn:Ed.
    injection E2 as _ <-. apply digit_run_length in Ed. cbn. lia. }
  assert (String.length s3 <= String.length s2).
  { unfold number_frac in E3. destruct (after "." s2) as [r2|] eqn:Ea; [|by injection E3 as _ <-].
    apply after_length in Ea. destruct (digit_run r2) as [[|d ds] r'] eqn:Ed; [done|].
    injection E3 as _ <-. apply digit_run_length in Ed. lia. }
  assert (String.length s4 <= String.length s3).
  { unfold number_exp in E4. destruct s3 as [|c r3]; [by injection E4 as _ <-|].
    destruct (Ascii.eqb c "e" || Ascii.eqb c "E"); [|by injection E4 as _ <-].
    destruct (match after "-" r3, after "+" r3 with
              | Some r', _ => (true, r') | None, Some r' => (false, r') | None, None => (false, r3) end)
      as [ng r1] eqn:Es.
    assert (String.length r1 <= String.length r3).
    { destruct (after "-" r3) eqn:Em; [injection Es as _ <-; apply after_length in Em; lia|].
      destruct (after "+" r3) eqn:Ep; injection Es as _ <-; [apply after_length in Ep|]; lia. }
    destruct (digit_run r1) as [[|d ds] r2] eqn:Ed; [done|].
    injection E4 as _ <-. apply digit_run_length in Ed. cbn. lia. }
  lia.
Qed.

Section Consume.
Variable value : string -> option (json * string).
Hypothesis value_shorter : forall s v r, value s = Some (v, r) -> String.length r < String.length s.

Lemma parse_elements_shorter (g : nat) (s r : string) (vs : list json) :
  parse_elements value g s = Some (vs, r) -> String.length r < String.length s.
Proof using value_shorter.
  revert s vs. induction g as [|g IH]; intros s vs; cbn; [done|].
  destruct (value s) as [[v r1]|] eqn:Ev; [|done]. apply value_shorter in Ev.
  destruct (after "," (skip_ws r1)) as [r'|] eqn:Ec.
  - apply skip_after_length in Ec.
    destruct (parse_elements value g r') as [[vs' r'']|] eqn:Ep; [|done].
    intros [= _ <-]. apply IH in Ep. lia.
  - destruct (after "]" (skip_ws r1)) as [r'|] eqn:Eb; [|done].
    apply skip_after_length in Eb. intros [= _ <-]. lia.
Qed.

Lemma parse_members_shorter (g : nat) (s r : string) (kvs : list (string * json)) :
  parse_members value g s = Some (kvs, r) -> String.length r < String.length s.
Proof using value_shorter.
  revert s kvs. induction g as [|g IH]; intros s kvs; cbn; [done|].
  destruct (skip_ws s) as [|c r0] eqn:Ews; [done|]. apply skip_ws_cons_length in Ews.
  destruct (Ascii.eqb c dq); [|done].
  destruct (parse_chars r0) as [[k r1]|] eqn:Ek; [|done]. apply parse_chars_shorter in Ek.
  destruct (after ":" (skip_ws r1)) as [r2|] eqn:Ecol; [|done]. apply skip_after_length in Ecol.
  destruct (value r2) as [[v r3]|] eqn:Ev; [|done]. apply value_shorter in Ev.
  destruct (after "," (skip_ws r3)) as [r'|] eqn:Ec.
  - apply skip_after_length in Ec.
    destruct (parse_members value g r') as [[kvs' r'']|] eqn:Ep; [|done].
    intros [= _ <-]. apply IH in Ep. lia.
  - destruct (after "}" (skip_ws r3)) as [r'|] eqn:Eb; [|done].
    apply skip_after_length in Eb. intros [= _ <-]. lia.
Qed.
End Consume.

(** Reading a value consumes at least one character. *)
Lemma parse_value_shorter (f : nat) (s r : string) (v : json) :
  parse_value f s = Some (v, r) -> String.length r < String.length s.
Proof.
  revert s r v. induction f as [|f IH]; intros s r v; [done|]. rewrite parse_value_S.
  destruct (skip_ws s) as [|c r0] eqn:Ews; [done|]. apply skip_ws_cons_length in Ews.
  repeat match goal with
  | |- context [if Ascii.eqb c ?k then _ else _] => destruct (Ascii.eqb c k)
  end.
  all: try (intros ?%literal_length; lia).
  all: try (intros ?%parse_number_length; cbn in *; lia).
  all: try (destruct (parse_chars r0) as [[x r1]|] eqn:Ep; [|done];
            apply parse_chars_shorter in Ep; intros [= _ <-]; lia).
  - destruct (after "]" (skip_ws r0)) as [r'|] eqn:Eb;
      [apply skip_after_length in Eb; intros [= _ <-]; lia|].
    destruct (parse_elements (parse_value f) f r0) as [[vs r']|] eqn:Ep; [|done].
    apply parse_elements_shorter in Ep; [|intros ???; apply IH]. intros [= _ <-]. lia.
  - destruct (after "}" (skip_ws r0)) as [r'|] eqn:Eb;
      [apply skip_after_length in Eb; intros [= _ <-]; lia|].
    destruct (parse_members (parse_value f) f r0) as [[kvs r']|] eqn:Ep; [|done].
    apply parse_members_shorter in Ep; [|intros ???; apply IH]. intros [= _ <-]. lia.
Qed.

Section Agree.
Variables value1 value2 : string -> option (json * string).
Variable bound : nat.
Hypothesis value1_shorter : forall s v r, value1 s = Some (v, r) -> String.length r < String.length s.
Hypothesis values_agree : forall s, String.length s < bound -> value1 s = value2 s.

Lemma parse_elements_agree (g g' : nat) (s : string) :
  String.length s < bound -> String.length s < g -> g <= g' ->
  parse_elements value1 g s = parse_elements value2 g' s.
Proof using value1_shorter values_agree.
  revert g' s. induction g as [|g IH]; intros [|g'] s Hb Hg Hle; [lia..|]. cbn.
  rewrite <- (values_agree s Hb).
  destruct (value1 s) as [[v r1]|] eqn:Ev; [|done]. apply value1_shorter in Ev.
  destruct (after "," (skip_ws r1)) as [r'|] eqn:Ec; [|done].
  apply skip_after_length in Ec. by rewrite (IH g') by lia.
Qed.

Lemma parse_members_agree (g g' : nat) (s : string) :
  String.length s < bound -> String.length s < g -> g <= g' ->
  parse_members value1 g s = parse_members value2 g' s.
Proof using value1_shorter values_agree.
  revert g' s. induction g as [|g IH]; intros [|g'] s Hb Hg Hle; [lia..|]. cbn.
  destruct (skip_ws s) as [|c r0] eqn:Ews; [done|]. apply skip_ws_cons_length in Ews.
  destruct (Ascii.eqb c dq); [|done].
  destruct (parse_chars r0) as [[k r1]|] eqn:Ek; [|done]. apply parse_chars_shorter in Ek.
  destruct (after ":" (skip_ws r1)) as [r2|] eqn:Ecol; [|done]. apply skip_after_length in Ecol.
  rewrite <- (values_agree r2) by lia.
  destruct (value1 r2) as [[v r3]|] eqn:Ev; [|done]. apply value1_shorter in Ev.
  destruct (after "," (skip_ws r3)) as [r'|] eqn:Ec; [|done].
  apply skip_after_length in Ec. by rewrite (IH g') by lia.
Qed.
End Agree.

Lemma parse_value_fuel_S (f : nat) (s : string) :
  String.length s < f -> parse_value f s = parse_value (S f) s.
Proof.
  revert s. induction f as [|f IH]; intros s Hs; [lia|]. rewrite !(parse_value_S _ s).
  destruct (skip_ws s) as [|c r] eqn:Ews; [done|]. apply skip_ws_cons_length in Ews.
  assert (Hsh : forall s v r, parse_value f s = Some (v, r) -> String.length r < String.length s)
    by (intros ???; apply parse_value_shorter).
  by rewrite (parse_elements_agree _ _ f Hsh IH f (S f) r),
             (parse_members_agree _ _ f Hsh IH f (S f) r) by lia.
Qed.

(** ** The parser's fuel *)

(** Any fuel larger than the length of the text gives the same result:
    the fuel [JSON_parse_value] passes never stops the parser. *)
Lemma parse_value_fuel (f g : nat) (s : string) :
  String.length s < f -> f <= g -> parse_value f s = parse_value g s.
Proof.
  intros Hs Hle. induction Hle as [|g Hle IH]; [done|].
  rewrite IH. apply parse_value_fuel_S. lia.
Qed.

Lemma as_strings_Some (v : json) (l : list string) :
  as_strings v = Some l -> v = JSONArray (JSONString <$> l).
Proof.
  destruct v as [| | | |vs|]; try done. cbn. intros Hm%mapM_Some_1. f_equal.
  induction Hm as [|x s vs l Hx _ IH]; [done|].
  destruct x; try done. injection Hx as ->. cbn. by rewrite IH.
Qed.

(** The JSON text the client writes is read back by [JSON.parse] as the
    array of its strings. *)
Lemma JSON_parse_value_stringify (l : list string) :
  JSON_parse_value (JSON_stringify l) = Some (JSONArray (JSONString <$> l)).
Proof.
  pose proof (parse_stringify l) as H. rewrite JSON_parse_value_strings in H.
  destruct (JSON_parse_value (JSON_stringify l)) as [v|]; [|done].
  cbn in H. by rewrite (as_strings_Some v l H).
Qed.

(** ** The parser the client's model uses *)

(** Equivalence of the two parsers: [Json.JSON_parse], the parser
    the client's model reads its stored transcript with, returns the list
    [l] exactly when [JSON.parse] on the whole JSON grammar returns the
    array of the strings of [l]; it fails on every other text, including
    valid JSON text whose value is not an array of strings. *)
Lemma JSON_parse_string_arrays (s : string) (l : list string) :
  JSON_parse s = Some l <-> JSON_parse_value s = Some (JSONArray (JSONString <$> l)).
Proof.
  rewrite JSON_parse_value_strings. split.
  - destruct (JSON_parse_value s) as [v|]; [|done]. cbn. intros H. by rewrite (as_strings_Some v l H).
  - intros ->. cbn. by apply mapM_fmap_Some.
Qed.
