(* ===== verification/Storage.v ===== *)
(** * The browser's [localStorage]

    A Web Storage object maps string keys to string values.  [getItem]
    returns [null] for a missing key ([None] here), [setItem] stores the
    string coercion of its value, [removeItem] deletes the key.  The client
    uses three fixed keys (see [Form]).  Modelled from the Web Storage
    specification; quota errors are not modelled. *)

From S2P Require Import Prelude JsValue.

Abbreviation storage := (gmap string string).

Definition getItem (k : string) (st : storage) : option string := st !! k.

(** [setItem(k, v)] with [v] a string or [undefined]: [String(v)] is
    stored, so [undefined] becomes the text ["undefined"]. *)
Definition setItem (k : string) (v : option string) (st : storage) : storage :=
  <[k := to_js_string v]> st.

Definition removeItem (k : string) (st : storage) : storage := delete k st.

Lemma getItem_setItem_eq k v st : getItem k (setItem k v st) = Some (to_js_string v).
Proof. apply lookup_insert_eq. Qed.

Lemma getItem_setItem_ne k k' v st :
  k <> k' -> getItem k' (setItem k v st) = getItem k' st.
Proof. intros Hne. by apply lookup_insert_ne. Qed.

Lemma getItem_removeItem_eq k st : getItem k (removeItem k st) = None.
Proof. apply lookup_delete_eq. Qed.

Lemma getItem_removeItem_ne k k' st :
  k <> k' -> getItem k' (removeItem k st) = getItem k' st.
Proof. intros Hne. by apply lookup_delete_ne. Qed.

#[export] Hint Rewrite getItem_setItem_eq getItem_removeItem_eq : chat_rw.
