(* ===== verification/Relay.v ===== *)
(** * The Conversation Relay Handler: [src/pages/api/main.ts]

    [handler] builds a Redis-backed Keyv store and a [ChatGPTAPI] client for
    every request (a constructor that throws rejects the request),
    answers an empty message with a canned prompt, and otherwise calls
    [sendMessage], with the continuation options only when both
    identifiers are truthy and not [''].  [route] is the module: the
    check of [dotenv-safe] when it is loaded, then [handler].  The
    completion service is the type class [CompletionService]: the handler
    and its theorems are stated for any implementation.  [relay_spec] is
    the contract of the spec (section 4.2) and [handler_refines_spec]
    shows that the handler implements it. *)

From S2P Require Import Prelude JsValue.
From Stdlib Require Import ZArith.

(** ** Data *)

(** The parsed JSON body, [req.body]. *)
Record req_body := mk_req_body {
  body_message : jsval;
  body_conversationId : jsval;
  body_parentMessageId : jsval
}.

(** The options object passed as second argument of [sendMessage]. *)
Record send_opts := mk_send_opts {
  opt_conversationId : jsval;
  opt_parentMessageId : jsval
}.

(** The [ChatMessage] that [sendMessage] resolves to: [text],
    [conversationId] (which the library may leave [undefined]) and [id]. *)
Record chat_message := mk_chat_message {
  cm_text : string;
  cm_conversationId : option string;
  cm_id : string
}.

(** The JSON body of a 200 response.  A field that is [undefined] is left
    out by [res.json], which [None] records. *)
Record res_body := mk_res_body {
  res_message : string;
  res_conversationId : option string;
  res_messageId : option string
}.

(** What one request builds: the Redis URL and Keyv namespace of the
    message store, and the API key of the client. *)
Record api_config := mk_api_config {
  cfg_redisUrl : string;
  cfg_namespace : string;
  cfg_apiKey : string
}.

(** The completion service, the [chatgpt] package's [ChatGPTAPI]: its
    constructor may throw on the configuration it is given
    ([client_error]); given that configuration, the text and the optional
    continuation options, [sendMessage] either resolves to a message or
    rejects, and may change the service's state (the message store). *)
Class CompletionService (S : Type) := {
  client_error : api_config -> option string;
  sendMessage : api_config -> jsval -> option send_opts -> S ->
                S * (chat_message + string)
}.

(** The external effects of one call of the handler, in order. *)
Inductive effect :=
| ConnectStore (url namespace : string)
| CreateClient (apiKey : string)
| SendMessage (text : jsval) (opts : option send_opts).

(** How the call ends: a response with a status and a JSON body, or an
    unhandled rejection (no response object is built). *)
Inductive outcome :=
| Responded (status : Z) (body : res_body)
| Rejected (err : string).

Record handler_result (S : Type) := mk_handler_result {
  hr_service : S;
  hr_effects : list effect;
  hr_outcome : outcome
}.
Arguments mk_handler_result {S}.
Arguments hr_service {S}.
Arguments hr_effects {S}.
Arguments hr_outcome {S}.

(** [process.env]. *)
Abbreviation env := (gmap string string).

(** ** The handler *)

Definition redis_url (e : env) : string :=
  or_default (e !! "REDIS_URL") "redis://localhost:6379".

Definition api_key (e : env) : string :=
  or_default (e !! "OPENAI_API_KEY") "".

(** [new KeyvRedis(redisUrl)], [new Keyv({store, namespace})] and
    [new ChatGPTAPI({apiKey, messageStore})]. *)
Definition make_config (e : env) : api_config :=
  mk_api_config (redis_url e) "chatgpt-demo" (api_key e).

Definition build_effects (cfg : api_config) : list effect :=
  [ConnectStore (cfg_redisUrl cfg) (cfg_namespace cfg); CreateClient (cfg_apiKey cfg)].

Definition prompt_body : res_body := mk_res_body "Please type something" None None.

(** The guard of the [if]: [conversationId && conversationId !== '' &&
    parentMessageId && parentMessageId !== '']. *)
Definition continues (b : req_body) : bool :=
  truthy (body_conversationId b) && negb (strict_eq_str (body_conversationId b) "")
  && truthy (body_parentMessageId b) && negb (strict_eq_str (body_parentMessageId b) "").

Definition request_opts (b : req_body) : option send_opts :=
  if continues b
  then Some (mk_send_opts (body_conversationId b) (body_parentMessageId b))
  else None.

(** [{ message: openAiRes.text, conversationId: openAiRes.conversationId,
    messageId: openAiRes.id }]. *)
Definition body_of_message (m : chat_message) : res_body :=
  mk_res_body (cm_text m) (cm_conversationId m) (Some (cm_id m)).

(** The client is built before the message is looked at: a constructor
    that throws rejects the request, whatever its body. *)
Definition handler {S} `{CompletionService S} (e : env) (b : req_body) (s : S)
    : handler_result S :=
  let cfg := make_config e in
  match client_error cfg with
  | Some err => mk_handler_result s (build_effects cfg) (Rejected err)
  | None =>
      if strict_eq_str (body_message b) ""
      then mk_handler_result s (build_effects cfg) (Responded 200 prompt_body)
      else
        let opts := request_opts b in
        let '(s', r) := sendMessage cfg (body_message b) opts s in
        mk_handler_result s' (build_effects cfg ++ [SendMessage (body_message b) opts])
          (match r with
           | inl m => Responded 200 (body_of_message m)
           | inr err => Rejected err
           end)
  end.

(** [require('dotenv-safe').config()], run once when the module is
    loaded: every variable named in [.env.example] ([required]; the file
    is not among the sources) must be set and non-empty in
    [process.env], or it throws [MissingEnvVarsError] and the route
    cannot be loaded, so that every request to it fails. *)
Definition missing_vars (required : list string) (e : env) : list string :=
  List.filter (fun k => match e !! k with Some v => String.eqb v "" | None => true end) required.

Definition route {S} `{CompletionService S} (required : list string) (e : env) (b : req_body) (s : S)
    : handler_result S :=
  match missing_vars required e with
  | [] => handler e b s
  | _ :: _ => mk_handler_result s [] (Rejected "MissingEnvVarsError")
  end.

(** ** The contract of the spec (section 4.2)

    Either the canned prompt, or one call of the service with the message
    and, when both identifiers are present, the continuation. *)
Inductive relay_decision :=
| Prompt
| Forward (text : jsval) (cont : option (jsval * jsval)).

Definition relay_spec (b : req_body) : relay_decision :=
  if strict_eq_str (body_message b) "" then Prompt
  else Forward (body_message b)
         (if truthy (body_conversationId b) && truthy (body_parentMessageId b)
          then Some (body_conversationId b, body_parentMessageId b) else None).

(** The handler a reader of the spec would write from [relay_spec]: the
    store and the client are built first, and an error they throw
    propagates. *)
Definition spec_handler {S} `{CompletionService S} (e : env) (b : req_body) (s : S)
    : handler_result S :=
  let cfg := make_config e in
  match client_error cfg with
  | Some err => mk_handler_result s (build_effects cfg) (Rejected err)
  | None =>
      match relay_spec b with
      | Prompt => mk_handler_result s (build_effects cfg) (Responded 200 prompt_body)
      | Forward t c =>
          let opts := option_map (fun '(c, p) => mk_send_opts c p) c in
          let '(s', r) := sendMessage cfg t opts s in
          mk_handler_result s' (build_effects cfg ++ [SendMessage t opts])
            (match r with
             | inl m => Responded 200 (body_of_message m)
             | inr err => Rejected err
             end)
      end
  end.

(** ** A scripted service

    A reference implementation of the interface used to run the handler
    on concrete inputs: it answers with the next message of its script and
    rejects when the script is exhausted. *)
#[export] Instance scripted_service : CompletionService (list chat_message) := {
  client_error cfg := None;
  sendMessage cfg text opts s :=
    match s with
    | m :: rest => (rest, inl m)
    | [] => ([], inr "no scripted reply")
    end
}.

(** ** Theorems *)

Section HandlerTheorems.
Context {S : Type} `{CompletionService S}.

Lemma handler_equation_client_error e b s err :
  client_error (make_config e) = Some err ->
  handler e b s = mk_handler_result s (build_effects (make_config e)) (Rejected err).
Proof. intros Hc. unfold handler. by rewrite Hc. Qed.

Lemma handler_equation_forward e b s :
  client_error (make_config e) = None -> strict_eq_str (body_message b) "" = false ->
  handler e b s =
    let cfg := make_config e in
    let '(s', r) := sendMessage cfg (body_message b) (request_opts b) s in
    mk_handler_result s' (build_effects cfg ++ [SendMessage (body_message b) (request_opts b)])
      (match r with
       | inl m => Responded 200 (body_of_message m)
       | inr err => Rejected err
       end).
Proof. intros Hc Hm. unfold handler. by rewrite Hc, Hm. Qed.

(** A loaded module runs the handler; a module whose start-up check
    failed rejects every request. *)
Lemma route_loaded (required : list string) e b s :
  missing_vars required e = [] -> route required e b s = handler e b s.
Proof. unfold route. by intros ->. Qed.

Lemma route_missing (required : list string) e b s :
  missing_vars required e <> [] ->
  route required e b s = mk_handler_result s [] (Rejected "MissingEnvVarsError").
Proof. unfold route. by destruct (missing_vars required e). Qed.
End HandlerTheorems.

Section HandlerClaims.
Context {S : Type} `{CompletionService S}.

(** C9. A request whose message is the empty string gets the canned
    prompt with status 200, the service is not called and its state is
    unchanged; the store and the client are still built (a Redis
    connection is opened even on this path). *)
Theorem handler_empty_message_prompt (e : env) (b : req_body) (s : S) :
  client_error (make_config e) = None -> body_message b = JString "" ->
  hr_outcome (handler e b s) = Responded 200 prompt_body /\
  hr_service (handler e b s) = s /\
  hr_effects (handler e b s) = build_effects (make_config e).
Proof.
  intros Hc Hm. apply strict_eq_str_spec in Hm. unfold handler. by rewrite Hc, Hm.
Qed.
(** C8. A non-empty message with two non-empty identifiers is sent with
    the continuation options holding exactly those identifiers. *)
Theorem handler_continues_session (e : env) (m : jsval) (c p : string) (s : S) :
  client_error (make_config e) = None -> strict_eq_str m "" = false -> c <> "" -> p <> "" ->
  hr_effects (handler e (mk_req_body m (JString c) (JString p)) s) =
    build_effects (make_config e) ++
    [SendMessage m (Some (mk_send_opts (JString c) (JString p)))].
Proof.
  intros He Hm Hc Hp. rewrite handler_equation_forward by done. simpl.
  unfold request_opts, continues. cbn [body_conversationId body_parentMessageId truthy strict_eq_str].
  apply String.eqb_neq in Hc, Hp. rewrite ?Hc, ?Hp. simpl.
  by destruct (sendMessage _ _ _ s).
Qed.
(** C2. Refinement: the handler is the contract of the spec, where the
    continuation is used exactly when both identifiers are truthy; the
    extra [!== ''] tests of the code change nothing. *)
Theorem handler_refines_spec (e : env) (b : req_body) (s : S) :
  handler e b s = spec_handler e b s.
Proof.
  unfold handler, spec_handler, relay_spec, request_opts, continues.
  destruct (client_error (make_config e)); [done|].
  destruct (strict_eq_str (body_message b) ""); [done|].
  rewrite truthy_guard, truthy_guard_r.
  by destruct (truthy (body_conversationId b) && truthy (body_parentMessageId b)).
Qed.
(** The [!== ''] tests of the guard are implied by the truthiness tests
    before them: the guard is the conjunction of two truthiness tests. *)
Lemma continues_truthy (b : req_body) :
  continues b = truthy (body_conversationId b) && truthy (body_parentMessageId b).
Proof. unfold continues. by rewrite truthy_guard, truthy_guard_r. Qed.

Lemma request_opts_of_option m oc op :
  request_opts (mk_req_body m (of_option oc) (of_option op)) =
    if truthy (of_option oc) && truthy (of_option op)
    then Some (mk_send_opts (of_option oc) (of_option op)) else None.
Proof. unfold request_opts. by rewrite continues_truthy. Qed.
(** Two non-empty string identifiers continue the session. *)
Lemma request_opts_strings (m : jsval) (c p : string) :
  c <> "" -> p <> "" ->
  request_opts (mk_req_body m (JString c) (JString p)) = Some (mk_send_opts (JString c) (JString p)).
Proof.
  intros Hc Hp. unfold request_opts, continues. simpl.
  destruct (String.eqb_spec c ""), (String.eqb_spec p ""); [congruence..|reflexivity].
Qed.
(** C14. When either identifier is missing or empty (a partial set), the
    message is sent without continuation options: a new session. *)
Theorem handler_partial_ids_new_session (e : env) (m : jsval)
    (oc op : option string) (s : S) :
  client_error (make_config e) = None -> strict_eq_str m "" = false ->
  (oc = None \/ oc = Some "" \/ op = None \/ op = Some "") ->
  hr_effects (handler e (mk_req_body m (of_option oc) (of_option op)) s) =
    build_effects (make_config e) ++ [SendMessage m None].
Proof.
  intros He Hm Hpartial. rewrite handler_equation_forward by done. simpl.
  rewrite request_opts_of_option.
  replace (truthy (of_option oc) && truthy (of_option op)) with false.
  - by destruct (sendMessage _ _ _ s).
  - destruct Hpartial as [-> | [-> | [-> | ->]]]; simpl;
      by rewrite ?andb_false_r.
Qed.
(** C24. When the service rejects, the handler builds no response: the
    rejection propagates unhandled (the spec's missing error envelope). *)
Theorem handler_service_error_unhandled (e : env) (b : req_body) (s s' : S) (err : string) :
  client_error (make_config e) = None -> strict_eq_str (body_message b) "" = false ->
  sendMessage (make_config e) (body_message b) (request_opts b) s = (s', inr err) ->
  hr_outcome (handler e b s) = Rejected err.
Proof. intros He Hm Hs. rewrite handler_equation_forward by done. simpl. by rewrite Hs. Qed.
End HandlerClaims.

(** ** Witnesses, with the scripted service *)

Definition reply_hi : chat_message := mk_chat_message "hi" (Some "c1") "m1".

Lemma handler_empty_message_prompt_witness :
  hr_outcome (handler ∅ (mk_req_body (JString "") (JString "c1") JUndefined) [reply_hi])
    = Responded 200 prompt_body /\
  hr_service (handler ∅ (mk_req_body (JString "") (JString "c1") JUndefined) [reply_hi])
    = [reply_hi] /\
  hr_effects (handler ∅ (mk_req_body (JString "") (JString "c1") JUndefined) [reply_hi])
    = build_effects (make_config ∅).
Proof. apply handler_empty_message_prompt; reflexivity. Defined.

Lemma handler_continues_session_witness :
  hr_effects (handler ∅ (mk_req_body (JString "again") (JString "c1") (JString "m1")) [reply_hi]) =
    build_effects (make_config ∅) ++
    [SendMessage (JString "again") (Some (mk_send_opts (JString "c1") (JString "m1")))].
Proof. apply handler_continues_session; [reflexivity|reflexivity|discriminate..]. Defined.

Lemma handler_partial_ids_new_session_witness :
  hr_effects (handler ∅ (mk_req_body (JString "hello") (of_option (Some "c1")) (of_option (Some ""))) [reply_hi]) =
    build_effects (make_config ∅) ++ [SendMessage (JString "hello") None].
Proof. apply handler_partial_ids_new_session; [reflexivity|reflexivity|auto]. Defined.

Lemma handler_service_error_unhandled_witness :
  hr_outcome (handler ∅ (mk_req_body (JString "hello") JUndefined JUndefined) []) =
    Rejected "no scripted reply".
Proof. apply (handler_service_error_unhandled _ _ _ []); reflexivity. Defined.
