(* ===== verification/Form.v ===== *)
(** * The Client Conversation Controller: [src/components/Form.tsx]

    The component keeps four pieces of React state ([response],
    [isLoading], [currConversationId], [currMessageId]), reads the text
    area through the ref [messageInput], and has three handlers and an SWR
    fetcher.  [handleSubmit] appends the user's text at once, clears the
    text area and awaits [fetch]; the code after the [await] runs later,
    when the request settles, with the state values its closure captured.

    A [world] is the component, the text area, [localStorage], the
    suspended [handleSubmit] calls ([pending], one per request in flight)
    and two logs: the requests sent and the notifications shown.  [step]
    gives the effect of each browser event; [reachable] (from [Prelude])
    gives the runs.  React batches the state updates of one handler and
    applies them in order, which the sequential record updates below
    reproduce.  A key press models only its [onKeyDown] handler: the
    browser's default action when the handler does not prevent it (a
    character typed, or a newline for Enter while [isLoading] is set) is
    the separate event [TypeInput] with the new content of the text area.
    A page is mounted over [localStorage] ([mount]): the initial state,
    then the SWR fetcher, which [useSWR] calls in its mount effect before
    the page handles any event; [Revalidate] is a later revalidation. *)

From S2P Require Import Prelude JsValue Json Storage.

(** ** Data *)

Record form_state := mk_form_state {
  response : list string;
  isLoading : bool;
  currConversationId : option string;
  currMessageId : option string
}.

(** [useState([])], [useState(false)], [useState('')], [useState('')]. *)
Definition initial_form_state : form_state := mk_form_state [] false (Some "") (Some "").

Definition setResponse (v : list string) (f : form_state) : form_state :=
  mk_form_state v (isLoading f) (currConversationId f) (currMessageId f).
Definition setIsLoading (v : bool) (f : form_state) : form_state :=
  mk_form_state (response f) v (currConversationId f) (currMessageId f).
Definition setCurrConversationId (v : option string) (f : form_state) : form_state :=
  mk_form_state (response f) (isLoading f) v (currMessageId f).
Definition setCurrMessageId (v : option string) (f : form_state) : form_state :=
  mk_form_state (response f) (isLoading f) (currConversationId f) v.

(** The body of the POST: [JSON.stringify] leaves out a field whose value
    is [undefined], which [None] records. *)
Record request := mk_request {
  rq_message : string;
  rq_conversationId : option string;
  rq_parentMessageId : option string
}.

(** [const { message, messageId, conversationId } = await (...).json()];
    a missing field destructures to [undefined]. *)
Record reply := mk_reply {
  rp_message : string;
  rp_messageId : option string;
  rp_conversationId : option string
}.

(** A suspended [handleSubmit]: the values its closure captured when the
    event fired ([userMessage], [response], [currConversationId],
    [currMessageId]), and the identity of its request. *)
Record pending := mk_pending {
  pd_id : nat;
  pd_userMessage : string;
  pd_response : list string;
  pd_conversationId : option string;
  pd_messageId : option string
}.

Definition request_of (p : pending) : request :=
  mk_request (pd_userMessage p) (pd_conversationId p) (pd_messageId p).

Inductive toast := ToastWarn | ToastError.

(** The texts of the two notifications: [toast.warn] for an empty message,
    [toast.error] when the request fails. *)
Definition warn_message : string :=
  "The message cannot be empty. Please enter a message to continue.".
Definition error_message : string :=
  "An error occurred while fetching the response. Please try again later.".

Record world := mk_world {
  w_form : form_state;
  w_input : string;
  w_storage : storage;
  w_pending : list pending;
  w_next : nat;
  w_sent : list request;
  w_toasts : list toast
}.

Definition with_form (g : form_state -> form_state) (w : world) : world :=
  mk_world (g (w_form w)) (w_input w) (w_storage w) (w_pending w) (w_next w)
    (w_sent w) (w_toasts w).
Definition with_storage (g : storage -> storage) (w : world) : world :=
  mk_world (w_form w) (w_input w) (g (w_storage w)) (w_pending w) (w_next w)
    (w_sent w) (w_toasts w).
Definition with_input (s : string) (w : world) : world :=
  mk_world (w_form w) s (w_storage w) (w_pending w) (w_next w) (w_sent w) (w_toasts w).
Definition with_pending (ps : list pending) (w : world) : world :=
  mk_world (w_form w) (w_input w) (w_storage w) ps (w_next w) (w_sent w) (w_toasts w).
Definition show_toast (t : toast) (w : world) : world :=
  mk_world (w_form w) (w_input w) (w_storage w) (w_pending w) (w_next w)
    (w_sent w) (w_toasts w ++ [t]).

Definition key_response : string := "mock-gpt-response".
Definition key_conversationId : string := "mock-gpt-conversationId".
Definition key_messageId : string := "mock-gpt-messageId".

(** ** Handlers *)

(** [handleSubmit], up to the [await]: reject an empty text with a warning;
    otherwise append it to [response], clear the text area and send the
    request with the identifiers of the current render. *)
Definition handleSubmit (w : world) : world :=
  let u := w_input w in
  if String.eqb u "" then show_toast ToastWarn w
  else
    let f := w_form w in
    let p := mk_pending (w_next w) u (response f) (currConversationId f) (currMessageId f) in
    mk_world (setResponse (response f ++ [u]) f) "" (w_storage w)
      (w_pending w ++ [p]) (S (w_next w)) (w_sent w ++ [request_of p]) (w_toasts w).

(** [handleEnter]: on the [Enter] key, when not loading, set [isLoading]
    and submit.  The modifier keys are not read. *)
Definition handleEnter (key : string) (w : world) : world :=
  if String.eqb key "Enter" && negb (isLoading (w_form w))
  then handleSubmit (with_form (setIsLoading true) w)
  else w.

(** The submit button: [disabled={isLoading}], [onSubmit={handleSubmit}]. *)
Definition clickSubmit (w : world) : world :=
  if isLoading (w_form w) then w else handleSubmit w.

(** [handleSubmit] after the [await], on the captured values of [p]:
    adopt and store an identifier that differs from the captured one,
    write [[...response, userMessage, message]] to the state and to
    [localStorage], or show an error; always clear [isLoading]. *)
Definition settle_with (p : pending) (o : option reply) (w : world) : world :=
  let w' :=
    match o with
    | None => show_toast ToastError w
    | Some r =>
        let w1 :=
          if strict_neq_opt (pd_conversationId p) (rp_conversationId r)
          then with_storage (setItem key_conversationId (rp_conversationId r))
                 (with_form (setCurrConversationId (rp_conversationId r)) w)
          else w in
        let w2 :=
          if strict_neq_opt (pd_messageId p) (rp_messageId r)
          then with_storage (setItem key_messageId (rp_messageId r))
                 (with_form (setCurrMessageId (rp_messageId r)) w1)
          else w1 in
        let total := pd_response p ++ [pd_userMessage p; rp_message r] in
        with_storage (setItem key_response (Some (JSON_stringify total)))
          (with_form (setResponse total) w2)
    end in
  with_form (setIsLoading false) w'.

Definition find_pending (id : nat) (ps : list pending) : option pending :=
  List.find (fun p => Nat.eqb (pd_id p) id) ps.

Definition remove_pending (id : nat) (ps : list pending) : list pending :=
  List.filter (fun p => negb (Nat.eqb (pd_id p) id)) ps.

(** The request [id] settles with a parsed reply, or with [None] when
    [fetch] or [.json()] throws. *)
Definition settle (id : nat) (o : option reply) (w : world) : world :=
  match find_pending id (w_pending w) with
  | Some p => settle_with p o (with_pending (remove_pending id (w_pending w)) w)
  | None => w
  end.

(** [handleReset]. *)
Definition handleReset (w : world) : world :=
  with_form (fun f => setResponse [] (setCurrMessageId (Some "")
                        (setCurrConversationId (Some "") f)))
    (with_storage (fun st => removeItem key_messageId (removeItem key_conversationId
                               (removeItem key_response st))) w).

(** The SWR fetcher.  [if (stored)] is false for [null] and for [''];
    when [JSON.parse] throws, the fetcher stops there (SWR keeps the
    error) and the identifiers are not restored. *)
Definition restore_id (stored : option string) (set : option string -> form_state -> form_state)
    (f : form_state) : form_state :=
  match stored with
  | Some s => if String.eqb s "" then f else set (Some s) f
  | None => f
  end.

Definition swr_fetcher (w : world) : world :=
  let st := w_storage w in
  let restored :=
    match getItem key_response st with
    | Some s =>
        if String.eqb s "" then Some (w_form w)
        else option_map (fun l => setResponse l (w_form w)) (JSON_parse s)
    | None => Some (w_form w)
    end in
  match restored with
  | Some f =>
      with_form (fun _ => restore_id (getItem key_messageId st) setCurrMessageId
                            (restore_id (getItem key_conversationId st) setCurrConversationId f)) w
  | None => w
  end.

(** Mounting [Form] over a storage: its initial state, then the effects
    of the mount.  [useSWR] revalidates in its mount layout effect and,
    with no cached data, calls the fetcher at once; the fetcher has no
    [await], so its [setResponse] and identifier setters run before the
    page can handle any event. *)
Definition mount (st : storage) (nx : nat) (sent : list request) (ts : list toast) : world :=
  swr_fetcher (mk_world initial_form_state "" st [] nx sent ts).

(** Reloading the page: a fresh component and text area, mounted over the
    same [localStorage]; the requests in flight are abandoned; the logs
    persist. *)
Definition reload (w : world) : world := mount (w_storage w) (w_next w) (w_sent w) (w_toasts w).

(** ** Events *)

Inductive event :=
| KeyDown (key : string) (shiftKey : bool)
| ClickSubmit
| Settle (id : nat) (o : option reply)
| ClickReset
| Revalidate
| Reload
| TypeInput (s : string).

Definition step (w : world) (e : event) : world :=
  match e with
  | KeyDown key _ => handleEnter key w
  | ClickSubmit => clickSubmit w
  | Settle id o => settle id o w
  | ClickReset => handleReset w
  | Revalidate => swr_fetcher w
  | Reload => reload w
  | TypeInput s => with_input s w
  end.

(** A page loaded over the storage [st]. *)
Definition initial_world (st : storage) : world := mount st 0 [] [].

(** The role a turn is shown with: [index % 2 === 0] is drawn as the
    user's bubble, any other index as the reply's. *)
Inductive role := UserTurn | ReplyTurn.

Definition turn_role (index : nat) : role :=
  if Nat.even index then UserTurn else ReplyTurn.

Definition rendered (f : form_state) : list (role * string) :=
  imap (fun i item => (turn_role i, item)) (response f).

(** ** Lemmas *)

Lemma JSON_stringify_not_empty (l : list string) : String.eqb (JSON_stringify l) "" = false.
Proof. reflexivity. Qed.

(** Lookups under a write or a removal of another of the three keys. *)
#[export] Hint Rewrite getItem_setItem_ne getItem_removeItem_ne
  using (unfold key_response, key_conversationId, key_messageId; discriminate) : chat_rw.

Lemma settle_found (id : nat) (o : option reply) (w : world) (p : pending) :
  find_pending id (w_pending w) = Some p ->
  settle id o w = settle_with p o (with_pending (remove_pending id (w_pending w)) w).
Proof. intros H. unfold settle. by rewrite H. Qed.

(** ** Submitting *)

(** C5. Submit with the Enter key (with or without Shift) when nothing is
    loading and the text is not empty: the text is appended to the
    transcript before any answer, the text area is cleared, [isLoading]
    is set, and one request carrying the text and the current
    identifiers is sent. *)
Theorem enter_submits (w : world) (shift : bool) :
  isLoading (w_form w) = false -> w_input w <> "" ->
  let w' := step w (KeyDown "Enter" shift) in
  response (w_form w') = response (w_form w) ++ [w_input w] /\
  isLoading (w_form w') = true /\
  w_input w' = "" /\
  w_sent w' = w_sent w ++
    [mk_request (w_input w) (currConversationId (w_form w)) (currMessageId (w_form w))] /\
  w_pending w' = w_pending w ++
    [mk_pending (w_next w) (w_input w) (response (w_form w))
       (currConversationId (w_form w)) (currMessageId (w_form w))].
Proof.
  intros Hl Hu. simpl. unfold handleEnter. rewrite Hl. simpl.
  unfold handleSubmit. simpl. case_streq. done.
Qed.

(** C13. An empty text is rejected with a warning, by either entry path:
    no request is sent and the transcript is unchanged. *)
Theorem submit_empty_rejected (w : world) (e : event) :
  w_input w = "" -> e = KeyDown "Enter" false \/ e = ClickSubmit ->
  let w' := step w e in
  w_sent w' = w_sent w /\ w_pending w' = w_pending w /\
  response (w_form w') = response (w_form w) /\
  w_toasts w' = w_toasts w ++ (if isLoading (w_form w) then [] else [ToastWarn]).
Proof.
  intros Hu He. destruct w as [[r l c m] u st ps n sent ts]; simpl in Hu; subst u.
  destruct He as [-> | ->], l; simpl; by rewrite ?app_nil_r.
Qed.

(** ** Settling *)

(** C6. When a request is answered, the transcript becomes the one its
    closure captured followed by the user's text and the reply, the same
    text is written to [localStorage], [isLoading] is cleared, and an
    identifier that differs from the captured one is adopted and stored. *)
Theorem settle_success (w : world) (id : nat) (p : pending) (r : reply) :
  find_pending id (w_pending w) = Some p ->
  let w' := step w (Settle id (Some r)) in
  let total := pd_response p ++ [pd_userMessage p; rp_message r] in
  response (w_form w') = total /\
  isLoading (w_form w') = false /\
  getItem key_response (w_storage w') = Some (JSON_stringify total) /\
  (pd_conversationId p <> rp_conversationId r ->
     currConversationId (w_form w') = rp_conversationId r /\
     getItem key_conversationId (w_storage w') = Some (to_js_string (rp_conversationId r))).
Proof.
  intros Hf. simpl. rewrite (settle_found _ _ _ _ Hf). unfold settle_with.
  destruct (strict_neq_opt (pd_conversationId p) (rp_conversationId r)) eqn:E1,
           (strict_neq_opt (pd_messageId p) (rp_messageId r));
    cbn [w_form w_storage with_form with_storage]; rewrite getItem_setItem_eq;
    do 3 (split; [done|]); intros Hne;
    try (apply strict_neq_opt_spec in E1; contradiction);
    (split; [done|by autorewrite with chat_rw]).
Qed.

(** The identifier an answer leaves in the state, and what is stored for
    it: adopted when it differs from the captured one. *)
Lemma settle_with_ids (p : pending) (r : reply) (w : world) :
  let w' := settle_with p (Some r) w in
  currConversationId (w_form w') =
    (if strict_neq_opt (pd_conversationId p) (rp_conversationId r)
     then rp_conversationId r else currConversationId (w_form w)) /\
  currMessageId (w_form w') =
    (if strict_neq_opt (pd_messageId p) (rp_messageId r)
     then rp_messageId r else currMessageId (w_form w)).
Proof.
  simpl. by destruct (strict_neq_opt (pd_conversationId p) _), (strict_neq_opt (pd_messageId p) _).
Qed.

(** When the identifiers have not changed since the call was suspended,
    the answer's identifiers are the ones left in the state, whether the
    comparison adopts them or finds them equal. *)
Lemma settle_with_adopts (p : pending) (r : reply) (w : world) :
  pd_conversationId p = currConversationId (w_form w) ->
  pd_messageId p = currMessageId (w_form w) ->
  currConversationId (w_form (settle_with p (Some r) w)) = rp_conversationId r /\
  currMessageId (w_form (settle_with p (Some r) w)) = rp_messageId r.
Proof.
  intros Hc Hm. destruct (settle_with_ids p r w) as [-> ->].
  split.
  - destruct (strict_neq_opt (pd_conversationId p) (rp_conversationId r)) eqn:E; [done|].
    apply strict_neq_opt_spec in E. congruence.
  - destruct (strict_neq_opt (pd_messageId p) (rp_messageId r)) eqn:E; [done|].
    apply strict_neq_opt_spec in E. congruence.
Qed.

Lemma settle_with_conversationId_stored (p : pending) (r : reply) (w : world) :
  strict_neq_opt (pd_conversationId p) (rp_conversationId r) = true ->
  getItem key_conversationId (w_storage (settle_with p (Some r) w)) =
    Some (to_js_string (rp_conversationId r)).
Proof.
  intros H. unfold settle_with. rewrite H.
  destruct (strict_neq_opt (pd_messageId p) _); simpl; by autorewrite with chat_rw.
Qed.

Lemma settle_with_response (p : pending) (r : reply) (w : world) :
  let total := pd_response p ++ [pd_userMessage p; rp_message r] in
  response (w_form (settle_with p (Some r) w)) = total /\
  isLoading (w_form (settle_with p (Some r) w)) = false /\
  getItem key_response (w_storage (settle_with p (Some r) w)) = Some (JSON_stringify total).
Proof.
  simpl. destruct (strict_neq_opt (pd_conversationId p) _), (strict_neq_opt (pd_messageId p) _);
    simpl; by rewrite getItem_setItem_eq.
Qed.

(** C20. When a request fails, an error is shown and [isLoading] is
    cleared; the user's text appended at submission stays in the
    transcript (no rollback) and nothing is stored. *)
Theorem settle_failure_keeps_turn (w : world) (id : nat) (p : pending) :
  find_pending id (w_pending w) = Some p ->
  let w' := step w (Settle id None) in
  response (w_form w') = response (w_form w) /\
  isLoading (w_form w') = false /\
  w_storage w' = w_storage w /\
  w_toasts w' = w_toasts w ++ [ToastError] /\
  w_pending w' = remove_pending id (w_pending w).
Proof. intros Hf. simpl. by rewrite (settle_found _ _ _ _ Hf). Qed.

(** ** Events that leave the lock and the requests alone *)

Lemma restore_id_isLoading (o : option string) (set : option string -> form_state -> form_state) f :
  (forall v g, isLoading (set v g) = isLoading g) ->
  isLoading (restore_id o set f) = isLoading f.
Proof. intros Hs. destruct o as [s|]; simpl; [case_streq|]; auto. Qed.

Lemma restore_id_response (o : option string) (set : option string -> form_state -> form_state) f :
  (forall v g, response (set v g) = response g) ->
  response (restore_id o set f) = response f.
Proof. intros Hs. destruct o as [s|]; simpl; [case_streq|]; auto. Qed.

(** The SWR fetcher changes the component's transcript and identifiers
    only. *)
Lemma swr_fetcher_passive (w : world) :
  isLoading (w_form (swr_fetcher w)) = isLoading (w_form w) /\
  w_pending (swr_fetcher w) = w_pending w /\ w_sent (swr_fetcher w) = w_sent w.
Proof.
  unfold swr_fetcher.
  destruct (match getItem key_response (w_storage w) with
            | Some s => _ | None => _ end) as [f|] eqn:Ef; [|done].
  simpl. rewrite !restore_id_isLoading by done. split; [|done].
  destruct (getItem key_response (w_storage w)) as [s|]; [|by simplify_eq].
  destruct (String.eqb s ""); [by simplify_eq|].
  destruct (JSON_parse s); simpl in Ef; by simplify_eq.
Qed.

Lemma swr_fetcher_storage (w : world) : w_storage (swr_fetcher w) = w_storage w.
Proof.
  unfold swr_fetcher.
  by destruct (match getItem key_response (w_storage w) with Some s => _ | None => _ end).
Qed.

(** A reload keeps [localStorage] and mounts a page with nothing in
    flight and no lock. *)
Lemma reload_storage (w : world) : w_storage (reload w) = w_storage w.
Proof. unfold reload, mount. by rewrite ?swr_fetcher_storage. Qed.

Lemma initial_world_storage (st : storage) : w_storage (initial_world st) = st.
Proof. unfold initial_world, mount. by rewrite ?swr_fetcher_storage. Qed.

(** On an empty storage the restore does nothing. *)
Lemma initial_world_empty : initial_world ∅ = mk_world initial_form_state "" ∅ [] 0 [] [].
Proof. reflexivity. Qed.

Lemma mount_idle (st : storage) (nx : nat) (sent : list request) (ts : list toast) :
  isLoading (w_form (mount st nx sent ts)) = false /\ w_pending (mount st nx sent ts) = [] /\
  w_sent (mount st nx sent ts) = sent.
Proof.
  unfold mount. destruct (swr_fetcher_passive (mk_world initial_form_state "" st [] nx sent ts)) as (H1 & H2 & H3).
  by rewrite ?H1, ?H2, ?H3.
Qed.

Lemma reload_idle (w : world) :
  isLoading (w_form (reload w)) = false /\ w_pending (reload w) = [] /\ w_sent (reload w) = w_sent w.
Proof. apply mount_idle. Qed.

Lemma swr_fetcher_restores (w : world) (l : list string) :
  getItem key_response (w_storage w) = Some (JSON_stringify l) ->
  response (w_form (swr_fetcher w)) = l.
Proof.
  intros Hs. unfold swr_fetcher. rewrite Hs, JSON_stringify_not_empty, parse_stringify.
  simpl. by rewrite !restore_id_response.
Qed.

(** The restore with all three keys stored and non-empty. *)
Lemma swr_fetcher_full (w : world) (l : list string) (c m : string) :
  getItem key_response (w_storage w) = Some (JSON_stringify l) ->
  getItem key_conversationId (w_storage w) = Some c -> c <> "" ->
  getItem key_messageId (w_storage w) = Some m -> m <> "" ->
  swr_fetcher w = with_form (fun f => mk_form_state l (isLoading f) (Some c) (Some m)) w.
Proof.
  intros Hr Hc Hc' Hm Hm'. unfold swr_fetcher.
  rewrite Hr, JSON_stringify_not_empty, parse_stringify, Hc, Hm. simpl.
  by case_streq.
Qed.

(** C11. Restore on load comes before the first event: [useSWR] calls
    its fetcher in the mount effect, before the page can handle any
    event, so on a page loaded over a stored conversation (its transcript
    and two non-empty identifiers) the first text sent with Enter is
    appended to the stored transcript and sent with the stored
    identifiers: the session continues across the reload. *)
Theorem enter_after_load_continues (st : storage) (l : list string) (c m u : string) :
  getItem key_response st = Some (JSON_stringify l) ->
  getItem key_conversationId st = Some c -> c <> "" ->
  getItem key_messageId st = Some m -> m <> "" -> u <> "" ->
  let w := run step (initial_world st) [TypeInput u; KeyDown "Enter" false] in
  response (w_form w) = l ++ [u] /\ isLoading (w_form w) = true /\
  w_sent w = [mk_request u (Some c) (Some m)].
Proof.
  intros Hr Hc Hc' Hm Hm' Hu. cbv zeta. unfold initial_world, mount.
  rewrite (swr_fetcher_full _ l c m) by done.
  cbn [run fold_left step]. unfold handleEnter, handleSubmit. simpl. by case_streq.
Qed.

Lemma enter_after_load_continues_witness :
  let st := <[key_messageId := "m1"]> (<[key_conversationId := "c1"]>
              (<[key_response := JSON_stringify ["hello"; "hi"]]> ∅)) in
  let w := run step (initial_world st) [TypeInput "again"; KeyDown "Enter" false] in
  response (w_form w) = ["hello"; "hi"] ++ ["again"] /\ isLoading (w_form w) = true /\
  w_sent w = [mk_request "again" (Some "c1") (Some "m1")].
Proof. apply enter_after_load_continues; (reflexivity || discriminate). Defined.

(** ** The page a storage restores *)

(** The form a page mounted over [st] shows. *)
Definition restored_form (st : storage) : form_state := w_form (initial_world st).

(** The text under the transcript key read as the fetcher reads it: an
    empty transcript when nothing (or [''] is) stored, else its parse. *)
Definition stored_response (o : option string) : option (list string) :=
  match o with
  | Some s => if String.eqb s "" then Some [] else JSON_parse s
  | None => Some []
  end.

(** An identifier read as the fetcher restores it over [useState('')]. *)
Definition stored_id (o : option string) : option string :=
  match o with
  | Some s => if String.eqb s "" then Some "" else Some s
  | None => Some ""
  end.

Lemma stored_response_stringify (l : list string) : stored_response (Some (JSON_stringify l)) = Some l.
Proof. cbn [stored_response]. by rewrite JSON_stringify_not_empty, parse_stringify. Qed.

Lemma stored_id_some (c : string) : c <> "" -> stored_id (Some c) = Some c.
Proof. intros Hc. simpl. by case_streq. Qed.

(** An answered request with non-empty identifiers leaves them in
    [localStorage], written now or already there, and the new transcript
    as its JSON text. *)
Lemma settle_with_stores (p : pending) (r : reply) (w : world) (c m : string) :
  rp_conversationId r = Some c -> c <> "" -> rp_messageId r = Some m -> m <> "" ->
  stored_id (getItem key_conversationId (w_storage w)) = pd_conversationId p ->
  stored_id (getItem key_messageId (w_storage w)) = pd_messageId p ->
  let st := w_storage (settle_with p (Some r) w) in
  stored_response (getItem key_response st) = Some (pd_response p ++ [pd_userMessage p; rp_message r]) /\
  stored_id (getItem key_conversationId st) = Some c /\ stored_id (getItem key_messageId st) = Some m.
Proof.
  intros Hc Hc' Hm Hm' Sc Sm. cbv zeta.
  split; [rewrite (proj2 (proj2 (settle_with_response p r w))); apply stored_response_stringify|].
  unfold settle_with. rewrite Hc, Hm.
  destruct (strict_neq_opt (pd_conversationId p) (Some c)) eqn:E1,
           (strict_neq_opt (pd_messageId p) (Some m)) eqn:E2;
    cbn [w_storage with_storage with_form];
    rewrite ?(getItem_setItem_ne key_response) by done;
    rewrite ?(getItem_setItem_ne key_messageId key_conversationId),
            ?(getItem_setItem_ne key_conversationId key_messageId) by done;
    rewrite ?getItem_setItem_eq; cbn [to_js_string];
    try apply strict_neq_opt_spec in E1; try apply strict_neq_opt_spec in E2;
    rewrite ?Sc, ?Sm, ?E1, ?E2, ?stored_id_some by done; done.
Qed.


Lemma mount_form (st : storage) (nx : nat) (sent : list request) (ts : list toast) :
  w_form (mount st nx sent ts) = restored_form st.
Proof.
  unfold restored_form, initial_world, mount, swr_fetcher. cbn [w_storage w_form].
  by destruct (match getItem key_response st with Some s => _ | None => _ end).
Qed.

Lemma reload_form (w : world) : w_form (reload w) = restored_form (w_storage w).
Proof. apply mount_form. Qed.

(** When the stored transcript parses, the page shows it with the stored
    identifiers. *)
Lemma restored_form_stored (st : storage) (l : list string) :
  stored_response (getItem key_response st) = Some l ->
  restored_form st = mk_form_state l false (stored_id (getItem key_conversationId st))
                                           (stored_id (getItem key_messageId st)).
Proof.
  unfold restored_form, initial_world, mount, swr_fetcher, stored_response, stored_id.
  cbn [w_storage w_form]. intros Hl.
  destruct (getItem key_response st) as [s|];
    [destruct (String.eqb s ""); [|rewrite Hl]|]; simplify_eq; cbn [option_map with_form w_form];
    unfold restore_id; repeat case_match; reflexivity.
Qed.

(** A reload over a storage holding the three keys, and a revalidation
    after it, show the stored conversation. *)
Lemma revalidate_reload_full (w : world) (l : list string) (c m : string) :
  getItem key_response (w_storage w) = Some (JSON_stringify l) ->
  getItem key_conversationId (w_storage w) = Some c -> c <> "" ->
  getItem key_messageId (w_storage w) = Some m -> m <> "" ->
  swr_fetcher (reload w) =
    mk_world (mk_form_state l false (Some c) (Some m)) "" (w_storage w) [] (w_next w) (w_sent w) (w_toasts w).
Proof.
  intros Hr Hc Hc' Hm Hm'. unfold reload, mount.
  rewrite (swr_fetcher_full (mk_world _ _ (w_storage w) _ _ _ _) l c m) by done.
  rewrite (swr_fetcher_full _ l c m); [done|exact Hr|exact Hc|exact Hc'|exact Hm|exact Hm'].
Qed.

Inductive passive_event : event -> Prop :=
| passive_reset : passive_event ClickReset
| passive_revalidate : passive_event Revalidate
| passive_type s : passive_event (TypeInput s).

Lemma passive_step (w : world) (e : event) :
  passive_event e ->
  isLoading (w_form (step w e)) = isLoading (w_form w) /\
  w_pending (step w e) = w_pending w /\ w_sent (step w e) = w_sent w.
Proof. intros []; simpl; [done | apply swr_fetcher_passive | done]. Qed.

Lemma settle_with_pending (p : pending) (o : option reply) (w : world) :
  w_pending (settle_with p o w) = w_pending w /\ w_sent (settle_with p o w) = w_sent w /\
  isLoading (w_form (settle_with p o w)) = false.
Proof.
  destruct o as [r|]; [|done]. unfold settle_with.
  by destruct (strict_neq_opt (pd_conversationId p) _), (strict_neq_opt (pd_messageId p) _).
Qed.

#[export] Hint Constructors passive_event : chat.

(** ** The lock left set by an empty Enter *)

Lemma locked_step (w : world) (e : event) :
  isLoading (w_form w) = true -> w_pending w = [] -> e <> Reload ->
  isLoading (w_form (step w e)) = true /\ w_pending (step w e) = [] /\
  w_sent (step w e) = w_sent w.
Proof.
  intros Hl Hp He.
  destruct e as [key sh| |id o| | | |s];
    try (match goal with
         | |- context [step w ?e] =>
             destruct (passive_step w e ltac:(auto with chat)) as (-> & -> & ->); done
         end).
  - simpl. unfold handleEnter. by rewrite Hl, andb_false_r.
  - simpl. unfold clickSubmit. by rewrite Hl.
  - simpl. unfold settle. by rewrite Hp.
  - by contradiction He.
Qed.

(** C12. Pressing Enter on an empty text area, when nothing is loading,
    sets [isLoading] and returns before the [try]/[finally] that clears
    it: from then on, whatever the user does short of reloading the page
    (typing, Enter, the submit button, Reset, revalidation), [isLoading]
    stays set, no request is in flight and none is ever sent. *)
Theorem enter_empty_locks_forever (w : world) (shift : bool) :
  isLoading (w_form w) = false -> w_input w = "" -> w_pending w = [] ->
  forall w', reachable step (fun e => e <> Reload) (step w (KeyDown "Enter" shift)) w' ->
  isLoading (w_form w') = true /\ w_pending w' = [] /\ w_sent w' = w_sent w.
Proof.
  intros Hl Hu Hp w' Hr.
  revert w' Hr.
  apply (reachable_ind' step (fun e => e <> Reload)
           (fun v => isLoading (w_form v) = true /\ w_pending v = [] /\ w_sent v = w_sent w)).
  - simpl. unfold handleEnter. rewrite Hl. simpl. unfold handleSubmit. simpl. by rewrite Hu.
  - intros v e (Hvl & Hvp & Hvs) He. destruct (locked_step v e) as (? & ? & ->); auto.
Qed.

(** ** Reset, restore and persistence *)

Lemma handleReset_storage (w : world) :
  getItem key_response (w_storage (handleReset w)) = None /\
  getItem key_conversationId (w_storage (handleReset w)) = None /\
  getItem key_messageId (w_storage (handleReset w)) = None.
Proof.
  simpl. by autorewrite with chat_rw.
Qed.

(** With nothing stored, the fetcher changes nothing. *)
Lemma swr_fetcher_nothing_stored (w : world) :
  getItem key_response (w_storage w) = None ->
  getItem key_conversationId (w_storage w) = None ->
  getItem key_messageId (w_storage w) = None ->
  swr_fetcher w = w.
Proof.
  intros H1 H2 H3. unfold swr_fetcher. rewrite H1, H2, H3. by destruct w.
Qed.

(** C22. Reset followed by a reload (whose mount runs the SWR fetcher)
    and a later revalidation leaves an empty transcript, empty identifiers and none of the three
    keys in [localStorage]. *)
Theorem reset_reload_restore_clears (w : world) :
  let w' := run step w [ClickReset; Reload; Revalidate] in
  response (w_form w') = [] /\ currConversationId (w_form w') = Some "" /\
  currMessageId (w_form w') = Some "" /\
  getItem key_response (w_storage w') = None /\
  getItem key_conversationId (w_storage w') = None /\
  getItem key_messageId (w_storage w') = None.
Proof.
  destruct (handleReset_storage w) as (H1 & H2 & H3).
  cbn [run fold_left step]. unfold reload, mount.
  rewrite (swr_fetcher_nothing_stored (mk_world _ _ (w_storage (handleReset w)) _ _ _ _)) by done.
  rewrite swr_fetcher_nothing_stored by done.
  repeat split; [exact H1 | exact H2 | exact H3].
Qed.

(** C16. Round trip through [localStorage]: once a request is answered,
    reloading the page (and revalidating) gives back the transcript that
    was written, element by element and in order. *)
Theorem persist_restore_roundtrip (w : world) (id : nat) (p : pending) (r : reply) :
  find_pending id (w_pending w) = Some p ->
  response (w_form (run step w [Settle id (Some r); Reload; Revalidate])) =
    pd_response p ++ [pd_userMessage p; rp_message r].
Proof.
  intros Hf. cbn [run fold_left step]. apply swr_fetcher_restores.
  rewrite reload_storage.
  rewrite (settle_found _ _ _ _ Hf). apply settle_with_response.
Qed.

(** ** One request at a time on the Enter path *)

Definition single_inflight (w : world) : Prop :=
  length (w_pending w) <= 1 /\ (w_pending w <> [] -> isLoading (w_form w) = true).

Lemma remove_pending_single (id : nat) (ps : list pending) (p : pending) :
  length ps <= 1 -> find_pending id ps = Some p -> remove_pending id ps = [].
Proof.
  destruct ps as [|q [|q' ps]]; simpl; [done| |lia]. intros _.
  unfold find_pending, remove_pending. simpl.
  by destruct (Nat.eqb (pd_id q) id).
Qed.

Lemma handleSubmit_effects (w : world) :
  isLoading (w_form (handleSubmit w)) = isLoading (w_form w) /\
  (w_pending (handleSubmit w) = w_pending w \/
   exists p, w_pending (handleSubmit w) = w_pending w ++ [p]).
Proof. unfold handleSubmit. destruct (String.eqb (w_input w) ""); simpl; eauto. Qed.

Lemma single_inflight_step (w : world) (e : event) :
  single_inflight w -> e <> ClickSubmit -> single_inflight (step w e).
Proof.
  intros [Hlen Hlock] He.
  destruct e as [key sh| |id o| | | |s];
    try (match goal with
         | |- context [step w ?e] =>
             destruct (passive_step w e ltac:(auto with chat)) as (Hl & Hp & _);
             unfold single_inflight; rewrite Hl, Hp; done
         end).
  - simpl. unfold handleEnter.
    destruct (String.eqb key "Enter" && negb (isLoading (w_form w))) eqn:E; [|done].
    apply andb_prop in E as [_ E]. apply negb_true_iff in E.
    assert (Hnil : w_pending w = []) by (destruct (w_pending w); [done|]; by rewrite Hlock in E).
    destruct (handleSubmit_effects (with_form (setIsLoading true) w)) as (Hl & [Hp | [p Hp]]);
      unfold single_inflight; rewrite Hp, Hl; simpl; rewrite Hnil; simpl; split; auto.
  - done.
  - simpl. unfold settle. destruct (find_pending id (w_pending w)) as [p|] eqn:Ef; [|done].
    destruct (settle_with_pending p o (with_pending (remove_pending id (w_pending w)) w))
      as (Hp & _ & Hl).
    unfold single_inflight. rewrite Hp, Hl. simpl.
    rewrite (remove_pending_single _ _ _ Hlen Ef). simpl. split; [lia|done].
  - destruct (reload_idle w) as (Hl & Hp & _). unfold single_inflight. cbn [step].
    rewrite Hl, Hp. split; [simpl; lia|done].
Qed.

Lemma single_inflight_initial (st : storage) : single_inflight (initial_world st).
Proof.
  destruct (mount_idle st 0 [] []) as (Hl & Hp & _). unfold single_inflight, initial_world.
  rewrite Hl, Hp. split; [simpl; lia|done].
Qed.

(** C17. Invariant of the Enter path: in every state reachable from a
    fresh page by any events but the submit button, at most one request
    is in flight, and while one is, [isLoading] is set (so Enter is
    ignored). *)
Theorem enter_path_single_inflight (st : storage) (w : world) :
  reachable step (fun e => e <> ClickSubmit) (initial_world st) w ->
  length (w_pending w) <= 1 /\ (w_pending w <> [] -> isLoading (w_form w) = true).
Proof.
  apply (reachable_ind' step _ single_inflight).
  - apply single_inflight_initial.
  - intros v e Hv He. by apply single_inflight_step.
Qed.

(** ** Where the code departs from its spec *)

(** Two submissions with the button: the second is accepted because the
    button path never sets [isLoading]. *)
Lemma two_clicks (w : world) (u1 u2 : string) :
  isLoading (w_form w) = false -> u1 <> "" -> u2 <> "" ->
  let f := w_form w in
  let w' := run step w [TypeInput u1; ClickSubmit; TypeInput u2; ClickSubmit] in
  w_pending w' = w_pending w ++
    [mk_pending (w_next w) u1 (response f) (currConversationId f) (currMessageId f);
     mk_pending (S (w_next w)) u2 (response f ++ [u1]) (currConversationId f) (currMessageId f)] /\
  w_sent w' = w_sent w ++
    [mk_request u1 (currConversationId f) (currMessageId f);
     mk_request u2 (currConversationId f) (currMessageId f)] /\
  isLoading (w_form w') = false /\
  response (w_form w') = response f ++ [u1; u2] /\
  w_next w' = S (S (w_next w)).
Proof.
  intros Hl H1 H2. simpl. unfold clickSubmit, handleSubmit. simpl. rewrite Hl.
  case_streq. simpl. rewrite Hl. case_streq. simpl.
  by rewrite <- !app_assoc.
Qed.

Lemma settle_with_conversationId_kept (p : pending) (r : reply) (w : world) :
  strict_neq_opt (pd_conversationId p) (rp_conversationId r) = false ->
  currConversationId (w_form (settle_with p (Some r) w)) = currConversationId (w_form w) /\
  getItem key_conversationId (w_storage (settle_with p (Some r) w)) =
    getItem key_conversationId (w_storage w).
Proof.
  intros H. unfold settle_with. rewrite H.
  destruct (strict_neq_opt (pd_messageId p) _); simpl; by autorewrite with chat_rw.
Qed.

(** C26. The submit button does not take the lock: two submissions in a
    row put two requests in flight, both continuing from the same
    identifiers, while [isLoading] stays clear. *)
Theorem button_two_requests_in_flight (w : world) (u1 u2 : string) :
  isLoading (w_form w) = false -> u1 <> "" -> u2 <> "" ->
  let f := w_form w in
  let w' := run step w [TypeInput u1; ClickSubmit; TypeInput u2; ClickSubmit] in
  length (w_pending w') = length (w_pending w) + 2 /\
  isLoading (w_form w') = false /\
  w_sent w' = w_sent w ++
    [mk_request u1 (currConversationId f) (currMessageId f);
     mk_request u2 (currConversationId f) (currMessageId f)].
Proof.
  intros Hl H1 H2. destruct (two_clicks w u1 u2 Hl H1 H2) as (Hp & Hs & Hl' & _).
  simpl in *. rewrite Hp, length_app. simpl. auto.
Qed.

(** C27. A Reset while a request is in flight is undone when the request
    is answered: the transcript and its stored copy are again the history
    from before the Reset, while an identifier equal to the captured one
    is not re-adopted and stays cleared, in memory and in storage. *)
Theorem reset_undone_by_settle (w : world) (id : nat) (p : pending) (r : reply) :
  find_pending id (w_pending w) = Some p ->
  let total := pd_response p ++ [pd_userMessage p; rp_message r] in
  let w' := run step w [ClickReset; Settle id (Some r)] in
  response (w_form w') = total /\
  getItem key_response (w_storage w') = Some (JSON_stringify total) /\
  (rp_conversationId r = pd_conversationId p ->
   currConversationId (w_form w') = Some "" /\ getItem key_conversationId (w_storage w') = None).
Proof.
  intros Hf. cbn [run fold_left step].
  assert (Hf' : find_pending id (w_pending (handleReset w)) = Some p) by exact Hf.
  rewrite (settle_found _ _ _ _ Hf').
  destruct (settle_with_response p r (with_pending (remove_pending id (w_pending (handleReset w))) (handleReset w)))
    as (Hr & _ & Hs).
  split; [done|]. split; [done|]. intros Heq.
  assert (Hn : strict_neq_opt (pd_conversationId p) (rp_conversationId r) = false)
    by (apply strict_neq_opt_spec; done).
  destruct (settle_with_conversationId_kept p r
              (with_pending (remove_pending id (w_pending (handleReset w))) (handleReset w)) Hn) as (-> & ->).
  split; [done|]. apply (handleReset_storage w).
Qed.

Lemma find_pending_two (n : nat) (p1 p2 : pending) :
  pd_id p1 = n -> pd_id p2 = S n ->
  find_pending n [p1; p2] = Some p1 /\ find_pending (S n) [p1; p2] = Some p2 /\
  remove_pending n [p1; p2] = [p2] /\ remove_pending (S n) [p1; p2] = [p1].
Proof.
  intros H1 H2. unfold find_pending, remove_pending. simpl.
  assert (Hne : Nat.eqb n (S n) = false) by (apply Nat.eqb_neq; lia).
  assert (Hne' : Nat.eqb (S n) n = false) by (apply Nat.eqb_neq; lia).
  by rewrite H1, H2, Hne, Hne', !Nat.eqb_refl.
Qed.

Lemma settle_single (id : nat) (o : option reply) (w : world) (p : pending) :
  w_pending w = [p] -> pd_id p = id ->
  settle id o w = settle_with p o (with_pending [] w).
Proof.
  intros Hp Hid. unfold settle, find_pending, remove_pending. rewrite Hp. simpl.
  by rewrite Hid, Nat.eqb_refl.
Qed.

(** C28. With two requests in flight, the transcript ends up missing a
    turn whatever the order the answers arrive in: in order, the first
    reply is overwritten; in reverse order, the second exchange is. *)
Theorem two_requests_lose_turn (w : world) (u1 u2 : string) (r1 r2 : reply) :
  isLoading (w_form w) = false -> w_pending w = [] -> u1 <> "" -> u2 <> "" ->
  let n := w_next w in
  let w1 := run step w [TypeInput u1; ClickSubmit; TypeInput u2; ClickSubmit] in
  response (w_form (run step w1 [Settle n (Some r1); Settle (S n) (Some r2)])) =
    response (w_form w) ++ [u1; u2; rp_message r2] /\
  response (w_form (run step w1 [Settle (S n) (Some r2); Settle n (Some r1)])) =
    response (w_form w) ++ [u1; rp_message r1].
Proof.
  intros Hl Hp0 H1 H2. cbv zeta.
  destruct (two_clicks w u1 u2 Hl H1 H2) as (Hp & _). cbv zeta in Hp.
  rewrite Hp0 in Hp. cbn [app] in Hp.
  remember (run step w [TypeInput u1; ClickSubmit; TypeInput u2; ClickSubmit]) as w1 eqn:Hw1.
  cbn [run fold_left step].
  match type of Hp with
  | _ = [?a; ?b] => set (p1 := a) in Hp; set (p2 := b) in Hp
  end.
  destruct (find_pending_two (w_next w) p1 p2 eq_refl eq_refl) as (F1 & F2 & R1 & R2).
  rewrite <- Hp in F1, F2, R1, R2. split.
  - rewrite (settle_found _ _ _ _ F1), R1.
    rewrite (settle_single (S (w_next w)) (Some r2) _ p2); [| apply settle_with_pending | done].
    rewrite (proj1 (settle_with_response _ _ _)). simpl. by rewrite <- app_assoc.
  - rewrite (settle_found _ _ _ _ F2), R2.
    rewrite (settle_single (w_next w) (Some r1) _ p1); [| apply settle_with_pending | done].
    by rewrite (proj1 (settle_with_response _ _ _)).
Qed.

Lemma clickSubmit_accepts (w : world) (u : string) :
  isLoading (w_form w) = false -> u <> "" ->
  let f := w_form w in
  let p := mk_pending (w_next w) u (response f) (currConversationId f) (currMessageId f) in
  clickSubmit (with_input u w) =
    mk_world (setResponse (response f ++ [u]) f) "" (w_storage w) (w_pending w ++ [p])
      (S (w_next w)) (w_sent w ++ [request_of p]) (w_toasts w).
Proof. intros Hl Hu. unfold clickSubmit, handleSubmit. simpl. rewrite Hl. by case_streq. Qed.

Lemma submit_fail_submit (w : world) (u1 u2 : string) :
  isLoading (w_form w) = false -> w_pending w = [] -> u1 <> "" -> u2 <> "" ->
  response (w_form (run step w [TypeInput u1; ClickSubmit; Settle (w_next w) None;
                                TypeInput u2; ClickSubmit])) =
    response (w_form w) ++ [u1; u2].
Proof.
  intros Hl Hp H1 H2. cbn [run fold_left step].
  rewrite (clickSubmit_accepts w u1) by done. rewrite Hp. cbn [app].
  rewrite settle_single with (p := mk_pending (w_next w) u1 (response (w_form w))
             (currConversationId (w_form w)) (currMessageId (w_form w))) by done.
  rewrite clickSubmit_accepts by done. simpl. by rewrite <- app_assoc.
Qed.

Lemma turn_role_even (n : nat) :
  Nat.even n = true -> turn_role n = UserTurn /\ turn_role (S n) = ReplyTurn.
Proof.
  intros He. unfold turn_role. rewrite Nat.even_succ, <- Nat.negb_even, He. done.
Qed.

(** C30. The role of a turn is read from the parity of its index, which
    assumes that user turns and replies alternate.  After a failed
    request the user's turn stays without a reply, and the next user
    message, at an odd index, is drawn as a reply. *)
Theorem failed_turn_shifts_roles (w : world) (u1 u2 : string) :
  isLoading (w_form w) = false -> w_pending w = [] ->
  Nat.even (length (response (w_form w))) = true -> u1 <> "" -> u2 <> "" ->
  rendered (w_form (run step w [TypeInput u1; ClickSubmit; Settle (w_next w) None;
                                TypeInput u2; ClickSubmit])) =
    rendered (w_form w) ++ [(UserTurn, u1); (ReplyTurn, u2)].
Proof.
  intros Hl Hp He H1 H2. unfold rendered. rewrite submit_fail_submit by done.
  rewrite imap_app. simpl. rewrite Nat.add_0_r, Nat.add_1_r.
  destruct (turn_role_even _ He) as (-> & ->). done.
Qed.

(** C32. The restore is not run once: SWR runs the fetcher again on every
    revalidation (focus, reconnect).  After a request fails, a
    revalidation replaces the transcript in memory by the stored one, and
    the user's unanswered turn disappears from the screen. *)
Theorem revalidate_drops_failed_turn (w : world) (id : nat) (p : pending) (l : list string) :
  find_pending id (w_pending w) = Some p ->
  getItem key_response (w_storage w) = Some (JSON_stringify l) ->
  response (w_form (step w (Settle id None))) = response (w_form w) /\
  response (w_form (run step w [Settle id None; Revalidate])) = l.
Proof.
  intros Hf Hs. split.
  - simpl. by rewrite (settle_found _ _ _ _ Hf).
  - cbn [run fold_left step]. apply swr_fetcher_restores.
    by rewrite (settle_found _ _ _ _ Hf).
Qed.

(** ** Witnesses on concrete pages *)

(** A fresh page with "hello" typed, and the call that submitting it
    suspends. *)
Definition demo_world : world := mk_world initial_form_state "hello" ∅ [] 0 [] [].
Definition demo_pending : pending := mk_pending 0 "hello" [] (Some "") (Some "").
Definition demo_reply : reply := mk_reply "hi" (Some "m1") (Some "c1").

(** A page with one exchange restored, "hello" in flight, and the
    exchange stored. *)
Definition history_world : world :=
  mk_world (mk_form_state ["old"; "reply"; "hello"] false (Some "c0") (Some "m0")) ""
    (<[key_response := JSON_stringify ["old"; "reply"]]> ∅)
    [mk_pending 0 "hello" ["old"; "reply"] (Some "c0") (Some "m0")] 1
    [mk_request "hello" (Some "c0") (Some "m0")] [].
Definition history_pending : pending := mk_pending 0 "hello" ["old"; "reply"] (Some "c0") (Some "m0").
Definition history_reply : reply := mk_reply "hi" (Some "m1") (Some "c0").

Lemma enter_submits_witness :
  let w' := step demo_world (KeyDown "Enter" true) in
  response (w_form w') = response (w_form demo_world) ++ [w_input demo_world] /\
  isLoading (w_form w') = true /\ w_input w' = "" /\
  w_sent w' = w_sent demo_world ++
    [mk_request (w_input demo_world) (currConversationId (w_form demo_world))
       (currMessageId (w_form demo_world))] /\
  w_pending w' = w_pending demo_world ++
    [mk_pending (w_next demo_world) (w_input demo_world) (response (w_form demo_world))
       (currConversationId (w_form demo_world)) (currMessageId (w_form demo_world))].
Proof. apply enter_submits; [reflexivity | discriminate]. Defined.

Lemma submit_empty_rejected_witness :
  let w := with_input "" demo_world in
  let w' := step w ClickSubmit in
  w_sent w' = w_sent w /\ w_pending w' = w_pending w /\
  response (w_form w') = response (w_form w) /\
  w_toasts w' = w_toasts w ++ (if isLoading (w_form w) then [] else [ToastWarn]).
Proof. apply submit_empty_rejected; [reflexivity | auto]. Defined.

Lemma settle_success_witness :
  let w := step demo_world ClickSubmit in
  let w' := step w (Settle 0 (Some demo_reply)) in
  let total := pd_response demo_pending ++ [pd_userMessage demo_pending; rp_message demo_reply] in
  response (w_form w') = total /\ isLoading (w_form w') = false /\
  getItem key_response (w_storage w') = Some (JSON_stringify total) /\
  (pd_conversationId demo_pending <> rp_conversationId demo_reply ->
     currConversationId (w_form w') = rp_conversationId demo_reply /\
     getItem key_conversationId (w_storage w') = Some (to_js_string (rp_conversationId demo_reply))).
Proof. apply settle_success. reflexivity. Defined.

Lemma settle_failure_keeps_turn_witness :
  let w := step demo_world ClickSubmit in
  let w' := step w (Settle 0 None) in
  response (w_form w') = response (w_form w) /\ isLoading (w_form w') = false /\
  w_storage w' = w_storage w /\ w_toasts w' = w_toasts w ++ [ToastError] /\
  w_pending w' = remove_pending 0 (w_pending w).
Proof. apply (settle_failure_keeps_turn _ _ demo_pending). reflexivity. Defined.

Lemma enter_empty_locks_forever_witness :
  let w := with_input "" demo_world in
  let w' := run step (step w (KeyDown "Enter" false))
              [ClickSubmit; TypeInput "hi"; KeyDown "Enter" false; ClickReset; Revalidate] in
  isLoading (w_form w') = true /\ w_pending w' = [] /\ w_sent w' = w_sent w.
Proof.
  apply (enter_empty_locks_forever _ false); [reflexivity..|].
  apply reachable_run. eexists. split; [|reflexivity].
  repeat constructor; discriminate.
Defined.

Lemma persist_restore_roundtrip_witness :
  response (w_form (run step (step demo_world ClickSubmit) [Settle 0 (Some demo_reply); Reload; Revalidate])) =
    pd_response demo_pending ++ [pd_userMessage demo_pending; rp_message demo_reply].
Proof. apply persist_restore_roundtrip. reflexivity. Defined.

Lemma enter_path_single_inflight_witness :
  let w := run step (initial_world ∅) [TypeInput "hello"; KeyDown "Enter" false] in
  length (w_pending w) <= 1 /\ (w_pending w <> [] -> isLoading (w_form w) = true).
Proof.
  apply (enter_path_single_inflight ∅).
  apply reachable_run. eexists. split; [|reflexivity].
  repeat constructor; discriminate.
Defined.

Lemma button_two_requests_in_flight_witness :
  let f := w_form demo_world in
  let w' := run step demo_world [TypeInput "a"; ClickSubmit; TypeInput "b"; ClickSubmit] in
  length (w_pending w') = length (w_pending demo_world) + 2 /\
  isLoading (w_form w') = false /\
  w_sent w' = w_sent demo_world ++
    [mk_request "a" (currConversationId f) (currMessageId f);
     mk_request "b" (currConversationId f) (currMessageId f)].
Proof. apply button_two_requests_in_flight; [reflexivity | discriminate..]. Defined.

Lemma reset_undone_by_settle_witness :
  let total := pd_response history_pending ++
                 [pd_userMessage history_pending; rp_message history_reply] in
  let w' := run step history_world [ClickReset; Settle 0 (Some history_reply)] in
  response (w_form w') = total /\
  getItem key_response (w_storage w') = Some (JSON_stringify total) /\
  (rp_conversationId history_reply = pd_conversationId history_pending ->
   currConversationId (w_form w') = Some "" /\ getItem key_conversationId (w_storage w') = None).
Proof. apply reset_undone_by_settle. reflexivity. Defined.

Lemma two_requests_lose_turn_witness :
  let n := w_next demo_world in
  let w1 := run step demo_world [TypeInput "a"; ClickSubmit; TypeInput "b"; ClickSubmit] in
  response (w_form (run step w1 [Settle n (Some demo_reply); Settle (S n) (Some history_reply)])) =
    response (w_form demo_world) ++ ["a"; "b"; rp_message history_reply] /\
  response (w_form (run step w1 [Settle (S n) (Some history_reply); Settle n (Some demo_reply)])) =
    response (w_form demo_world) ++ ["a"; rp_message demo_reply].
Proof. apply two_requests_lose_turn; [reflexivity.. | discriminate | discriminate]. Defined.

Lemma failed_turn_shifts_roles_witness :
  rendered (w_form (run step demo_world [TypeInput "a"; ClickSubmit; Settle (w_next demo_world) None;
                                         TypeInput "b"; ClickSubmit])) =
    rendered (w_form demo_world) ++ [(UserTurn, "a"); (ReplyTurn, "b")].
Proof. apply failed_turn_shifts_roles; [reflexivity.. | discriminate | discriminate]. Defined.

Lemma revalidate_drops_failed_turn_witness :
  response (w_form (step history_world (Settle 0 None))) = response (w_form history_world) /\
  response (w_form (run step history_world [Settle 0 None; Revalidate])) = ["old"; "reply"].
Proof. apply (revalidate_drops_failed_turn _ _ history_pending); reflexivity. Defined.

(** ** What an event does to the requests *)

(** Every event either leaves the sent log as it is and only removes calls
    in flight, or sends one request with a non-empty text and suspends its
    call. *)
Lemma step_requests (w : world) (e : event) :
  (w_sent (step w e) = w_sent w /\ forall p, p ∈ w_pending (step w e) -> p ∈ w_pending w) \/
  (exists p, pd_userMessage p <> "" /\ w_sent (step w e) = w_sent w ++ [request_of p] /\
             w_pending (step w e) = w_pending w ++ [p]).
Proof.
  assert (Hsub : forall v, (w_sent (handleSubmit v) = w_sent v /\
                            forall p, p ∈ w_pending (handleSubmit v) -> p ∈ w_pending v) \/
            (exists p, pd_userMessage p <> "" /\ w_sent (handleSubmit v) = w_sent v ++ [request_of p] /\
                       w_pending (handleSubmit v) = w_pending v ++ [p])).
  { intros v. unfold handleSubmit. destruct (String.eqb_spec (w_input v) ""); [by left|].
    right. eexists; split; [|split; reflexivity]. done. }
  destruct e as [key sh| |id o| | | |s]; simpl.
  - unfold handleEnter. destruct (_ && _); [|by left].
    match goal with |- context [handleSubmit ?v] => exact (Hsub v) end.
  - unfold clickSubmit. destruct (isLoading _); [by left | apply Hsub].
  - left. unfold settle. destruct (find_pending id (w_pending w)) as [p|]; [|done].
    destruct (settle_with_pending p o (with_pending (remove_pending id (w_pending w)) w))
      as (-> & -> & _).
    split; [done|]. intros q Hq. simpl in Hq. unfold remove_pending in Hq.
    apply list_elem_of_In in Hq. apply filter_In in Hq as [Hq _].
    by apply list_elem_of_In.
  - by left.
  - left. destruct (swr_fetcher_passive w) as (_ & -> & ->). done.
  - left. destruct (reload_idle w) as (_ & -> & ->). split; [done|].
    intros q Hq. by apply not_elem_of_nil in Hq.
  - by left.
Qed.

(** ** The stored transcript is always JSON *)

(** What the key ["mock-gpt-response"] holds, when it holds anything, is
    the JSON text of an array of strings. *)
Definition stored_transcript_ok (st : storage) : Prop :=
  forall s, getItem key_response st = Some s -> exists l, JSON_parse s = Some l.

Lemma handleSubmit_storage (w : world) : w_storage (handleSubmit w) = w_storage w.
Proof. unfold handleSubmit. by destruct (String.eqb (w_input w) ""). Qed.

Lemma stored_transcript_ok_step (w : world) (e : event) :
  stored_transcript_ok (w_storage w) -> stored_transcript_ok (w_storage (step w e)).
Proof.
  intros Hok. destruct e as [key sh| |id o| | | |s]; cbn [step].
  - unfold handleEnter. destruct (_ && _); [|done]. by rewrite handleSubmit_storage.
  - unfold clickSubmit. destruct (isLoading _); [|rewrite handleSubmit_storage]; done.
  - unfold settle. destruct (find_pending id (w_pending w)) as [p|]; [|done].
    destruct o as [r|]; [|done].
    intros s Hs. rewrite (proj2 (proj2 (settle_with_response p r _))) in Hs.
    injection Hs as <-. eexists. apply parse_stringify.
  - intros s Hs. by rewrite (proj1 (handleReset_storage w)) in Hs.
  - by rewrite swr_fetcher_storage.
  - by rewrite reload_storage.
  - done.
Qed.

(** C19. Type of the persisted transcript: from a page whose storage
    holds, under the transcript key, the JSON text of an array of strings
    (or nothing), in every reachable world it still does, whatever the
    events; so the restore never takes the path where [JSON.parse]
    throws: a non-empty stored text is parsed and becomes the
    transcript. *)
Theorem stored_transcript_parses (st0 : storage) (w : world) :
  stored_transcript_ok st0 ->
  reachable step (fun _ => True) (initial_world st0) w ->
  forall s, getItem key_response (w_storage w) = Some s ->
  exists l, JSON_parse s = Some l /\
    (s <> "" -> response (w_form (swr_fetcher w)) = l).
Proof.
  intros H0 Hr.
  assert (Hok : stored_transcript_ok (w_storage w)).
  { revert w Hr. apply reachable_ind'; [by rewrite initial_world_storage|].
    intros v e Hv _. by apply stored_transcript_ok_step. }
  intros s Hs. destruct (Hok s Hs) as [l Hl]. exists l. split; [done|]. intros Hne.
  unfold swr_fetcher. rewrite Hs, Hl. destruct (String.eqb_spec s ""); [done|].
  simpl. by rewrite !restore_id_response.
Qed.

Lemma stored_transcript_parses_witness :
  let w := run step (initial_world ∅) [TypeInput "hello"; ClickSubmit; Settle 0 (Some demo_reply)] in
  exists l, JSON_parse (JSON_stringify ["hello"; "hi"]) = Some l /\
    (JSON_stringify ["hello"; "hi"] <> "" -> response (w_form (swr_fetcher w)) = l).
Proof.
  apply (stored_transcript_parses ∅).
  - intros s Hs. unfold getItem in Hs. by rewrite lookup_empty in Hs.
  - apply reachable_run. eexists. split; [|reflexivity]. repeat constructor.
  - vm_compute. reflexivity.
Defined.

(** ** The restore touches only the form *)

Lemma swr_fetcher_form_only (w : world) : exists g, swr_fetcher w = with_form g w.
Proof.
  unfold swr_fetcher.
  destruct (match getItem key_response (w_storage w) with Some s => _ | None => _ end).
  - eexists. reflexivity.
  - exists (fun f => f). by destruct w.
Qed.

(** ** A revalidation while a request is in flight *)

Lemma settle_with_storage_eq (p : pending) (o : option reply) (w w' : world) :
  w_storage w = w_storage w' -> w_storage (settle_with p o w) = w_storage (settle_with p o w').
Proof.
  intros H. destruct o as [r|]; [|done]. unfold settle_with.
  destruct (strict_neq_opt (pd_conversationId p) _), (strict_neq_opt (pd_messageId p) _);
    cbn [w_storage with_storage with_form]; by rewrite H.
Qed.

(** C33. Ordering of a revalidation and a settlement: while a request is
    in flight, an SWR revalidation replaces the transcript on screen by
    the stored one (the text being sent disappears, the lock stays), but
    the request's settlement then leaves the same transcript, storage,
    lock and calls in flight as if the revalidation had not happened. *)
Theorem revalidate_during_request (w : world) (id : nat) (p : pending) (r : reply) (l : list string) :
  find_pending id (w_pending w) = Some p ->
  getItem key_response (w_storage w) = Some (JSON_stringify l) ->
  let w1 := step w Revalidate in
  let wa := step w1 (Settle id (Some r)) in
  let wb := step w (Settle id (Some r)) in
  response (w_form w1) = l /\ isLoading (w_form w1) = isLoading (w_form w) /\
  w_pending w1 = w_pending w /\
  response (w_form wa) = response (w_form wb) /\ w_storage wa = w_storage wb /\
  w_pending wa = w_pending wb /\ isLoading (w_form wa) = isLoading (w_form wb).
Proof.
  intros Hf Hs. cbv zeta.
  split; [by apply swr_fetcher_restores|].
  destruct (swr_fetcher_passive w) as (Hl & Hp & _). split; [done|]. split; [done|].
  cbn [step]. destruct (swr_fetcher_form_only w) as [g Hg]. rewrite Hg.
  assert (Hf' : find_pending id (w_pending (with_form g w)) = Some p) by exact Hf.
  rewrite (settle_found _ _ _ _ Hf'), (settle_found _ _ _ _ Hf).
  set (wa0 := with_pending (remove_pending id (w_pending (with_form g w))) (with_form g w)).
  set (wb0 := with_pending (remove_pending id (w_pending w)) w).
  destruct (settle_with_response p r wa0) as (Ra & La & _).
  destruct (settle_with_response p r wb0) as (Rb & Lb & _).
  destruct (settle_with_pending p (Some r) wa0) as (Pa & _).
  destruct (settle_with_pending p (Some r) wb0) as (Pb & _).
  rewrite Ra, Rb, La, Lb, Pa, Pb. split; [done|]. split; [by apply settle_with_storage_eq|]. done.
Qed.

Lemma revalidate_during_request_witness :
  let w1 := step history_world Revalidate in
  let wa := step w1 (Settle 0 (Some history_reply)) in
  let wb := step history_world (Settle 0 (Some history_reply)) in
  response (w_form w1) = ["old"; "reply"] /\ isLoading (w_form w1) = isLoading (w_form history_world) /\
  w_pending w1 = w_pending history_world /\
  response (w_form wa) = response (w_form wb) /\ w_storage wa = w_storage wb /\
  w_pending wa = w_pending wb /\ isLoading (w_form wa) = isLoading (w_form wb).
Proof. apply (revalidate_during_request _ _ history_pending); reflexivity. Defined.

