(* ===== verification/Render.v ===== *)
(** * What [Form] renders, and how the browser dispatches to it

    [Form.tsx] returns a JSX tree (lines 100 to 157): the "Clear History"
    button wired to [handleReset], the form wired to [handleSubmit] with
    the text area wired to [handleEnter] and the submit button disabled
    while [isLoading], and one bubble per transcript entry.  [Form_view]
    is that tree as data, an element tree with its attributes, computed
    from the component's state.

    The browser turns a click or a key press on an element of that tree
    into calls of the handlers the tree names: [dispatch] follows the DOM
    and HTML rules the page relies on (the event bubbles from its target
    to the root through React's [onClick] and [onKeyDown] props; the
    nearest enclosing button is activated, and a submit button submits its
    form, whose [onSubmit] runs; a disabled button receives no click).
    [dom_step] runs the handlers a DOM event reaches on the rendered page.
    The theorem of this file shows that [Form.step], the event wiring the
    rest of the development uses, is exactly what the rendered page
    dispatches. *)

From S2P Require Import Prelude JsValue Json JsonValue Storage Form.

(** ** The element tree *)

(** The handlers the JSX passes as event props. *)
Inductive listener := HReset | HSubmit | HEnter.

#[export] Instance listener_eq_dec : EqDecision listener.
Proof. solve_decision. Defined.

(** A JSX attribute: a string or boolean prop, an event prop, React's
    [key] and [ref]. *)
Inductive attr :=
| AStr (name value : string)
| ABool (name : string) (b : bool)
| AOn (name : string) (h : listener)
| AKey (k : nat)
| ARef.

#[warnings="-register-all"]
(** An element, a text node, or the text node React makes of a number
    child (its text is [String(n)], kept here as the number). *)
Inductive node :=
| Elem (tag : string) (attrs : list attr) (children : list node)
| Text (s : string)
| NumText (n : number).

(** ** [Form]'s JSX *)

(** The class of a transcript bubble: [index % 2 === 0] is the user's
    style ([turn_role] of [Form]). *)
Definition bubble_class (index : nat) : string :=
  match turn_role index with
  | UserTurn => "bg-green-200 ml-auto"
  | ReplyTurn => "bg-blue-200"
  end +:+ " p-4 rounded-2xl".

(** The body of [response.map((item, index) => ...)], with the nodes
    [{item}] renders to. *)
Definition bubble_with (index : nat) (content : list node) : node :=
  Elem "div" [AKey index; AStr "className" (bubble_class index)] [Elem "p" [] content].

Definition bubble (index : nat) (item : string) : node := bubble_with index [Text item].

(** The page with the submit button's [disabled] flag and the transcript's
    bubbles. *)
Definition Form_page (loading : bool) (bubbles : list node) : node :=
  Elem "div" [AStr "className" "flex justify-center"]
  [ Elem "button"
      [AOn "onClick" HReset; AStr "type" "reset";
       AStr "className" "fixed p-4 font-bold text-white bg-teal-500 rounded-md top-5 right-5 dark:hover:text-gray-400 dark:hover:bg-gray-900 disabled:hover:bg-transparent dark:disabled:hover:bg-transparent"]
      [Text "Clear History"];
    Elem "form"
      [AOn "onSubmit" HSubmit;
       AStr "className" "fixed bottom-5 w-full md:max-w-3xl bg-white-700 rounded-md shadow-[0_0_10px_rgba(0,0,0,0.10)] mb-4"]
      [ Elem "textarea"
          [AStr "name" "Message"; AStr "placeholder" "Type your message here...";
           ARef; AOn "onKeyDown" HEnter;
           AStr "className" "w-full pt-4 pl-4 translate-y-1 bg-transparent shadow-lg outline-none resize-none"]
          [];
        Elem "button"
          [ABool "disabled" loading; AStr "type" "submit";
           AStr "className" "absolute top-[1.4rem] right-5 p-1 rounded-md text-gray-500 dark:hover:text-gray-400 dark:hover:bg-gray-900 disabled:hover:bg-transparent dark:disabled:hover:bg-transparent"]
          [ Elem "svg"
              [AStr "stroke" "currentColor"; AStr "fill" "currentColor"; AStr "strokeWidth" "0";
               AStr "viewBox" "0 0 20 20"; AStr "className" "w-4 h-4 rotate-90";
               AStr "height" "1em"; AStr "width" "1em"; AStr "xmlns" "http://www.w3.org/2000/svg"]
              [ Elem "path"
                  [AStr "d" "M10.894 2.553a1 1 0 00-1.788 0l-7 14a1 1 0 001.169 1.409l5-1.429A1 1 0 009 15.571V11a1 1 0 112 0v4.571a1 1 0 00.725.962l5 1.428a1 1 0 001.17-1.408l-7-14z"]
                  [] ] ] ];
    Elem "div"
      [AStr "className" "flex flex-col items-start w-full gap-3 pt-6 pb-20 mx-2 last:mb-10 md:mx-auto md:max-w-3xl h-5/6"]
      bubbles ].

Definition Form_view (f : form_state) : node := Form_page (isLoading f) (imap bubble (response f)).

(** ** Event dispatch *)

Definition attrs_of (n : node) : list attr :=
  match n with Elem _ a _ => a | _ => [] end.

Definition tag_of (n : node) : string :=
  match n with Elem t _ _ => t | _ => "" end.

Definition on_prop (name : string) (a : attr) : option listener :=
  match a with AOn n h => if String.eqb n name then Some h else None | _ => None end.

(** The handler of the event prop [name] of a node. *)
Definition listener_of (name : string) (n : node) : option listener :=
  head (omap (on_prop name) (attrs_of n)).

Definition str_prop (name : string) (n : node) : option string :=
  head (omap (fun a => match a with
                       | AStr m v => if String.eqb m name then Some v else None
                       | _ => None end) (attrs_of n)).

Definition bool_prop (name : string) (n : node) : bool :=
  existsb (fun a => match a with
                    | ABool m b => String.eqb m name && b
                    | _ => false end) (attrs_of n).

(** The nodes from the root to the target of a path of child indices,
    the root first; [None] when the path leaves the tree. *)
Fixpoint path_nodes (n : node) (p : list nat) : option (list node) :=
  match p with
  | [] => Some [n]
  | i :: p' =>
      match n with
      | Elem _ _ cs => match cs !! i with
                       | Some c => (n ::.) <$> path_nodes c p'
                       | None => None
                       end
      | _ => None
      end
  end.

Inductive dom_event :=
| DClick (path : list nat)
| DKeyDown (path : list nat) (key : string) (shiftKey : bool).

Definition dom_path (d : dom_event) : list nat :=
  match d with DClick p => p | DKeyDown p _ _ => p end.

Definition dom_key (d : dom_event) : string :=
  match d with DClick _ => "" | DKeyDown _ k _ => k end.

(** A button's type: [submit] when the attribute is missing. *)
Definition button_type (n : node) : string := default "submit" (str_prop "type" n).

(** The nearest button on a path, from the target up, with its
    ancestors. *)
Fixpoint nearest_button (up : list node) : option (node * list node) :=
  match up with
  | [] => None
  | n :: r => if String.eqb (tag_of n) "button" then Some (n, r) else nearest_button r
  end.

(** A click on the target whose ancestors are [up] (the target first):
    nothing when the nearest button is disabled; otherwise the [onClick]
    props from the target up, then the activation of the nearest button,
    which for a submit button inside a form runs the form's
    [onSubmit]. *)
Definition click_handlers (up : list node) : list listener :=
  match nearest_button up with
  | Some (b, above) =>
      if bool_prop "disabled" b then []
      else omap (listener_of "onClick") up ++
           (if String.eqb (button_type b) "submit" then
              match List.find (fun n => String.eqb (tag_of n) "form") above with
              | Some fm => omap (listener_of "onSubmit") [fm]
              | None => []
              end
            else [])
  | None => omap (listener_of "onClick") up
  end.

(** The target of an event is a button. *)
Definition on_button (up : list node) : bool :=
  match up with
  | t :: _ => String.eqb (tag_of t) "button"
  | [] => false
  end.

(** The handlers a DOM event on [root] reaches, in the order they run;
    [None] when its target is not in the tree.  A key press runs the
    [onKeyDown] props from the target up; [Enter] on a button then
    activates it as a click does (no [onKeyDown] of this page is on a
    button, so none cancels that default action). *)
Definition dispatch (root : node) (d : dom_event) : option (list listener) :=
  match path_nodes root (dom_path d) with
  | Some ns =>
      let up := reverse ns in
      Some (match d with
            | DClick _ => click_handlers up
            | DKeyDown _ key _ =>
                omap (listener_of "onKeyDown") up ++
                (if String.eqb key "Enter" && on_button up then click_handlers up else [])
            end)
  | None => None
  end.

(** A handler called with the DOM event [d]. *)
Definition invoke (d : dom_event) (w : world) (h : listener) : world :=
  match h with
  | HReset => handleReset w
  | HSubmit => handleSubmit w
  | HEnter => handleEnter (dom_key d) w
  end.

(** A DOM event on the page as rendered from the current state. *)
Definition dom_step (w : world) (d : dom_event) : world :=
  match dispatch (Form_view (w_form w)) d with
  | Some hs => fold_left (invoke d) hs w
  | None => w
  end.

(** The [Form.event] a DOM event is, by where its target lies: a click on
    the reset button or its text, or [Enter] on the button itself; a
    click on the submit button or its icon, or [Enter] on the button
    itself; a key press in the text area. *)
Definition form_event (d : dom_event) : option event :=
  match d with
  | DClick (0 :: _) => Some ClickReset
  | DClick (1 :: 1 :: _) => Some ClickSubmit
  | DKeyDown [0] key _ => if String.eqb key "Enter" then Some ClickReset else None
  | DKeyDown [1; 1] key _ => if String.eqb key "Enter" then Some ClickSubmit else None
  | DKeyDown (1 :: 0 :: _) key sh => Some (KeyDown key sh)
  | _ => None
  end.

(** ** The rendered page dispatches [Form.step] *)

(** Follow a path down a tree whose shape is known, one child index at a
    time; the transcript's children are looked up through [imap]. *)
Ltac walk_path :=
  repeat match goal with
  | H : (_ <$> _) = Some _ |- _ => apply fmap_Some in H as (? & H & ->)
  | H : path_nodes _ ?p = Some _ |- _ =>
      is_var p; destruct p as [|? p]; cbn [path_nodes bubble bubble_with] in H
  | H : context [imap ?g ?l !! ?i] |- _ =>
      rewrite list_lookup_imap in H; destruct (l !! i); cbn [fmap option_fmap option_map] in H
  | H : context [?cs !! ?i] |- _ => is_var i; destruct i as [|i]; cbn [lookup list_lookup] in H
  | H : Some _ = Some _ |- _ => injection H as <-
  | H : None = Some _ |- _ => discriminate H
  end.

(** C4. Refinement of the event wiring by the rendered page: for every
    state of the component and every click or key press whose target is
    an element of the page [Form] renders from that state, the handlers
    the browser runs do what [Form.step] does on the event the target
    stands for: a click on the "Clear History" button or its text is
    [ClickReset]; a click on the submit button or anywhere in its icon is
    [ClickSubmit], which does nothing while the button is disabled by
    [isLoading]; [Enter] on either button activates it as a click; a key
    press in the text area is [KeyDown]; any other target runs no
    handler. *)
Theorem rendered_page_dispatches_step (w : world) (d : dom_event) :
  is_Some (path_nodes (Form_view (w_form w)) (dom_path d)) ->
  dom_step w d = match form_event d with Some e => step w e | None => w end.
Proof.
  intros [ns Hns]. unfold dom_step, dispatch. rewrite Hns.
  destruct w as [[resp ld c m] inp st ps nx sent ts].
  destruct d as [p|p key sh]; cbn [dom_path w_form] in Hns; unfold Form_view, Form_page in Hns;
    walk_path; destruct ld; cbn [form_event]; try destruct (String.eqb key "Enter"); reflexivity.
Qed.

(** ** Witnesses *)

Lemma rendered_page_dispatches_step_witness :
  let w := run step (initial_world ∅) [TypeInput "hello"; KeyDown "Enter" false] in
  dom_step w (DClick [1; 1; 0; 0]) = step w ClickSubmit.
Proof. apply (rendered_page_dispatches_step _ (DClick [1; 1; 0; 0])). vm_compute. by eexists. Defined.
