(* ===== verification/Request.v ===== *)
(** * The request state machine of the spec, refined by the client

    The spec (section 9) reframes the client's [isLoading] flag as an
    explicit request state machine with the states idle, sending,
    succeeded and failed, whose transitions are triggered only by Submit
    and by the settlement of the call in flight (section 5: at most one
    Submit in flight, no queuing).  [req_step] is that machine, with a
    reload that restarts it (navigating away, the only way to abandon a
    request).

    The client refines it on the Enter path: [label_of] reads what a step
    of [Form.step] does (a request sent, the call in flight settled, a
    reload, nothing visible), and every step of a reachable world is a
    step of the machine on that label, with the machine sending exactly
    when a call is suspended.  The submit button does not refine it: it
    sends while a request is in flight ([Form.button_two_requests_in_flight]). *)

From S2P Require Import Prelude JsValue Json Storage Form.

Inductive req_state := Idle | Sending | Succeeded | Failed.

Inductive req_label :=
| LSubmit (text : string)
| LSettle (ok : bool)
| LReload
| LTau.

Inductive req_step : req_state -> req_label -> req_state -> Prop :=
| req_submit a u : a <> Sending -> u <> "" -> req_step a (LSubmit u) Sending
| req_ok : req_step Sending (LSettle true) Succeeded
| req_fail : req_step Sending (LSettle false) Failed
| req_reload a : req_step a LReload Idle
| req_tau a : req_step a LTau a.

#[export] Hint Constructors req_step : chat.

(** The machine is sending exactly when a call is suspended. *)
Definition abstracts (w : world) (a : req_state) : Prop :=
  w_pending w <> [] <-> a = Sending.

(** What a step shows: the request it sends, the settlement of a call in
    flight, a reload, or nothing. *)
Definition label_of (w : world) (e : event) : req_label :=
  match e with
  | KeyDown _ _ | ClickSubmit =>
      match drop (length (w_sent w)) (w_sent (step w e)) with
      | [rq] => LSubmit (rq_message rq)
      | _ => LTau
      end
  | Settle id o =>
      match find_pending id (w_pending w) with
      | Some _ => LSettle (match o with Some _ => true | None => false end)
      | None => LTau
      end
  | Reload => LReload
  | _ => LTau
  end.

(** ** The Enter path refines the machine *)

(** C7. Refinement of the spec's request state machine (section 9) by
    the client on the Enter path: in every world reachable from a fresh
    page by any events but the submit button, every such event is a step
    of the machine on the label it shows (a Submit of a non-empty text
    only when no request is in flight, a settlement only of the request
    in flight, a reload that restarts the machine, or a silent step), and
    the machine is sending exactly when a call is suspended. *)
Theorem enter_path_refines_request_machine (st : storage) (w : world) (e : event) (a : req_state) :
  reachable step (fun e => e <> ClickSubmit) (initial_world st) w ->
  e <> ClickSubmit -> abstracts w a ->
  exists a', req_step a (label_of w e) a' /\ abstracts (step w e) a'.
Proof.
  intros Hr He Ha.
  assert (Hinv : single_inflight w).
  { clear Ha. revert w Hr. apply reachable_ind'; [apply single_inflight_initial|].
    intros v ev Hv Hev. by apply single_inflight_step. }
  destruct Hinv as [Hlen Hlock].
  destruct e as [key sh| |id o| | | |s]; [| done | | | | |].
  - unfold label_of. cbn [step]. unfold handleEnter.
    destruct (String.eqb key "Enter" && negb (isLoading (w_form w))) eqn:E;
      [|rewrite drop_all; exists a; split; [constructor | done]].
    apply andb_prop in E as [_ E]. apply negb_true_iff in E.
    assert (Hnil : w_pending w = []).
    { destruct (w_pending w) as [|q ps] eqn:Ep; [done|]. exfalso.
      assert (isLoading (w_form w) = true) by (apply Hlock; discriminate). congruence. }
    assert (Ha' : a <> Sending) by (intros Hs; apply Ha in Hs; done).
    unfold handleSubmit. cbn [w_input with_form].
    destruct (String.eqb_spec (w_input w) "") as [Hu|Hu]; cbn [w_sent w_pending show_toast].
    + rewrite drop_all. exists a. split; [constructor|].
      unfold abstracts. cbn [show_toast with_form w_pending]. by rewrite Hnil.
    + rewrite drop_app_length. exists Sending. split; [by constructor|].
      unfold abstracts. cbn [with_form w_pending]. rewrite Hnil. simpl. done.
  - unfold label_of. cbn [step]. unfold settle.
    destruct (find_pending id (w_pending w)) as [p|] eqn:Ef; [|exists a; split; [constructor|done]].
    assert (Hs : a = Sending).
    { apply Ha. intros Hn. rewrite Hn in Ef. discriminate. }
    rewrite (remove_pending_single _ _ _ Hlen Ef).
    destruct (settle_with_pending p o (with_pending [] w)) as (Hp & _).
    subst a. exists (match o with Some _ => Succeeded | None => Failed end).
    split; [destruct o; constructor|]. unfold abstracts. rewrite Hp. simpl.
    by destruct o.
  - exists a. split; [constructor|]. done.
  - exists a. split; [constructor|]. unfold abstracts. cbn [step].
    by rewrite (proj1 (proj2 (swr_fetcher_passive w))).
  - exists Idle. split; [constructor|]. unfold abstracts. cbn [step].
    by rewrite (proj1 (proj2 (reload_idle w))).
  - exists a. split; [constructor|]. done.
Qed.

(** ** Witnesses *)

Lemma enter_path_refines_request_machine_witness :
  let w := run step (initial_world ∅) [TypeInput "hello"; KeyDown "Enter" false] in
  exists a', req_step Sending (label_of w (Settle 0 None)) a' /\
             abstracts (step w (Settle 0 None)) a'.
Proof.
  apply (enter_path_refines_request_machine ∅).
  - apply reachable_run. eexists. split; [|reflexivity]. repeat constructor; discriminate.
  - discriminate.
  - split; [done | intros _; vm_compute; discriminate].
Defined.

