(* ===== verification/Wire.v ===== *)
(** * The HTTP bodies as JSON text

    The client sends [JSON.stringify({ message, conversationId,
    parentMessageId })] ([Form.tsx], lines 44 to 48); Next.js parses it
    with [JSON.parse] into [req.body]; the handler answers with
    [res.status(200).json({ message, conversationId, messageId })]
    ([main.ts], lines 23 to 25 and 45 to 49), which serialises its
    argument with [JSON.stringify]; the client reads it back with
    [.json()] and destructures it ([Form.tsx], line 38).  [JSON.stringify]
    leaves out a field whose value is [undefined].

    [Relay] and [Form] model the two bodies by their fields
    ([System.body_of_request], [System.reply_of_outcome]); this file
    writes them as text, parses the text with [JsonValue], reads the
    fields back, and shows that the request text goes through unchanged
    ([server_body_request]) and that the response text parses to the
    members the handler wrote ([client_reply_text]; [System] reads the
    reply's fields from them).  The composition in [System] sends the
    text. *)

From S2P Require Import Prelude JsValue Json JsonValue Storage Relay Form.

(** ** Writing *)

(** One member of an object, ["key":"value"]. *)
Definition member_text (k v : string) : string := quote k +:+ String ":" (quote v).

(** SerializeJSONObject drops the members whose value is [undefined]. *)
Fixpoint defined_fields (kvs : list (string * option string)) : list (string * string) :=
  match kvs with
  | [] => []
  | (k, Some v) :: r => (k, v) :: defined_fields r
  | (_, None) :: r => defined_fields r
  end.

(** [JSON.stringify] of an object whose fields are strings or
    [undefined]. *)
Definition stringify_fields (kvs : list (string * option string)) : string :=
  String "{" (join_comma ((fun '(k, v) => member_text k v) <$> defined_fields kvs) +:+ "}").

Definition request_text (rq : request) : string :=
  stringify_fields [("message", Some (rq_message rq));
                    ("conversationId", rq_conversationId rq);
                    ("parentMessageId", rq_parentMessageId rq)].

Definition response_text (b : res_body) : string :=
  stringify_fields [("message", Some (res_message b));
                    ("conversationId", res_conversationId b);
                    ("messageId", res_messageId b)].

(** ** Reading *)

(** [v.k] on a parsed object: the last member named [k] ([JSON.parse]
    overwrites a duplicate key); [None] is [undefined]. *)
Definition get_field (k : string) (v : json) : option json :=
  match v with
  | JSONObject kvs => snd <$> List.find (fun kv => String.eqb (fst kv) k) (reverse kvs)
  | _ => None
  end.

(** A field of [req.body] as the handler tests it.  Numbers, arrays and
    objects as field values are outside [jsval] ([None]). *)
Definition jsval_of_field (o : option json) : option jsval :=
  match o with
  | None => Some JUndefined
  | Some JSONNull => Some JNull
  | Some (JSONBool b) => Some (JBool b)
  | Some (JSONString s) => Some (JString s)
  | Some _ => None
  end.

(** [req.body] read from the parsed text. *)
Definition body_of_json (v : json) : option req_body :=
  match v with
  | JSONObject _ =>
      match jsval_of_field (get_field "message" v), jsval_of_field (get_field "conversationId" v),
            jsval_of_field (get_field "parentMessageId" v) with
      | Some m, Some c, Some p => Some (mk_req_body m c p)
      | _, _, _ => None
      end
  | _ => None
  end.

(** A destructured identifier: a string or [undefined]. *)
Definition str_field (o : option json) : option (option string) :=
  match o with
  | None => Some None
  | Some (JSONString s) => Some (Some s)
  | Some _ => None
  end.

(** [const { message, messageId, conversationId } = ...]; a body whose
    [message] is not a string is outside the model (the handler always
    sends one). *)
Definition reply_of_json (v : json) : option reply :=
  match v with
  | JSONObject _ =>
      match get_field "message" v, str_field (get_field "messageId" v),
            str_field (get_field "conversationId" v) with
      | Some (JSONString m), Some i, Some c => Some (mk_reply m i c)
      | _, _, _ => None
      end
  | _ => None
  end.

(** The same bodies read field by field, as [Relay] and [Form] use them:
    [req.body] of the text the client sends (an [undefined] identifier is
    left out of the text and read back as [undefined]), and the reply the
    client destructures from a 200 response. *)
Definition body_of_request (rq : request) : req_body :=
  mk_req_body (JString (rq_message rq)) (of_option (rq_conversationId rq))
    (of_option (rq_parentMessageId rq)).

Definition reply_of_outcome (o : outcome) : option reply :=
  match o with
  | Responded _ b => Some (mk_reply (res_message b) (res_messageId b) (res_conversationId b))
  | Rejected _ => None
  end.

(** What the handler receives: Next.js parses the request's text. *)
Definition server_body (rq : request) : option req_body :=
  JSON_parse_value (request_text rq) ≫= body_of_json.

(** What [await (await fetch(...)).json()] gives the client: the parsed
    body of a 200 response, or a throw ([None]) for the 500 page of an
    unhandled rejection, whose body is not JSON. *)
Definition client_reply (o : outcome) : option reply :=
  match o with
  | Responded _ b => JSON_parse_value (response_text b) ≫= reply_of_json
  | Rejected _ => None
  end.

(** ** The text goes through *)

Lemma member_append (k v rest : string) :
  member_text k v +:+ rest = String dq (escape k +:+ String dq (String ":" (quote v +:+ rest))).
Proof. unfold member_text. by rewrite append_assoc_str, append_cons_str, quote_append. Qed.

Lemma parse_value_quote (m : nat) (v rest : string) :
  parse_value (S m) (quote v +:+ rest) = Some (JSONString v, rest).
Proof.
  rewrite quote_append, parse_value_S, skip_ws_cons by reflexivity.
  cbn -[parse_chars]. by rewrite parse_chars_escape.
Qed.

Abbreviation members kvs := ((fun '(k, v) => member_text k v) <$> kvs).
Abbreviation string_members kvs := ((fun '(k, v) => (k, JSONString v)) <$> kvs).

(** Read through written text: whitespace that is not there, string
    literals, and the values of members. *)
Ltac read_back :=
  repeat first [ rewrite skip_ws_cons by reflexivity | rewrite parse_chars_escape
               | rewrite parse_value_quote | rewrite append_cons_str
               | progress cbn -[parse_chars parse_value parse_members skip_ws join_comma append] ].

(** The member loop reads back the members written by [join_comma],
    given one unit of fuel per member. *)
Lemma parse_members_join (kvs : list (string * string)) (k v rest : string) (g m : nat) :
  length kvs < g ->
  parse_members (parse_value (S m)) g (join_comma (members ((k, v) :: kvs)) +:+ String "}" rest) =
  Some (string_members ((k, v) :: kvs), rest).
Proof.
  revert k v g. induction kvs as [|[k' v'] kvs IH]; intros k v [|g] Hg; [lia| |lia|].
  - cbn [fmap list_fmap join_comma]. rewrite member_append. cbn [parse_members]. read_back. done.
  - cbn [fmap list_fmap] in IH |- *. rewrite join_comma_cons2, append_assoc_str, member_append.
    cbn [parse_members]. read_back. rewrite IH by (cbn in Hg; lia). done.
Qed.

Lemma length_members (kvs : list (string * string)) :
  length kvs <= String.length (join_comma (members kvs)).
Proof.
  induction kvs as [|[k v] [|[k' v'] kvs] IH]; cbn [fmap list_fmap length]; [lia| |].
  - cbn [join_comma]. unfold member_text. rewrite length_append_str. cbn. lia.
  - rewrite join_comma_cons2, length_append_str. cbn [String.length]. cbn [fmap list_fmap length] in IH. lia.
Qed.

(** [JSON.parse] of an object of strings written by [JSON.stringify]. *)
Lemma JSON_parse_members (kvs : list (string * string)) :
  JSON_parse_value (String "{" (join_comma (members kvs) +:+ "}")) = Some (JSONObject (string_members kvs)).
Proof.
  destruct kvs as [|[k v] kvs]; [reflexivity|].
  pose proof (length_members ((k, v) :: kvs)) as Hl.
  assert (Ht : exists t, join_comma (members ((k, v) :: kvs)) +:+ "}" = String dq t).
  { destruct kvs as [|[k' v'] kvs]; cbn [fmap list_fmap];
      [cbn [join_comma]|rewrite join_comma_cons2, append_assoc_str]; rewrite member_append; eauto. }
  destruct Ht as [t Ht].
  assert (Hp : forall N, length kvs < N ->
            parse_value (S (S N)) (String "{" (join_comma (members ((k, v) :: kvs)) +:+ "}")) =
            Some (JSONObject (string_members ((k, v) :: kvs)), "")).
  { intros N HN. rewrite parse_value_S, skip_ws_cons by reflexivity.
    rewrite Ht, skip_ws_cons by reflexivity. cbn -[parse_members parse_value].
    rewrite <- Ht, (parse_members_join kvs k v "" (S N) N) by lia. done. }
  unfold JSON_parse_value.
  change (String.length (String "{" ?X)) with (S (String.length X)).
  rewrite Hp; [done|]. rewrite length_append_str. cbn [length] in Hl |- *. lia.
Qed.

(** The server reads, field by field, the body the client wrote. *)
Lemma server_body_request (rq : request) : server_body rq = Some (body_of_request rq).
Proof.
  destruct rq as [m [c|] [p|]]; unfold server_body, request_text, stringify_fields;
    cbn [defined_fields]; rewrite JSON_parse_members; reflexivity.
Qed.

(** The client parses the members the handler wrote. *)
Lemma client_reply_text (st : Z) (b : res_body) :
  client_reply (Responded st b) =
    reply_of_json (JSONObject (string_members (defined_fields
      [("message", Some (res_message b)); ("conversationId", res_conversationId b);
       ("messageId", res_messageId b)]))).
Proof. unfold client_reply, response_text, stringify_fields. by rewrite JSON_parse_members. Qed.
