(* ===== verification/System.v ===== *)
(** * Client and server composed

    A request in flight on the client ([Form.pending]) is delivered to the
    server: its body travels as the JSON text [JSON.stringify] writes and
    Next.js parses ([Wire.server_body]; an [undefined] identifier is left
    out, so the server reads [undefined]), [handler] runs on it, and the
    outcome settles the client's suspended call.  A 200 response travels
    as JSON text too and is destructured into a [reply]
    ([Wire.client_reply]); an unhandled rejection becomes the 500 page of
    Next.js, whose body is not JSON, so [.json()] throws and the client
    takes its error path.  The completion service is any
    instance of [Relay.CompletionService]. *)

From S2P Require Import Prelude JsValue Json JsonValue Storage Relay Form Wire.

Section Composition.
Context {S : Type} `{CompletionService S}.

Record system := mk_system {
  sys_client : world;
  sys_service : S;
  sys_env : env
}.

Inductive sys_event :=
| Browser (e : event)
| Deliver (id : nat).

Definition deliver (id : nat) (s : system) : system :=
  match find_pending id (w_pending (sys_client s)) with
  | Some p =>
      match server_body (request_of p) with
      | Some b =>
          let r := handler (sys_env s) b (sys_service s) in
          mk_system (settle id (client_reply (hr_outcome r)) (sys_client s))
            (hr_service r) (sys_env s)
      | None => mk_system (settle id None (sys_client s)) (sys_service s) (sys_env s)
      end
  | None => s
  end.

Definition sys_step (s : system) (e : sys_event) : system :=
  match e with
  | Browser e => mk_system (step (sys_client s) e) (sys_service s) (sys_env s)
  | Deliver id => deliver id s
  end.

Definition initial_system (st : storage) (svc : S) (e : env) : system :=
  mk_system (initial_world st) svc e.
End Composition.

Arguments system S : clear implicits.

Section SystemTheorems.
Context {S : Type} `{CompletionService S}.

Lemma deliver_found_text (id : nat) (s : system S) (p : pending) :
  find_pending id (w_pending (sys_client s)) = Some p ->
  let r := handler (sys_env s) (body_of_request (request_of p)) (sys_service s) in
  deliver id s = mk_system (step (sys_client s) (Settle id (client_reply (hr_outcome r))))
                   (hr_service r) (sys_env s).
Proof. intros Hf. unfold deliver. by rewrite Hf, server_body_request. Qed.

(** The first request of a page: no identifiers yet, so a new session. *)
Lemma handler_new_session_reply (e : env) (u : string) (s0 s1 : S) (m : chat_message) :
  client_error (make_config e) = None -> u <> "" ->
  sendMessage (make_config e) (JString u) None s0 = (s1, inl m) ->
  handler e (mk_req_body (JString u) (JString "") (JString "")) s0 =
    mk_handler_result s1 (build_effects (make_config e) ++ [SendMessage (JString u) None])
      (Responded 200 (body_of_message m)).
Proof.
  intros He Hu Hs. unfold handler. rewrite He. cbn [body_message].
  replace (strict_eq_str (JString u) "") with false by (simpl; by case_streq).
  change (request_opts _) with (@None send_opts). by rewrite Hs.
Qed.

(** Every request sent and every call in flight carries a non-empty text. *)
Definition requests_nonempty (w : world) : Prop :=
  Forall (fun rq => rq_message rq <> "") (w_sent w) /\
  Forall (fun p => pd_userMessage p <> "") (w_pending w).

Lemma requests_nonempty_step (w : world) (e : event) :
  requests_nonempty w -> requests_nonempty (step w e).
Proof.
  intros [Hs Hp]. unfold requests_nonempty.
  destruct (step_requests w e) as [[-> Hsub] | (p & Hu & -> & ->)].
  - split; [done|]. apply Forall_forall. intros q Hq.
    apply Hsub in Hq.
    by apply (proj1 (Forall_forall _ _) Hp).
  - split; apply Forall_app; split; auto.
Qed.

Lemma requests_nonempty_sys_step (s : system S) (e : sys_event) :
  requests_nonempty (sys_client s) -> requests_nonempty (sys_client (sys_step s e)).
Proof.
  intros Hr. destruct e as [e|id]; simpl; [by apply requests_nonempty_step|].
  unfold deliver. destruct (find_pending id (w_pending (sys_client s))); [|done].
  destruct (server_body _); simpl; by apply (requests_nonempty_step _ (Settle id _)).
Qed.

(** C23. Composition: the browser client never reaches the server's
    empty-message shortcut.  In every state reachable from a fresh page,
    whatever the events and the service's answers, every request the
    client has sent is forwarded to the service by [relay_spec]. *)
Theorem client_never_prompted (st : storage) (svc : S) (e : env) (sys : system S) :
  reachable sys_step (fun _ => True) (initial_system st svc e) sys ->
  forall rq, rq ∈ w_sent (sys_client sys) -> relay_spec (body_of_request rq) <> Prompt.
Proof.
  intros Hr.
  assert (Hinv : requests_nonempty (sys_client sys)).
  { revert sys Hr. apply (reachable_ind' sys_step (fun _ => True)
                           (fun s => requests_nonempty (sys_client s))).
    - destruct (mount_idle st 0 [] []) as (_ & Hp & Hs). unfold requests_nonempty.
      cbn [sys_client initial_system]. unfold initial_world. rewrite Hp, Hs. split; constructor.
    - intros s ev Hs _. by apply requests_nonempty_sys_step. }
  intros rq Hin. destruct Hinv as [Hs _].
  pose proof (proj1 (Forall_forall _ _) Hs rq Hin) as Hne.
  unfold relay_spec, body_of_request. simpl. by case_streq.
Qed.


(** C1. The end-to-end scenario of the spec, for any service whose
    client the configuration builds without a throw: on a fresh page the user sends "hello", the service answers [t] in
    conversation [c] with message id [i]; the transcript is
    ["hello"; t], both identifiers are adopted and stored; the next
    message is sent with [c] and [i] and the server passes them to the
    service as the continuation. *)
Theorem end_to_end_continuation (e : env) (s0 s1 : S) (t c i : string) :
  client_error (make_config e) = None ->
  sendMessage (make_config e) (JString "hello") None s0 =
    (s1, inl (mk_chat_message t (Some c) i)) ->
  c <> "" -> i <> "" ->
  let sys := run sys_step (initial_system ∅ s0 e)
      [Browser (TypeInput "hello"); Browser (KeyDown "Enter" false); Deliver 0;
       Browser (TypeInput "again"); Browser (KeyDown "Enter" false)] in
  response (w_form (sys_client sys)) = ["hello"; t; "again"] /\
  getItem key_conversationId (w_storage (sys_client sys)) = Some c /\
  getItem key_messageId (w_storage (sys_client sys)) = Some i /\
  w_sent (sys_client sys) =
    [mk_request "hello" (Some "") (Some ""); mk_request "again" (Some c) (Some i)] /\
  request_opts (body_of_request (mk_request "again" (Some c) (Some i))) =
    Some (mk_send_opts (JString c) (JString i)).
Proof.
  intros He Hs Hc Hi. cbv zeta. cbn [run fold_left sys_step].
  rewrite (deliver_found_text 0 _ (mk_pending 0 "hello" [] (Some "") (Some ""))) by reflexivity.
  cbv zeta. unfold initial_system. rewrite initial_world_empty. cbn [sys_client sys_service sys_env].
  change (body_of_request (request_of _)) with (mk_req_body (JString "hello") (JString "") (JString "")).
  rewrite (handler_new_session_reply e "hello" s0 s1 _ He ltac:(discriminate) Hs).
  cbn [hr_outcome hr_service]. rewrite client_reply_text.
  simpl. rewrite (strict_neq_opt_some "" c), (strict_neq_opt_some "" i) by congruence.
  simpl. repeat split. by apply request_opts_strings.
Qed.
(** The client reads, field by field, the body the handler wrote. *)
Lemma client_reply_outcome (o : outcome) : client_reply o = reply_of_outcome o.
Proof. destruct o as [st [m [c|] [i|]]|err]; [..|done]; by rewrite client_reply_text. Qed.

Lemma deliver_found (id : nat) (s : system S) (p : pending) :
  find_pending id (w_pending (sys_client s)) = Some p ->
  let r := handler (sys_env s) (body_of_request (request_of p)) (sys_service s) in
  deliver id s = mk_system (step (sys_client s) (Settle id (reply_of_outcome (hr_outcome r))))
                   (hr_service r) (sys_env s).
Proof. intros Hf. rewrite (deliver_found_text id s p Hf). by rewrite client_reply_outcome. Qed.


(** C34. A reply without a conversation id (the field is left out when
    the service's message has none): the client adopts [undefined], and
    [localStorage.setItem] stores the text "undefined".  The next message
    then goes out without a conversation id and the server starts a new
    session; after a reload the restored "undefined" is sent as a
    conversation id and the server continues with it. *)
Theorem undefined_conversation_id (e : env) (s0 s1 : S) (t i : string) :
  client_error (make_config e) = None ->
  sendMessage (make_config e) (JString "hello") None s0 =
    (s1, inl (mk_chat_message t None i)) ->
  i <> "" ->
  let sys := run sys_step (initial_system ∅ s0 e)
      [Browser (TypeInput "hello"); Browser (KeyDown "Enter" false); Deliver 0;
       Browser (TypeInput "again"); Browser (KeyDown "Enter" false)] in
  let sys' := run sys_step sys
      [Browser Reload; Browser Revalidate; Browser (TypeInput "more");
       Browser (KeyDown "Enter" false)] in
  getItem key_conversationId (w_storage (sys_client sys)) = Some "undefined" /\
  last (w_sent (sys_client sys)) = Some (mk_request "again" None (Some i)) /\
  request_opts (body_of_request (mk_request "again" None (Some i))) = None /\
  last (w_sent (sys_client sys')) = Some (mk_request "more" (Some "undefined") (Some i)) /\
  request_opts (body_of_request (mk_request "more" (Some "undefined") (Some i))) =
    Some (mk_send_opts (JString "undefined") (JString i)).
Proof.
  intros He Hs Hi. cbv zeta. cbn [run fold_left sys_step].
  rewrite (deliver_found 0 _ (mk_pending 0 "hello" [] (Some "") (Some ""))) by reflexivity.
  cbv zeta. unfold initial_system. rewrite initial_world_empty. cbn [sys_client sys_service sys_env].
  change (body_of_request (request_of _)) with (mk_req_body (JString "hello") (JString "") (JString "")).
  rewrite (handler_new_session_reply e "hello" s0 s1 _ He ltac:(discriminate) Hs).
  cbn [sys_client step].
  rewrite (revalidate_reload_full _ ["hello"; t] "undefined" i); [| | | discriminate | | done];
    simpl; rewrite (strict_neq_opt_some "" i) by congruence; simpl; [| reflexivity..].
  case_streq. repeat split. by apply request_opts_strings.
Qed.
End SystemTheorems.

(** ** Witnesses, with the scripted service *)

Lemma end_to_end_continuation_witness :
  let sys := run sys_step (initial_system ∅ [reply_hi] ∅)
      [Browser (TypeInput "hello"); Browser (KeyDown "Enter" false); Deliver 0;
       Browser (TypeInput "again"); Browser (KeyDown "Enter" false)] in
  response (w_form (sys_client sys)) = ["hello"; "hi"; "again"] /\
  getItem key_conversationId (w_storage (sys_client sys)) = Some "c1" /\
  getItem key_messageId (w_storage (sys_client sys)) = Some "m1" /\
  w_sent (sys_client sys) =
    [mk_request "hello" (Some "") (Some ""); mk_request "again" (Some "c1") (Some "m1")] /\
  request_opts (body_of_request (mk_request "again" (Some "c1") (Some "m1"))) =
    Some (mk_send_opts (JString "c1") (JString "m1")).
Proof. apply (end_to_end_continuation ∅ [reply_hi] []); [reflexivity | reflexivity | discriminate..]. Defined.

Lemma undefined_conversation_id_witness :
  let m := mk_chat_message "hi" None "m1" in
  let sys := run sys_step (initial_system ∅ [m] ∅)
      [Browser (TypeInput "hello"); Browser (KeyDown "Enter" false); Deliver 0;
       Browser (TypeInput "again"); Browser (KeyDown "Enter" false)] in
  let sys' := run sys_step sys
      [Browser Reload; Browser Revalidate; Browser (TypeInput "more");
       Browser (KeyDown "Enter" false)] in
  getItem key_conversationId (w_storage (sys_client sys)) = Some "undefined" /\
  last (w_sent (sys_client sys)) = Some (mk_request "again" None (Some "m1")) /\
  request_opts (body_of_request (mk_request "again" None (Some "m1"))) = None /\
  last (w_sent (sys_client sys')) = Some (mk_request "more" (Some "undefined") (Some "m1")) /\
  request_opts (body_of_request (mk_request "more" (Some "undefined") (Some "m1"))) =
    Some (mk_send_opts (JString "undefined") (JString "m1")).
Proof. apply (undefined_conversation_id ∅ _ [] "hi" "m1"); [reflexivity | reflexivity | discriminate]. Defined.

Lemma client_never_prompted_witness :
  relay_spec (body_of_request (mk_request "hello" (Some "") (Some ""))) <> Prompt.
Proof.
  apply (client_never_prompted ∅ [reply_hi] ∅
           (run sys_step (initial_system ∅ [reply_hi] ∅)
              [Browser (TypeInput "hello"); Browser ClickSubmit; Deliver 0])).
  - apply reachable_run. eexists. split; [|reflexivity]. repeat constructor.
  - vm_compute. left.
Defined.
