(* ===== verification/Service.v ===== *)
(** * The completion service and its Keyv message store

    [main.ts] builds, for every request, a Keyv store over Redis in the
    namespace ["chatgpt-demo"] and a [ChatGPTAPI] client of the [chatgpt]
    package that keeps its messages there.  Neither is code of this
    repository; this file models them from the spec (sections 2, 3 and 6),
    as a concrete instance [chatgpt_service] of [Relay.CompletionService]:

    - the store maps the Keyv key ["<namespace>:<id>"] of a message to the
      message (role, text, parent id, conversation id); Redis outlives the
      request, so the store is the service's state across requests;
    - [sendMessage] takes the conversation id of the options or a fresh
      one, stores the user's message under a fresh id with the given
      parent, builds the prompt by following parent ids from that parent
      ([build_history]), asks the model, and stores the reply, whose
      parent is the user's message;
    - ids come from a counter rendered as distinct strings ([uuidv4]),
      standing for [uuidv4()], drawn in the order of the library: the
      conversation id (when none is given), the user message, the reply;
    - the prompt budget (tokens in the library) is a number of earlier
      turns, [ms_budget]; the walk stops when it is spent, at a falsy
      parent id or at a missing message;
    - the model is a function from the prompt to a text, or to a failure
      (an API error), which rejects [sendMessage] after the user's message
      has been stored.

    [chain] is the reference definition of the conversation a message id
    designates; [build_history] is shown equal to it given enough fuel, and
    to its last [fuel] turns otherwise.  The handler of [Relay] over this
    instance forwards a message that is not a string, and answers a
    continued conversation from its last [ms_budget] turns. *)

From S2P Require Import Prelude JsValue Relay.
From stdpp Require Import pretty.
From Stdlib Require Import ZArith.

(** ** Data *)

Inductive msg_role := RoleUser | RoleAssistant.

#[export] Instance msg_role_eq_dec : EqDecision msg_role.
Proof. solve_decision. Defined.

Abbreviation turn := (msg_role * string)%type.

(** A [ChatMessage] as the client stores it with [messageStore.set]. *)
Record stored_message := mk_stored_message {
  sm_role : msg_role;
  sm_text : string;
  sm_parentMessageId : jsval;
  sm_conversationId : string
}.

Record msg_store := mk_msg_store {
  ms_messages : gmap string stored_message;
  ms_next : nat;
  ms_budget : nat;
  ms_model : list turn -> option string
}.

(** [String(v)] on the primitive values. *)
Definition js_string_of (v : jsval) : string :=
  match v with
  | JUndefined => "undefined"
  | JNull => "null"
  | JBool true => "true"
  | JBool false => "false"
  | JNumber n => pretty n
  | JString s => s
  end.

(** Keyv prefixes every key with its namespace. *)
Definition keyv_key (ns : string) (id : jsval) : string := ns +:+ String ":" (js_string_of id).

(** The namespace the handler gives its Keyv store. *)
Abbreviation ns_demo := "chatgpt-demo".

Definition uuidv4 (n : nat) : string := "uuid-" +:+ pretty n.

(** ** The service *)

(** The walk of [_buildPrompt]: while the budget lasts and the parent id
    is truthy and names a stored message, put that message before the
    turns collected so far and continue with its parent. *)
Fixpoint build_history (fuel : nat) (ns : string) (msgs : gmap string stored_message)
    (parent : jsval) : list turn :=
  match fuel with
  | 0 => []
  | S f =>
      if truthy parent then
        match msgs !! keyv_key ns parent with
        | Some m => build_history f ns msgs (sm_parentMessageId m) ++ [(sm_role m, sm_text m)]
        | None => []
        end
      else []
  end.

(** [const { conversationId = uuidv4(), parentMessageId } = opts]. *)
Definition conversation_of (opts : option send_opts) (n : nat) : string * nat :=
  match opts with
  | Some o =>
      match opt_conversationId o with
      | JUndefined => (uuidv4 n, S n)
      | v => (js_string_of v, n)
      end
  | None => (uuidv4 n, S n)
  end.

Definition parent_of (opts : option send_opts) : jsval :=
  match opts with
  | Some o => opt_parentMessageId o
  | None => JUndefined
  end.

Definition chatgpt_sendMessage (cfg : api_config) (text : jsval) (opts : option send_opts)
    (s : msg_store) : msg_store * (chat_message + string) :=
  let ns := cfg_namespace cfg in
  let '(cid, n) := conversation_of opts (ms_next s) in
  let parent := parent_of opts in
  let uid := uuidv4 n in
  let rid := uuidv4 (S n) in
  let t := js_string_of text in
  let msgs1 := <[keyv_key ns (JString uid) := mk_stored_message RoleUser t parent cid]>
                 (ms_messages s) in
  let prompt := build_history (ms_budget s) ns msgs1 parent ++ [(RoleUser, t)] in
  match ms_model s prompt with
  | Some r =>
      (mk_msg_store (<[keyv_key ns (JString rid) :=
                         mk_stored_message RoleAssistant r (JString uid) cid]> msgs1)
         (S (S n)) (ms_budget s) (ms_model s),
       inl (mk_chat_message r (Some cid) rid))
  | None =>
      (mk_msg_store msgs1 (S (S n)) (ms_budget s) (ms_model s),
       inr "OpenAI error")
  end.

(** The constructor of [ChatGPTAPI] checks its options:
    [invariant(this._apiKey, 'OpenAI missing required apiKey')] throws on
    an empty key. *)
Definition chatgpt_client_error (cfg : api_config) : option string :=
  if String.eqb (cfg_apiKey cfg) "" then Some "OpenAI missing required apiKey" else None.

#[export] Instance chatgpt_service : CompletionService msg_store := {
  client_error := chatgpt_client_error;
  sendMessage := chatgpt_sendMessage
}.

(** ** The conversation a message id designates *)

(** The reference definition: the turns reached by following parent ids,
    oldest first, with the three ways the walk ends. *)
Inductive chain (ns : string) (msgs : gmap string stored_message) : jsval -> list turn -> Prop :=
| chain_root p : truthy p = false -> chain ns msgs p []
| chain_missing p : truthy p = true -> msgs !! keyv_key ns p = None -> chain ns msgs p []
| chain_link p m l :
    truthy p = true -> msgs !! keyv_key ns p = Some m ->
    chain ns msgs (sm_parentMessageId m) l ->
    chain ns msgs p (l ++ [(sm_role m, sm_text m)]).

(** A chain that ends at a falsy parent id, the first message of a
    conversation: it names no missing message. *)
Inductive thread (ns : string) (msgs : gmap string stored_message) : jsval -> list turn -> Prop :=
| thread_root p : truthy p = false -> thread ns msgs p []
| thread_link p m l :
    truthy p = true -> msgs !! keyv_key ns p = Some m ->
    thread ns msgs (sm_parentMessageId m) l ->
    thread ns msgs p (l ++ [(sm_role m, sm_text m)]).

#[export] Hint Constructors chain thread : chat.

(** ** Lemmas *)

(** A configuration with a key: the constructor does not throw. *)
Lemma chatgpt_client_ok (e : env) :
  api_key e <> "" -> @client_error _ chatgpt_service (make_config e) = None.
Proof.
  intros Hk. cbn [client_error chatgpt_service]. unfold chatgpt_client_error. cbn [cfg_apiKey make_config].
  apply String.eqb_neq in Hk. by rewrite ?Hk.
Qed.

Lemma append_cancel_l_str (a x y : string) : a +:+ x = a +:+ y -> x = y.
Proof. induction a as [|c a IH]; [done|]. rewrite !append_cons_str. intros [=]. auto. Qed.

Lemma uuidv4_inj (n m : nat) : uuidv4 n = uuidv4 m -> n = m.
Proof. unfold uuidv4. intros H%append_cancel_l_str. by apply (inj pretty). Qed.

Lemma uuidv4_not_empty (n : nat) : uuidv4 n <> "".
Proof. discriminate. Qed.

Lemma keyv_key_uuid_inj (ns : string) (n m : nat) :
  keyv_key ns (JString (uuidv4 n)) = keyv_key ns (JString (uuidv4 m)) -> n = m.
Proof. unfold keyv_key. intros H%append_cancel_l_str. apply uuidv4_inj.
  change (String ":" (uuidv4 n) = String ":" (uuidv4 m)) in H. congruence.
Qed.

Lemma keyv_uuid_ne (ns : string) (n m : nat) :
  n <> m -> keyv_key ns (JString (uuidv4 n)) <> keyv_key ns (JString (uuidv4 m)).
Proof. intros Hne E. by apply Hne, (keyv_key_uuid_inj ns). Qed.


Lemma thread_chain ns msgs p l : thread ns msgs p l -> chain ns msgs p l.
Proof. induction 1; eauto with chat. Qed.

(** Enough fuel gives the whole chain. *)
Lemma build_history_chain ns msgs p l fuel :
  chain ns msgs p l -> length l < fuel -> build_history fuel ns msgs p = l.
Proof.
  intros Hc. revert fuel.
  induction Hc as [p Hp|p Hp Hm|p m l Hp Hm Hc IH]; intros [|fuel] Hf; simpl in *;
    try lia; rewrite ?Hp, ?Hm; try done.
  rewrite length_app in Hf. simpl in Hf. rewrite IH by lia. done.
Qed.

(** A walk that stops before its fuel is spent has followed a chain. *)
Lemma build_history_sound ns msgs p fuel :
  length (build_history fuel ns msgs p) < fuel -> chain ns msgs p (build_history fuel ns msgs p).
Proof.
  revert p. induction fuel as [|fuel IH]; intros p Hf; simpl in *; [lia|].
  destruct (truthy p) eqn:Hp; [|auto with chat].
  destruct (msgs !! keyv_key ns p) as [m|] eqn:Hm; [|auto with chat].
  rewrite length_app in Hf. simpl in Hf.
  apply chain_link; auto. apply IH. lia.
Qed.

(** With less fuel than turns, the walk gives the last [fuel] turns. *)
Lemma build_history_suffix ns msgs p l fuel :
  chain ns msgs p l -> build_history fuel ns msgs p = drop (length l - fuel) l.
Proof.
  intros Hc. revert fuel.
  induction Hc as [p Hp|p Hp Hm|p m l Hp Hm Hc IH]; intros [|fuel]; simpl;
    rewrite ?Hp, ?Hm; rewrite ?drop_all; try done.
  - rewrite Nat.sub_0_r. symmetry. apply drop_all.
  - rewrite IH, length_app. simpl.
    replace (length l + 1 - S fuel) with (length l - fuel) by lia.
    rewrite drop_app_le by lia. done.
Qed.

(** Storing a message under a key the chain does not visit leaves it. *)
Lemma thread_insert ns msgs p l k m :
  msgs !! k = None -> thread ns msgs p l -> thread ns (<[k := m]> msgs) p l.
Proof.
  intros Hk. induction 1 as [p Hp|p m' l Hp Hm Ht IH]; [auto with chat|].
  apply thread_link; auto.
  rewrite lookup_insert_ne; [done|]. intros ->. congruence.
Qed.

(** The reference definition and the walk agree: a chain of [n] turns is
    what the walk gives with [n + 1] units of fuel, and nothing else is. *)
Lemma chain_build_history ns msgs p l :
  chain ns msgs p l <-> build_history (S (length l)) ns msgs p = l.
Proof.
  split; [intros Hc; apply build_history_chain; [done | lia]|].
  intros Hb. rewrite <- Hb. apply build_history_sound. rewrite Hb. lia.
Qed.

(** The identifiers the service hands out. *)
Definition store_fresh (ns : string) (s : msg_store) : Prop :=
  forall k, ms_next s <= k -> ms_messages s !! keyv_key ns (JString (uuidv4 k)) = None.

Lemma conversation_of_ge (opts : option send_opts) (n : nat) :
  n <= snd (conversation_of opts n).
Proof. destruct opts as [[[] ?]|]; simpl; lia. Qed.

(** [sendMessage] continuing the conversation [l] designated by [m]. *)
Lemma chatgpt_sendMessage_continue (cfg : api_config) (s : msg_store) (u c m : string)
    (l : list turn) :
  store_fresh (cfg_namespace cfg) s -> thread (cfg_namespace cfg) (ms_messages s) (JString m) l ->
  let n := ms_next s in
  let ns := cfg_namespace cfg in
  let msgs1 := <[keyv_key ns (JString (uuidv4 n)) := mk_stored_message RoleUser u (JString m) c]>
                 (ms_messages s) in
  chatgpt_sendMessage cfg (JString u) (Some (mk_send_opts (JString c) (JString m))) s =
    match ms_model s (drop (length l - ms_budget s) l ++ [(RoleUser, u)]) with
    | Some t =>
        (mk_msg_store (<[keyv_key ns (JString (uuidv4 (S n))) :=
                           mk_stored_message RoleAssistant t (JString (uuidv4 n)) c]> msgs1)
           (S (S n)) (ms_budget s) (ms_model s),
         inl (mk_chat_message t (Some c) (uuidv4 (S n))))
    | None => (mk_msg_store msgs1 (S (S n)) (ms_budget s) (ms_model s), inr "OpenAI error")
    end.
Proof.
  intros Hf Ht. unfold chatgpt_sendMessage.
  cbn [conversation_of parent_of js_string_of opt_conversationId opt_parentMessageId].
  rewrite (build_history_suffix _ _ _ l); [reflexivity|].
  apply thread_chain, thread_insert; [apply Hf; lia | done].
Qed.

(** [sendMessage] without options: a new conversation, whose prompt is the
    message alone, as the text [String(text)]. *)
Lemma chatgpt_sendMessage_new (cfg : api_config) (s : msg_store) (text : jsval) :
  let n := ms_next s in
  let ns := cfg_namespace cfg in
  let u := js_string_of text in
  let msgs1 := <[keyv_key ns (JString (uuidv4 (S n))) :=
                   mk_stored_message RoleUser u JUndefined (uuidv4 n)]> (ms_messages s) in
  chatgpt_sendMessage cfg text None s =
    match ms_model s [(RoleUser, u)] with
    | Some t =>
        (mk_msg_store (<[keyv_key ns (JString (uuidv4 (S (S n)))) :=
                           mk_stored_message RoleAssistant t (JString (uuidv4 (S n))) (uuidv4 n)]> msgs1)
           (S (S (S n))) (ms_budget s) (ms_model s),
         inl (mk_chat_message t (Some (uuidv4 n)) (uuidv4 (S (S n)))))
    | None => (mk_msg_store msgs1 (S (S (S n))) (ms_budget s) (ms_model s), inr "OpenAI error")
    end.
Proof.
  unfold chatgpt_sendMessage. cbn [conversation_of parent_of].
  replace (build_history (ms_budget s) _ _ JUndefined) with (@nil turn)
    by (destruct (ms_budget s); reflexivity).
  reflexivity.
Qed.


(** ** The server's guard on the message *)

(** C25. The handler tests the message only against [''], not its type:
    on a server with an API key, a body whose [message] is not a string (missing, [null], a number, a
    boolean) and that does not continue a session reaches the model as a
    new conversation whose one turn is [String(message)], for a missing
    field the text "undefined", and the reply is sent back. *)
Theorem handler_forwards_non_string_message (e : env) (s : msg_store) (b : req_body) :
  api_key e <> "" -> (forall x, body_message b <> JString x) -> request_opts b = None ->
  hr_outcome (handler e b s) =
    match ms_model s [(RoleUser, js_string_of (body_message b))] with
    | Some t => Responded 200 (mk_res_body t (Some (uuidv4 (ms_next s))) (Some (uuidv4 (S (S (ms_next s))))))
    | None => Rejected "OpenAI error"
    end.
Proof.
  intros Hk Hm Ho. rewrite handler_equation_forward; [| by apply chatgpt_client_ok |].
  - cbn zeta. rewrite Ho. cbn [sendMessage chatgpt_service].
    rewrite chatgpt_sendMessage_new. by destruct (ms_model s _).
  - destruct (body_message b) eqn:E; try reflexivity. by destruct (Hm s0).
Qed.

Lemma handler_forwards_non_string_message_witness :
  hr_outcome (handler {[ "OPENAI_API_KEY" := "sk-demo" ]} (mk_req_body JUndefined JUndefined JUndefined)
                (mk_msg_store ∅ 0 10 (fun _ => Some "ok"))) =
    match ms_model (mk_msg_store ∅ 0 10 (fun _ => Some "ok"))
            [(RoleUser, js_string_of (body_message (mk_req_body JUndefined JUndefined JUndefined)))] with
    | Some t => Responded 200 (mk_res_body t (Some (uuidv4 0)) (Some (uuidv4 2)))
    | None => Rejected "OpenAI error"
    end.
Proof. apply handler_forwards_non_string_message; [vm_compute; discriminate | discriminate | reflexivity]. Defined.

(** ** The client built before the guard *)

(** C10. The handler builds the client before it looks at the message,
    and [ChatGPTAPI]'s constructor throws on an empty key: when
    [OPENAI_API_KEY] is unset or empty, every request, the empty message
    included, is rejected with "OpenAI missing required apiKey" once the
    store and the client are built, and the message store is left as it
    was.  The empty-message guard never answers then, although section
    4.2 of the spec makes it an answer on every path. *)
Theorem handler_without_api_key_rejects (e : env) (s : msg_store) (b : req_body) :
  api_key e = "" ->
  handler e b s =
    mk_handler_result s (build_effects (make_config e)) (Rejected "OpenAI missing required apiKey").
Proof.
  intros Hk. apply handler_equation_client_error.
  cbn [client_error chatgpt_service]. unfold chatgpt_client_error. cbn [cfg_apiKey make_config].
  by rewrite Hk.
Qed.

Lemma handler_without_api_key_rejects_witness :
  handler ∅ (mk_req_body (JString "") JUndefined JUndefined) (mk_msg_store ∅ 0 10 (fun _ => Some "ok")) =
    mk_handler_result (mk_msg_store ∅ 0 10 (fun _ => Some "ok")) (build_effects (make_config ∅))
      (Rejected "OpenAI missing required apiKey").
Proof. apply handler_without_api_key_rejects. reflexivity. Defined.

(** ** The prompt budget *)

(** C35. The prompt budget: on a server with an API key, on a request
    that continues a conversation
    [l] of the store, the handler answers with the model's reply to the
    last [min budget |l|] turns of [l] followed by the message, a suffix
    of the whole conversation, or rejects when the model fails; the
    reply keeps the conversation id and gets the next fresh message id. *)
Theorem handler_prompt_within_budget (e : env) (s : msg_store) (u c m : string) (l : list turn) :
  api_key e <> "" -> u <> "" -> c <> "" -> m <> "" -> store_fresh ns_demo s ->
  thread ns_demo (ms_messages s) (JString m) l ->
  let pr := drop (length l - ms_budget s) l ++ [(RoleUser, u)] in
  hr_outcome (handler e (mk_req_body (JString u) (JString c) (JString m)) s) =
    match ms_model s pr with
    | Some t => Responded 200 (mk_res_body t (Some c) (Some (uuidv4 (S (ms_next s)))))
    | None => Rejected "OpenAI error"
    end /\
  length pr = S (Nat.min (ms_budget s) (length l)) /\
  pr `suffix_of` (l ++ [(RoleUser, u)]).
Proof.
  intros Hk Hu Hc Hm Hfresh Ht. cbv zeta. split; [|split].
  - rewrite handler_equation_forward by (by apply chatgpt_client_ok || (simpl; by case_streq)).
    cbn [body_message]. rewrite (request_opts_strings _ c m Hc Hm).
    cbn [sendMessage chatgpt_service].
    rewrite (chatgpt_sendMessage_continue (make_config e) s u c m l Hfresh Ht).
    by destruct (ms_model s _).
  - rewrite length_app, length_drop. simpl. lia.
  - exists (take (length l - ms_budget s) l). by rewrite app_assoc, take_drop.
Qed.

(** A store holding one exchange. *)
Definition exchange_store : msg_store :=
  mk_msg_store
    (<[keyv_key ns_demo (JString (uuidv4 2)) :=
        mk_stored_message RoleAssistant "hi" (JString (uuidv4 1)) (uuidv4 0)]>
     {[keyv_key ns_demo (JString (uuidv4 1)) :=
        mk_stored_message RoleUser "hello" JUndefined (uuidv4 0)]})
    3 10 (fun _ => Some "ok").

Lemma exchange_store_fresh : store_fresh ns_demo exchange_store.
Proof.
  intros k Hk. simpl in Hk. cbn [ms_messages exchange_store].
  rewrite lookup_insert_ne by (apply keyv_uuid_ne; lia).
  rewrite lookup_singleton_ne by (apply keyv_uuid_ne; lia). done.
Qed.

Lemma exchange_store_thread :
  thread ns_demo (ms_messages exchange_store) (JString (uuidv4 2))
    (([] ++ [(RoleUser, "hello")]) ++ [(RoleAssistant, "hi")]).
Proof.
  apply thread_link with (m := mk_stored_message RoleAssistant "hi" (JString (uuidv4 1)) (uuidv4 0));
    [reflexivity | apply lookup_insert_eq |].
  apply thread_link with (m := mk_stored_message RoleUser "hello" JUndefined (uuidv4 0));
    [reflexivity | | by constructor].
  cbn [ms_messages exchange_store]. rewrite lookup_insert_ne by (apply keyv_uuid_ne; lia).
  apply lookup_singleton_eq.
Qed.

Lemma handler_prompt_within_budget_witness :
  let l := ([] ++ [(RoleUser, "hello")]) ++ [(RoleAssistant, "hi")] in
  let pr := drop (length l - ms_budget exchange_store) l ++ [(RoleUser, "again")] in
  hr_outcome (handler {[ "OPENAI_API_KEY" := "sk-demo" ]} (mk_req_body (JString "again") (JString (uuidv4 0)) (JString (uuidv4 2)))
                exchange_store) =
    match ms_model exchange_store pr with
    | Some t => Responded 200 (mk_res_body t (Some (uuidv4 0)) (Some (uuidv4 (S (ms_next exchange_store)))))
    | None => Rejected "OpenAI error"
    end /\
  length pr = S (Nat.min (ms_budget exchange_store) (length l)) /\
  pr `suffix_of` (l ++ [(RoleUser, "again")]).
Proof.
  apply handler_prompt_within_budget;
    [vm_compute; discriminate | discriminate | apply uuidv4_not_empty | apply uuidv4_not_empty | apply exchange_store_fresh |
     apply exchange_store_thread].
Defined.
