(* ===== verification/Continuity.v ===== *)
(** * Conversation continuity: the client's transcript and the message store

    [System] composed with the concrete service of [Service]: the
    [ChatGPTAPI] client over its Keyv store.  The spec's protocol (its
    section 1) threads a conversation across stateless requests through
    the two identifiers the client holds.  The invariant [coupled] states
    that it does so on the Enter path when the server has an API key (so
    that the client's constructor does not throw, see [Relay.handler])
    and the model answers: the
    conversation the store holds for the client's message id is the
    transcript, with the user's turns at even positions, the roles the
    client draws; while a request is in flight, the transcript has the
    user's text at its end and the suspended call holds the conversation
    before it.  [localStorage] holds what the client shows, or, while a
    request is in flight, what it showed before ([stored_ok]), so that a
    reload, whose mount restores the page from it, keeps the coupling.
    The first page is loaded over a storage that holds a conversation of
    the store, or nothing ([storage_ok]).

    The events of that path ([enter_event]) are typing, key presses,
    reloads and deliveries; the submit button (two requests in flight,
    see [Form]), Reset and revalidation while a request is in flight (see
    [Form]) and a network failure without a delivery break the coupling
    and are left out of the invariant.  Two theorems start from a coupled
    state and follow what breaks it: a failed model call, whose turn the
    client keeps but the store leaves unreferenced, and two requests sent
    with the button, which fork the conversation in the store. *)

From S2P Require Import Prelude JsValue Json Storage Relay Form Wire System Service.

(** The namespace [main.ts] gives its Keyv store. *)

(** A transcript read as alternating turns, the user's first. *)
Definition as_turns (l : list string) : list turn :=
  imap (fun i t => (if Nat.even i then RoleUser else RoleAssistant, t)) l.

(** The bubble the client draws for a turn of the store. *)
Definition view_role (r : msg_role) : role :=
  match r with
  | RoleUser => UserTurn
  | RoleAssistant => ReplyTurn
  end.

(** The client's identifiers: both empty (no session yet) or both set. *)
Definition ids_ok (c m : option string) : Prop :=
  (c = Some "" /\ m = Some "") \/
  (exists c' m', c = Some c' /\ m = Some m' /\ c' <> "" /\ m' <> "").

(** The message id [m] designates the conversation [h] in the store. *)
Definition history_ok (s : msg_store) (m : option string) (h : list string) : Prop :=
  Nat.even (length h) = true /\ thread ns_demo (ms_messages s) (of_option m) (as_turns h).

(** What a page mounted over [st] restores: the transcript [l] and the
    identifiers [c] and [m]. *)
Definition stored_state (st : storage) (l : list string) (c m : option string) : Prop :=
  stored_response (getItem key_response st) = Some l /\
  stored_id (getItem key_conversationId st) = c /\ stored_id (getItem key_messageId st) = m.

(** [localStorage] holds what the client shows, or, while a request is in
    flight, what it showed before the request. *)
Definition stored_ok (w : world) : Prop :=
  match w_pending w with
  | [] => stored_state (w_storage w) (response (w_form w)) (currConversationId (w_form w))
            (currMessageId (w_form w))
  | p :: _ => stored_state (w_storage w) (pd_response p) (pd_conversationId p) (pd_messageId p)
  end.

(** A browser whose storage holds a conversation of the store, or
    nothing: the condition on the first page load. *)
Definition storage_ok (s : msg_store) (st : storage) : Prop :=
  exists l c m, stored_state st l c m /\ ids_ok c m /\ history_ok s m l.

Definition coupled (model : list turn -> option string) (budget : nat) (sys : system msg_store) : Prop :=
  let w := sys_client sys in
  let s := sys_service sys in
  let f := w_form w in
  api_key (sys_env sys) <> "" /\
  ms_model s = model /\ ms_budget s = budget /\ store_fresh ns_demo s /\
  ids_ok (currConversationId f) (currMessageId f) /\ stored_ok w /\
  match w_pending w with
  | [] => history_ok s (currMessageId f) (response f)
  | [p] => isLoading f = true /\ pd_userMessage p <> "" /\
           pd_conversationId p = currConversationId f /\ pd_messageId p = currMessageId f /\
           response f = pd_response p ++ [pd_userMessage p] /\
           history_ok s (pd_messageId p) (pd_response p)
  | _ => False
  end.

Inductive enter_event : sys_event -> Prop :=
| enter_type s : enter_event (Browser (TypeInput s))
| enter_key key shift : enter_event (Browser (KeyDown key shift))
| enter_reload : enter_event (Browser Reload)
| enter_deliver id : enter_event (Deliver id).

#[export] Hint Constructors enter_event : chat.

(** The prompt the service builds for the text [u] continuing the
    conversation [h]: its last [budget] turns, and the text. *)
Definition prompt_for (budget : nat) (h : list string) (u : string) : list turn :=
  drop (length h - budget) (as_turns h) ++ [(RoleUser, u)].

(** The prompt of a suspended call, whose captured transcript is the
    conversation its identifiers designate on the Enter path. *)
Definition prompt_of (budget : nat) (p : pending) : list turn :=
  prompt_for budget (pd_response p) (pd_userMessage p).

(** ** Lemmas on transcripts as turns *)

Lemma length_as_turns (l : list string) : length (as_turns l) = length l.
Proof. apply length_imap. Qed.

Lemma as_turns_exchange (h : list string) (u t : string) :
  Nat.even (length h) = true ->
  as_turns (h ++ [u; t]) = as_turns h ++ [(RoleUser, u); (RoleAssistant, t)].
Proof.
  intros He. unfold as_turns. rewrite imap_app. simpl.
  rewrite Nat.add_0_r, Nat.add_1_r, Nat.even_succ, <- Nat.negb_even, He. done.
Qed.

Lemma as_turns_nil (h : list string) : as_turns h = [] -> h = [].
Proof. intros H. apply length_zero_iff_nil. rewrite <- length_as_turns, H. done. Qed.


(** ** One call of the service on a request of the client *)

Lemma thread_empty_id (s : msg_store) (h : list string) :
  history_ok s (Some "") h -> h = [].
Proof.
  intros [_ Ht]. inversion Ht as [p Hp E|p m l Hp]; [by apply as_turns_nil|done].
Qed.


(** The handler on a request of the client, with the message store: the
    user's message is stored under a fresh id, the prompt is the
    conversation the client's message id designates, cut to the budget,
    and the reply is stored under the next fresh id, or the call rejects
    after the user's message has been stored. *)
Lemma handler_chatgpt (e : env) (s : msg_store) (p : pending) (h : list string) :
  api_key e <> "" -> pd_userMessage p <> "" ->
  ids_ok (pd_conversationId p) (pd_messageId p) ->
  store_fresh ns_demo s -> history_ok s (pd_messageId p) h ->
  exists cid n P,
    ms_next s <= n /\ cid <> "" /\
    (forall c, pd_conversationId p = Some c -> c <> "" -> cid = c) /\
    thread ns_demo (ms_messages s) P (as_turns h) /\
    let msgs1 := <[keyv_key ns_demo (JString (uuidv4 n)) :=
                     mk_stored_message RoleUser (pd_userMessage p) P cid]> (ms_messages s) in
    let r := handler e (body_of_request (request_of p)) s in
    (hr_service r, hr_outcome r) =
      match ms_model s (prompt_for (ms_budget s) h (pd_userMessage p)) with
      | Some t =>
          (mk_msg_store (<[keyv_key ns_demo (JString (uuidv4 (S n))) :=
                             mk_stored_message RoleAssistant t (JString (uuidv4 n)) cid]> msgs1)
             (S (S n)) (ms_budget s) (ms_model s),
           Responded 200 (mk_res_body t (Some cid) (Some (uuidv4 (S n)))))
      | None =>
          (mk_msg_store msgs1 (S (S n)) (ms_budget s) (ms_model s), Rejected "OpenAI error")
      end.
Proof.
  destruct p as [id u h0 c m]. cbn [pd_userMessage pd_conversationId pd_messageId].
  intros Hk Hu Hids Hfresh Hh. pose proof (chatgpt_client_ok e Hk) as He.
  assert (Hstr : strict_eq_str (JString u) "" = false) by (simpl; by case_streq).
  destruct Hids as [[-> ->] | (c' & m' & -> & -> & Hc & Hm)].
  - pose proof (thread_empty_id _ _ Hh) as ->.
    exists (uuidv4 (ms_next s)), (S (ms_next s)), JUndefined.
    split; [lia|]. split; [apply uuidv4_not_empty|]. split; [by intros ? [= <-]|].
    split; [by constructor|]. unfold handler. cbn [body_of_request request_of rq_message body_message pd_userMessage pd_conversationId pd_messageId
         rq_conversationId rq_parentMessageId of_option].
    rewrite He, Hstr. change (request_opts _) with (@None send_opts).
    cbn [sendMessage chatgpt_service]. rewrite chatgpt_sendMessage_new.
    change [(RoleUser, u)] with (prompt_for (ms_budget s) [] u).
    by destruct (ms_model s _).
  - exists c', (ms_next s), (JString m').
    split; [lia|]. split; [done|]. split; [by intros ? [= <-]|].
    split; [apply Hh|]. unfold handler. cbn [body_of_request request_of rq_message body_message pd_userMessage pd_conversationId pd_messageId
         rq_conversationId rq_parentMessageId of_option].
    rewrite He, Hstr.
    change (request_opts (body_of_request (request_of ?x))) with
      (request_opts (mk_req_body (JString u) (JString c') (JString m'))).
    rewrite (request_opts_strings (JString u) c' m' Hc Hm).
    cbn [sendMessage chatgpt_service].
    rewrite (chatgpt_sendMessage_continue (make_config e) s u c' m' (as_turns h) Hfresh (proj2 Hh)).
    rewrite length_as_turns.
    change (drop _ (as_turns h) ++ [(RoleUser, u)]) with (prompt_for (ms_budget s) h u).
    by destruct (ms_model s _).
Qed.

(** ** The store after an exchange *)

Lemma truthy_uuid (n : nat) : truthy (JString (uuidv4 n)) = true.
Proof. reflexivity. Qed.

(** The reply names the user's message, which names the conversation
    before it: the new reply's id designates the conversation extended by
    the exchange. *)
Lemma thread_exchange (msgs : gmap string stored_message) (P : jsval) (h : list string)
    (u t cid : string) (n : nat) :
  Nat.even (length h) = true -> thread ns_demo msgs P (as_turns h) ->
  msgs !! keyv_key ns_demo (JString (uuidv4 n)) = None ->
  msgs !! keyv_key ns_demo (JString (uuidv4 (S n))) = None ->
  thread ns_demo
    (<[keyv_key ns_demo (JString (uuidv4 (S n))) :=
        mk_stored_message RoleAssistant t (JString (uuidv4 n)) cid]>
     (<[keyv_key ns_demo (JString (uuidv4 n)) := mk_stored_message RoleUser u P cid]> msgs))
    (JString (uuidv4 (S n))) (as_turns (h ++ [u; t])).
Proof.
  intros He Ht H1 H2. rewrite as_turns_exchange by done.
  change [(RoleUser, u); (RoleAssistant, t)] with ([(RoleUser, u)] ++ [(RoleAssistant, t)]).
  rewrite app_assoc.
  apply (thread_link _ _ _ (mk_stored_message RoleAssistant t (JString (uuidv4 n)) cid));
    [apply truthy_uuid | apply lookup_insert_eq|].
  apply (thread_link _ _ _ (mk_stored_message RoleUser u P cid)); [apply truthy_uuid| |].
  - rewrite lookup_insert_ne by (apply keyv_uuid_ne; lia). apply lookup_insert_eq.
  - apply thread_insert; [rewrite lookup_insert_ne by (apply keyv_uuid_ne; lia); done|].
    by apply thread_insert.
Qed.

Lemma store_fresh_exchange (s : msg_store) (n : nat) v1 v2 budget model :
  store_fresh ns_demo s -> ms_next s <= n ->
  store_fresh ns_demo
    (mk_msg_store (<[keyv_key ns_demo (JString (uuidv4 (S n))) := v2]>
                   (<[keyv_key ns_demo (JString (uuidv4 n)) := v1]> (ms_messages s)))
       (S (S n)) budget model).
Proof.
  intros Hf Hn k Hk. simpl in Hk. simpl.
  rewrite !lookup_insert_ne by (apply keyv_uuid_ne; lia). apply Hf. lia.
Qed.

Lemma store_fresh_user (s : msg_store) (n : nat) v1 budget model :
  store_fresh ns_demo s -> ms_next s <= n ->
  store_fresh ns_demo
    (mk_msg_store (<[keyv_key ns_demo (JString (uuidv4 n)) := v1]> (ms_messages s))
       (S (S n)) budget model).
Proof.
  intros Hf Hn k Hk. simpl in Hk. simpl.
  rewrite lookup_insert_ne by (apply keyv_uuid_ne; lia). apply Hf. lia.
Qed.

Lemma find_pending_one (p : pending) : find_pending (pd_id p) [p] = Some p.
Proof. unfold find_pending. simpl. by rewrite Nat.eqb_refl. Qed.

(** ** Delivering the request in flight *)

(** Delivering a call in flight whose identifiers designate the
    conversation [h] in the store. *)
Lemma deliver_at (sys : system msg_store) (id : nat) (p : pending) (h : list string) :
  find_pending id (w_pending (sys_client sys)) = Some p -> api_key (sys_env sys) <> "" ->
  pd_userMessage p <> "" -> ids_ok (pd_conversationId p) (pd_messageId p) ->
  store_fresh ns_demo (sys_service sys) -> history_ok (sys_service sys) (pd_messageId p) h ->
  let s := sys_service sys in
  exists cid n P,
    ms_next s <= n /\ cid <> "" /\
    (forall c, pd_conversationId p = Some c -> c <> "" -> cid = c) /\
    thread ns_demo (ms_messages s) P (as_turns h) /\
    let msgs1 := <[keyv_key ns_demo (JString (uuidv4 n)) :=
                     mk_stored_message RoleUser (pd_userMessage p) P cid]> (ms_messages s) in
    sys_step sys (Deliver id) =
      match ms_model s (prompt_for (ms_budget s) h (pd_userMessage p)) with
      | Some t =>
          mk_system (settle id (Some (mk_reply t (Some (uuidv4 (S n))) (Some cid))) (sys_client sys))
            (mk_msg_store (<[keyv_key ns_demo (JString (uuidv4 (S n))) :=
                               mk_stored_message RoleAssistant t (JString (uuidv4 n)) cid]> msgs1)
               (S (S n)) (ms_budget s) (ms_model s)) (sys_env sys)
      | None =>
          mk_system (settle id None (sys_client sys))
            (mk_msg_store msgs1 (S (S n)) (ms_budget s) (ms_model s)) (sys_env sys)
      end.
Proof.
  intros Hf Hk Hu Hids Hfresh Hh. cbv zeta.
  destruct (handler_chatgpt (sys_env sys) (sys_service sys) p h Hk Hu Hids Hfresh Hh)
    as (cid & n & P & Hn & Hcid & Hcc & Ht & Heq).
  exists cid, n, P. do 4 (split; [done|]).
  cbn [sys_step]. rewrite (deliver_found id sys p Hf).
  cbv zeta in Heq |- *.
  destruct (handler (sys_env sys) (body_of_request (request_of p)) (sys_service sys))
    as [s' eff out].
  cbn [hr_service hr_outcome] in Heq |- *.
  destruct (ms_model _ _); injection Heq as -> ->; reflexivity.
Qed.

Lemma deliver_chatgpt (model : list turn -> option string) (budget : nat)
    (sys : system msg_store) (p : pending) :
  coupled model budget sys -> w_pending (sys_client sys) = [p] ->
  exists cid n P,
    ms_next (sys_service sys) <= n /\ cid <> "" /\
    (forall c, pd_conversationId p = Some c -> c <> "" -> cid = c) /\
    thread ns_demo (ms_messages (sys_service sys)) P (as_turns (pd_response p)) /\
    let msgs1 := <[keyv_key ns_demo (JString (uuidv4 n)) :=
                     mk_stored_message RoleUser (pd_userMessage p) P cid]>
                   (ms_messages (sys_service sys)) in
    sys_step sys (Deliver (pd_id p)) =
      match model (prompt_of budget p) with
      | Some t =>
          mk_system (settle (pd_id p) (Some (mk_reply t (Some (uuidv4 (S n))) (Some cid)))
                       (sys_client sys))
            (mk_msg_store (<[keyv_key ns_demo (JString (uuidv4 (S n))) :=
                               mk_stored_message RoleAssistant t (JString (uuidv4 n)) cid]> msgs1)
               (S (S n)) budget model) (sys_env sys)
      | None =>
          mk_system (settle (pd_id p) None (sys_client sys))
            (mk_msg_store msgs1 (S (S n)) budget model) (sys_env sys)
      end.
Proof.
  intros (Hkey & Hmodel & Hbudget & Hfresh & Hids & Hstore & Hpend) Hp. rewrite Hp in Hpend.
  destruct Hpend as (_ & Hu & Hc & Hm & _ & Hh).
  rewrite <- Hc, <- Hm in Hids.
  assert (Hf : find_pending (pd_id p) (w_pending (sys_client sys)) = Some p)
    by (rewrite Hp; apply find_pending_one).
  destruct (deliver_at sys (pd_id p) p (pd_response p) Hf Hkey Hu Hids Hfresh Hh)
    as (cid & n & P & Hn & Hcid & Hcc & Ht & Heq).
  exists cid, n, P. do 4 (split; [done|]). cbv zeta in Heq |- *.
  rewrite Heq, Hmodel, Hbudget. reflexivity.
Qed.

(** An answered delivery keeps the coupling: the transcript gains the
    reply, the lock is released and no request is left in flight. *)
Lemma coupled_deliver_ok (model : list turn -> option string) (budget : nat)
    (sys : system msg_store) (p : pending) (t : string) :
  coupled model budget sys -> w_pending (sys_client sys) = [p] ->
  model (prompt_of budget p) = Some t ->
  let sys' := sys_step sys (Deliver (pd_id p)) in
  coupled model budget sys' /\
  response (w_form (sys_client sys')) = response (w_form (sys_client sys)) ++ [t] /\
  w_pending (sys_client sys') = [] /\ isLoading (w_form (sys_client sys')) = false.
Proof.
  intros Hcpl Hp Ht.
  destruct (deliver_chatgpt model budget sys p Hcpl Hp) as (cid & n & P & Hn & Hcid & _ & Hth & ->).
  rewrite Ht.
  destruct Hcpl as (Hkey & Hmodel & Hbudget & Hfresh & Hids & Hstore & Hpend). rewrite Hp in Hpend.
  destruct Hpend as (Hl & Hu & Hc & Hm & Hr & [He _]).
  rewrite (settle_single (pd_id p) _ (sys_client sys) p Hp eq_refl).
  set (r := mk_reply t (Some (uuidv4 (S n))) (Some cid)).
  set (w0 := with_pending [] (sys_client sys)).
  destruct (settle_with_response p r w0) as (Hr' & Hl' & _).
  destruct (settle_with_pending p (Some r) w0) as (Hp' & _ & _).
  destruct (settle_with_adopts p r w0 Hc Hm) as (Hc' & Hm').
  assert (Hst : stored_ok (settle_with p (Some r) w0)).
  { unfold stored_ok in Hstore |- *. rewrite Hp in Hstore. rewrite Hp', Hr', Hc', Hm'.
    destruct Hstore as (_ & Sc & Sm).
    by apply (settle_with_stores p r w0 cid (uuidv4 (S n))); [| | |apply uuidv4_not_empty| |]. }
  cbv zeta. unfold coupled. cbn [sys_client sys_service ms_model ms_budget].
  rewrite Hp', Hc', Hm', Hr', Hl'. cbn [w_pending w0 with_pending rp_conversationId rp_messageId r].
  split; [|split; [by rewrite Hr, <- app_assoc | done]].
  do 3 (split; [done|]). split; [by apply store_fresh_exchange|].
  split; [right; eexists _, _; repeat split; [done | apply uuidv4_not_empty]|].
  split; [exact Hst|].
  split; [rewrite length_app; simpl; by rewrite Nat.add_comm|].
  apply thread_exchange; [done | done | apply Hfresh; lia | apply Hfresh; lia].
Qed.

(** The browser's events of the path keep the coupling. *)
Lemma coupled_browser (model : list turn -> option string) (budget : nat)
    (sys : system msg_store) (e : event) :
  coupled model budget sys -> enter_event (Browser e) ->
  coupled model budget (sys_step sys (Browser e)).
Proof.
  destruct sys as [[[r l c m] inp st ps nx sent ts] s env].
  intros (Hkey & Hmodel & Hbudget & Hfresh & Hids & Hstore & Hpend) He.
  unfold coupled. cbn [sys_step sys_client sys_service sys_env]. do 4 (split; [done|]).
  inversion He as [u| key shift| |]; subst; cbn [step].
  - done.
  - unfold handleEnter. cbn [w_form isLoading].
    destruct l; [rewrite andb_false_r; done|].
    destruct (String.eqb key "Enter"); [|done]. unfold stored_ok in Hstore |- *. cbn in Hstore, Hpend |- *.
    destruct ps as [|? [|? ?]]; [| by destruct Hpend | done].
    unfold handleSubmit. cbn. destruct (String.eqb_spec inp ""); cbn; tauto.
  - set (w := mk_world (mk_form_state r l c m) inp st ps nx sent ts).
    assert (Hx : exists L C M, stored_state st L C M /\ ids_ok C M /\ history_ok s M L).
    { unfold stored_ok in Hstore. cbn in Hstore, Hpend, Hids.
      destruct ps as [|p [|? ?]]; [by exists r, c, m | | done].
      destruct Hpend as (_ & _ & Hc & Hm & _ & Hh).
      exists (pd_response p), (pd_conversationId p), (pd_messageId p).
      split; [exact Hstore|]. split; [by rewrite Hc, Hm|exact Hh]. }
    destruct Hx as (L & C & M & HS & Hi & Hh). pose proof HS as (HL & HC & HM).
    destruct (reload_idle w) as (_ & Hp' & _). unfold stored_ok.
    rewrite reload_form, Hp', reload_storage. cbn [w_storage w].
    rewrite (restored_form_stored st L HL). cbn [response currConversationId currMessageId].
    rewrite HC, HM. done.
Qed.

Lemma find_pending_single (id : nat) (p q : pending) :
  find_pending id [q] = Some p -> p = q /\ pd_id p = id.
Proof.
  unfold find_pending. simpl. destruct (Nat.eqb_spec (pd_id q) id); [|done].
  intros [= <-]. done.
Qed.

Lemma coupled_initial (s0 : msg_store) (st : storage) (e : env) :
  store_fresh ns_demo s0 -> api_key e <> "" -> storage_ok s0 st ->
  coupled (ms_model s0) (ms_budget s0) (initial_system st s0 e).
Proof.
  intros Hf Hk (L & C & M & HS & Hi & Hh). pose proof HS as (HL & HC & HM).
  destruct (mount_idle st 0 [] []) as (_ & Hp & _). change (mount st 0 [] []) with (initial_world st) in Hp.
  unfold coupled, stored_ok, initial_system. cbn [sys_client sys_service sys_env].
  rewrite Hp, initial_world_storage. change (w_form (initial_world st)) with (restored_form st).
  rewrite (restored_form_stored st L HL). cbn [response currConversationId currMessageId].
  rewrite HC, HM. by repeat (split; [done|]).
Qed.

(** A browser with nothing stored. *)
Lemma storage_ok_empty (s : msg_store) : storage_ok s ∅.
Proof. exists [], (Some ""), (Some ""). split; [done|]. split; [by left|]. split; [done|]. by constructor. Qed.

(** Rule induction over the Enter path, when the model always answers. *)
Lemma coupled_reachable (s0 : msg_store) (st : storage) (e : env) (sys : system msg_store) :
  store_fresh ns_demo s0 -> storage_ok s0 st -> api_key e <> "" -> (forall pr, ms_model s0 pr <> None) ->
  reachable sys_step enter_event (initial_system st s0 e) sys ->
  coupled (ms_model s0) (ms_budget s0) sys.
Proof.
  intros Hf Hst Hk Hmodel. apply reachable_ind'; [by apply coupled_initial|].
  intros s ev Hs Hev. destruct ev as [ev|id]; [by apply coupled_browser|].
  destruct (find_pending id (w_pending (sys_client s))) as [p|] eqn:Ef;
    [|cbn [sys_step]; unfold deliver; by rewrite Ef].
  pose proof Hs as (_ & _ & _ & _ & _ & _ & Hpend).
  destruct (w_pending (sys_client s)) as [|q [|? ?]] eqn:Hp; [done| |done].
  apply find_pending_single in Ef as [-> <-].
  destruct (ms_model s0 (prompt_of (ms_budget s0) q)) as [t|] eqn:Ht;
    [|by apply Hmodel in Ht].
  by apply (coupled_deliver_ok _ _ s q t).
Qed.

Lemma enter_after_typing (w : world) (u : string) :
  isLoading (w_form w) = false -> u <> "" ->
  w_pending (step (step w (TypeInput u)) (KeyDown "Enter" false)) =
    w_pending w ++ [mk_pending (w_next w) u (response (w_form w))
                      (currConversationId (w_form w)) (currMessageId (w_form w))].
Proof. intros Hl Hu. simpl. unfold handleEnter. simpl. rewrite Hl. simpl. unfold handleSubmit. simpl. by case_streq. Qed.

(** ** Two requests in flight *)

Lemma run_browser (sys : system msg_store) (es : list event) :
  run sys_step sys (map Browser es) =
    mk_system (run step (sys_client sys) es) (sys_service sys) (sys_env sys).
Proof.
  revert sys. induction es as [|e es IH]; intros sys; [by destruct sys|].
  unfold run in *. simpl. by rewrite IH.
Qed.

(** A message id that designates a conversation names a stored message,
    which a fresh id does not. *)
Lemma history_id_not_fresh (s : msg_store) (m : option string) (h : list string) (k : nat) :
  history_ok s m h -> store_fresh ns_demo s -> ms_next s <= k -> m <> Some (uuidv4 k).
Proof.
  intros [_ Ht] Hf Hk ->. cbn [of_option] in Ht.
  inversion Ht as [p Hp|p v l Hp Hl]; [done|]. rewrite Hf in Hl by done. discriminate.
Qed.

Lemma history_ok_exchange (s : msg_store) (m : option string) (h : list string) (n : nat) k1 k2 v1 v2 b model :
  history_ok s m h -> store_fresh ns_demo s -> ms_next s <= n ->
  k1 = keyv_key ns_demo (JString (uuidv4 n)) -> k2 = keyv_key ns_demo (JString (uuidv4 (S n))) ->
  history_ok (mk_msg_store (<[k2 := v2]> (<[k1 := v1]> (ms_messages s))) (S (S n)) b model) m h.
Proof.
  intros [He Ht] Hf Hn -> ->. split; [done|]. cbn [ms_messages].
  apply thread_insert; [|apply thread_insert; [apply Hf; lia | done]].
  rewrite lookup_insert_ne by (apply keyv_uuid_ne; lia). apply Hf. lia.
Qed.

(** ** Theorems *)

Section ContinuityClaims.
Context (s0 : msg_store) (st : storage) (e : env).

(** C3. The client's transcript is the conversation the server keeps.
    When the server has an API key and the model always answers, in every state reachable from a fresh
    page by typing, key presses, reloads and deliveries, with no request
    in flight, the conversation the Keyv store holds for the client's
    message id (read by the walk of [_buildPrompt] with enough budget)
    is the transcript the client renders, turn by turn and role by role:
    the parity of the index, which chooses the bubble, is the role the
    store records. *)
Theorem transcript_is_stored_conversation (sys : system msg_store) :
  store_fresh ns_demo s0 -> storage_ok s0 st -> api_key e <> "" -> (forall pr, ms_model s0 pr <> None) ->
  reachable sys_step enter_event (initial_system st s0 e) sys ->
  w_pending (sys_client sys) = [] ->
  let f := w_form (sys_client sys) in
  rendered f = (fun '(r, t) => (view_role r, t)) <$>
    build_history (S (length (response f))) ns_demo (ms_messages (sys_service sys))
      (of_option (currMessageId f)).
Proof.
  intros Hfresh0 Hst Hk Hmodel Hr Hp. destruct (coupled_reachable s0 st e sys Hfresh0 Hst Hk Hmodel Hr)
    as (_ & _ & _ & _ & _ & _ & Hpend).
  rewrite Hp in Hpend. destruct Hpend as [_ Ht]. cbv zeta.
  rewrite (build_history_chain _ _ _ (as_turns (response (w_form (sys_client sys)))));
    [| by apply thread_chain | rewrite length_as_turns; lia].
  unfold rendered, as_turns. rewrite fmap_imap.
  apply imap_ext. intros i x _. unfold turn_role. simpl. by destruct (Nat.even i).
Qed.

(** C15. Continuity of the conversation: in every such state with a
    request in flight, the transcript is the conversation before it
    followed by the user's text, and its delivery asks the model with
    the last [budget] turns of that conversation, the user's turns and
    the replies in their roles, followed by the text; the model's answer
    is appended to the transcript. *)
Theorem delivery_prompt_is_transcript (sys : system msg_store) (p : pending) :
  store_fresh ns_demo s0 -> storage_ok s0 st -> api_key e <> "" -> (forall pr, ms_model s0 pr <> None) ->
  reachable sys_step enter_event (initial_system st s0 e) sys ->
  w_pending (sys_client sys) = [p] ->
  let h := pd_response p in
  let u := pd_userMessage p in
  response (w_form (sys_client sys)) = h ++ [u] /\
  exists t, ms_model s0 (drop (length h - ms_budget s0) (as_turns h) ++ [(RoleUser, u)]) = Some t /\
    response (w_form (sys_client (sys_step sys (Deliver (pd_id p))))) = h ++ [u; t].
Proof.
  intros Hfresh0 Hst Hk Hmodel Hr Hp. pose proof (coupled_reachable s0 st e sys Hfresh0 Hst Hk Hmodel Hr) as Hc.
  pose proof Hc as (_ & _ & _ & _ & _ & _ & Hpend). rewrite Hp in Hpend.
  destruct Hpend as (_ & _ & _ & _ & Hresp & _). cbv zeta. split; [done|].
  destruct (ms_model s0 (prompt_of (ms_budget s0) p)) as [t|] eqn:Ht; [|by apply Hmodel in Ht].
  exists t. split; [done|].
  destruct (coupled_deliver_ok _ _ sys p t Hc Hp Ht) as (_ & -> & _).
  rewrite Hresp, <- app_assoc. done.
Qed.

(** C18. Liveness of the Enter path: in every such state with a request
    in flight, its delivery leaves no request in flight and releases the
    lock, and the next non-empty text typed and sent with Enter is
    accepted. *)
Theorem delivery_releases_lock (sys : system msg_store) (p : pending) :
  store_fresh ns_demo s0 -> storage_ok s0 st -> api_key e <> "" -> (forall pr, ms_model s0 pr <> None) ->
  reachable sys_step enter_event (initial_system st s0 e) sys ->
  w_pending (sys_client sys) = [p] ->
  let sys' := sys_step sys (Deliver (pd_id p)) in
  w_pending (sys_client sys') = [] /\ isLoading (w_form (sys_client sys')) = false /\
  forall u, u <> "" ->
    exists q, w_pending (sys_client (run sys_step sys' [Browser (TypeInput u);
                                                         Browser (KeyDown "Enter" false)])) = [q] /\
              pd_userMessage q = u.
Proof.
  intros Hfresh0 Hst Hk Hmodel Hr Hp. pose proof (coupled_reachable s0 st e sys Hfresh0 Hst Hk Hmodel Hr) as Hc.
  destruct (ms_model s0 (prompt_of (ms_budget s0) p)) as [t|] eqn:Ht; [|by apply Hmodel in Ht].
  destruct (coupled_deliver_ok _ _ sys p t Hc Hp Ht) as (_ & _ & Hp' & Hl').
  cbv zeta. split; [done|]. split; [done|]. intros u Hu.
  remember (sys_step sys (Deliver (pd_id p))) as sys' eqn:E.
  cbn [run fold_left sys_step sys_client].
  rewrite enter_after_typing, Hp' by done. eexists. split; reflexivity.
Qed.
End ContinuityClaims.

(** C31. A failed call of the model is hidden from the next prompt.  From
    a coupled state with a request in flight, when the model fails: the
    client keeps the user's text in its transcript and releases the lock,
    the store keeps the user's message, but nothing names it: the
    client's message id still designates the conversation before it, so
    the next prompt leaves out the turn the client shows. *)
Theorem failed_turn_hidden_from_model (model : list turn -> option string) (budget : nat)
    (sys : system msg_store) (p : pending) :
  coupled model budget sys -> w_pending (sys_client sys) = [p] ->
  model (prompt_of budget p) = None ->
  let sys' := sys_step sys (Deliver (pd_id p)) in
  let f' := w_form (sys_client sys') in
  response f' = pd_response p ++ [pd_userMessage p] /\
  isLoading f' = false /\ w_pending (sys_client sys') = [] /\
  build_history (S (length (pd_response p))) ns_demo (ms_messages (sys_service sys'))
    (of_option (currMessageId f')) = as_turns (pd_response p) /\
  exists k P cid,
    ms_messages (sys_service sys') !! k = Some (mk_stored_message RoleUser (pd_userMessage p) P cid).
Proof.
  intros Hc Hp Hnone.
  destruct (deliver_chatgpt model budget sys p Hc Hp) as (cid & n & P & Hn & _ & _ & _ & ->).
  rewrite Hnone.
  destruct Hc as (_ & _ & _ & Hfresh & _ & _ & Hpend). rewrite Hp in Hpend.
  destruct Hpend as (_ & _ & _ & Hm & Hr & [_ Hh]).
  rewrite (settle_single (pd_id p) None (sys_client sys) p Hp eq_refl).
  cbv zeta. cbn [sys_client sys_service ms_messages settle_with with_form show_toast with_pending
                 w_form w_pending setIsLoading response isLoading currMessageId].
  split; [done|]. split; [done|]. split; [done|]. split.
  - rewrite <- Hm. apply build_history_chain; [|rewrite length_as_turns; lia].
    apply thread_chain, thread_insert; [apply Hfresh; lia | done].
  - eexists _, _, _. apply lookup_insert_eq.
Qed.

(** ** Witnesses on concrete stores *)

Definition answering_store : msg_store := mk_msg_store ∅ 0 10 (fun _ => Some "ok").
Definition failing_store : msg_store := mk_msg_store ∅ 0 10 (fun _ => None).

(** A server configured with an API key. *)
Definition demo_env : env := {[ "OPENAI_API_KEY" := "sk-demo" ]}.

Lemma demo_env_key : api_key demo_env <> "".
Proof. vm_compute. discriminate. Qed.

Definition first_message (s0 : msg_store) : system msg_store :=
  run sys_step (initial_system ∅ s0 demo_env) [Browser (TypeInput "hello"); Browser (KeyDown "Enter" false)].

Definition hello_pending : pending := mk_pending 0 "hello" [] (Some "") (Some "").

Lemma empty_store_fresh (b : nat) (model : list turn -> option string) :
  store_fresh ns_demo (mk_msg_store ∅ 0 b model).
Proof. intros k _. apply lookup_empty. Qed.

Lemma first_message_reachable (s0 : msg_store) :
  reachable sys_step enter_event (initial_system ∅ s0 demo_env) (first_message s0).
Proof. apply reachable_run. eexists. split; [|reflexivity]. repeat constructor. Qed.

Lemma transcript_is_stored_conversation_witness :
  let sys := sys_step (first_message answering_store) (Deliver 0) in
  let f := w_form (sys_client sys) in
  rendered f = (fun '(r, t) => (view_role r, t)) <$>
    build_history (S (length (response f))) ns_demo (ms_messages (sys_service sys))
      (of_option (currMessageId f)).
Proof.
  apply (transcript_is_stored_conversation answering_store ∅ demo_env);
    [apply empty_store_fresh | apply storage_ok_empty | apply demo_env_key | discriminate | | vm_compute; reflexivity].
  apply (reach_step _ _ _ _ (Deliver 0)); [apply first_message_reachable | constructor].
Defined.

Lemma delivery_prompt_is_transcript_witness :
  let sys := first_message answering_store in
  response (w_form (sys_client sys)) = [] ++ ["hello"] /\
  exists t, ms_model answering_store
              (drop (length (@nil string) - ms_budget answering_store) (as_turns []) ++ [(RoleUser, "hello")]) = Some t /\
    response (w_form (sys_client (sys_step sys (Deliver 0)))) = [] ++ ["hello"; t].
Proof.
  apply (delivery_prompt_is_transcript answering_store ∅ demo_env _ hello_pending);
    [apply empty_store_fresh | apply storage_ok_empty | apply demo_env_key | discriminate | apply first_message_reachable | vm_compute; reflexivity].
Defined.

Lemma delivery_releases_lock_witness :
  let sys' := sys_step (first_message answering_store) (Deliver 0) in
  w_pending (sys_client sys') = [] /\ isLoading (w_form (sys_client sys')) = false /\
  forall u, u <> "" ->
    exists q, w_pending (sys_client (run sys_step sys' [Browser (TypeInput u);
                                                         Browser (KeyDown "Enter" false)])) = [q] /\
              pd_userMessage q = u.
Proof.
  apply (delivery_releases_lock answering_store ∅ demo_env _ hello_pending);
    [apply empty_store_fresh | apply storage_ok_empty | apply demo_env_key | discriminate | apply first_message_reachable | vm_compute; reflexivity].
Defined.

Lemma failed_turn_hidden_from_model_witness :
  let sys' := sys_step (first_message failing_store) (Deliver 0) in
  let f' := w_form (sys_client sys') in
  response f' = [] ++ ["hello"] /\
  isLoading f' = false /\ w_pending (sys_client sys') = [] /\
  build_history (S (length (@nil string))) ns_demo (ms_messages (sys_service sys'))
    (of_option (currMessageId f')) = as_turns [] /\
  exists k P cid, ms_messages (sys_service sys') !! k = Some (mk_stored_message RoleUser "hello" P cid).
Proof.
  apply (failed_turn_hidden_from_model (fun _ => None) 10 _ hello_pending); [| vm_compute; reflexivity | reflexivity].
  apply coupled_browser; [apply coupled_browser; [|constructor]|constructor].
  apply coupled_initial; [apply empty_store_fresh | apply demo_env_key | apply storage_ok_empty].
Defined.

(** A store holding one exchange, "hello" and its reply "hi". *)
(** C29. Two requests in flight fork the conversation.  From a coupled
    state with nothing in flight, two texts submitted with the button
    both continue from the same message id; when both are answered in
    order, the second prompt holds neither the first text nor its reply,
    the transcript shows the first text but not its reply, and the
    conversation the client's message id designates in the store is the
    second exchange alone after the common history: the client and the
    store tell different conversations. *)
Theorem button_forks_conversation (model : list turn -> option string) (budget : nat)
    (sys : system msg_store) (u1 u2 t1 t2 : string) :
  coupled model budget sys -> w_pending (sys_client sys) = [] ->
  isLoading (w_form (sys_client sys)) = false -> u1 <> "" -> u2 <> "" ->
  let h := response (w_form (sys_client sys)) in
  let n := w_next (sys_client sys) in
  model (prompt_for budget h u1) = Some t1 -> model (prompt_for budget h u2) = Some t2 ->
  let sys' := run sys_step sys [Browser (TypeInput u1); Browser ClickSubmit;
                                Browser (TypeInput u2); Browser ClickSubmit; Deliver n; Deliver (S n)] in
  response (w_form (sys_client sys')) = h ++ [u1; u2; t2] /\
  build_history (S (length h + 2)) ns_demo (ms_messages (sys_service sys'))
    (of_option (currMessageId (w_form (sys_client sys')))) = as_turns (h ++ [u2; t2]).
Proof.
  destruct sys as [w s env]. cbn [sys_client sys_service sys_env].
  intros Hc Hp0 Hl H1 H2. cbv zeta. intros Ht1 Ht2.
  destruct Hc as (Hkey & Hmodel & Hbudget & Hfresh & Hids & Hstore & Hpend).
  cbn [sys_client sys_service sys_env w_form] in Hkey, Hmodel, Hbudget, Hfresh, Hids, Hpend.
  rewrite Hp0 in Hpend.
  change [Browser (TypeInput u1); Browser ClickSubmit; Browser (TypeInput u2); Browser ClickSubmit;
          Deliver (w_next w); Deliver (S (w_next w))] with
    (map Browser [TypeInput u1; ClickSubmit; TypeInput u2; ClickSubmit] ++
     [Deliver (w_next w); Deliver (S (w_next w))]).
  rewrite run_app, run_browser. cbn [sys_client sys_service sys_env].
  destruct (two_clicks w u1 u2 Hl H1 H2) as (Hp & _). cbv zeta in Hp.
  rewrite Hp0 in Hp. cbn [app] in Hp.
  remember (run step w [TypeInput u1; ClickSubmit; TypeInput u2; ClickSubmit]) as w1 eqn:Ew1.
  set (f := w_form w) in *.
  set (p1 := mk_pending (w_next w) u1 (response f) (currConversationId f) (currMessageId f)) in Hp.
  set (p2 := mk_pending (S (w_next w)) u2 (response f ++ [u1]) (currConversationId f) (currMessageId f)) in Hp.
  destruct (find_pending_two (w_next w) p1 p2 eq_refl eq_refl) as (F1 & _ & R1 & _).
  (* the first delivery *)
  assert (Hf1 : find_pending (w_next w) (w_pending (sys_client (mk_system w1 s env))) = Some p1)
    by (cbn [sys_client]; rewrite Hp; exact F1).
  destruct (deliver_at (mk_system w1 s env) (w_next w) p1 (response f) Hf1 Hkey H1 Hids Hfresh Hpend)
    as (cid1 & n1 & P1 & Hn1 & _ & _ & Hth1 & E1).
  cbv zeta in E1. cbn [sys_service sys_client sys_env] in E1, Hn1.
  change (pd_userMessage p1) with u1 in E1. rewrite Hmodel, Hbudget, Ht1 in E1.
  cbn [run fold_left]. rewrite E1.
  set (s1 := mk_msg_store _ (S (S n1)) budget model).
  set (r1 := mk_reply t1 (Some (uuidv4 (S n1))) (Some cid1)).
  rewrite (settle_found _ _ _ _ (eq_trans (f_equal (find_pending (w_next w)) Hp) F1)).
  rewrite Hp, R1.
  set (w2 := settle_with p1 (Some r1) (with_pending [p2] w1)).
  destruct (settle_with_pending p1 (Some r1) (with_pending [p2] w1)) as (Hp2 & _).
  cbn [w_pending with_pending] in Hp2. fold w2 in Hp2.
  (* the second delivery *)
  assert (Hfresh1 : store_fresh ns_demo s1)
    by (apply store_fresh_exchange; done).
  assert (Hh1 : history_ok s1 (currMessageId f) (response f))
    by (apply (history_ok_exchange s _ _ n1 _ _ _ _ _ _ Hpend Hfresh Hn1); reflexivity).
  assert (Hf2 : find_pending (S (w_next w)) (w_pending (sys_client (mk_system w2 s1 env))) = Some p2)
    by (cbn [sys_client]; rewrite Hp2; apply find_pending_one).
  destruct (deliver_at (mk_system w2 s1 env) (S (w_next w)) p2 (response f) Hf2 Hkey H2 Hids Hfresh1 Hh1)
    as (cid2 & n2 & P2 & Hn2 & _ & _ & Hth2 & E2).
  cbv zeta in E2. cbn [sys_service sys_client sys_env] in E2, Hn2.
  change (pd_userMessage p2) with u2 in E2. change (ms_model s1) with model in E2.
  change (ms_budget s1) with budget in E2. rewrite Ht2 in E2. rewrite E2.
  cbn [sys_client sys_service ms_messages].
  set (r2 := mk_reply t2 (Some (uuidv4 (S n2))) (Some cid2)).
  rewrite (settle_single (S (w_next w)) (Some r2) w2 p2 Hp2 eq_refl).
  destruct (settle_with_response p2 r2 (with_pending [] w2)) as (-> & _).
  split; [cbn [pd_response pd_userMessage rp_message p2 r2]; by rewrite <- app_assoc|].
  rewrite (proj2 (settle_with_ids p2 r2 (with_pending [] w2))).
  destruct (strict_neq_opt (pd_messageId p2) (rp_messageId r2)) eqn:Eneq.
  - apply build_history_chain; [|rewrite length_as_turns, length_app; simpl; lia].
    apply thread_chain, thread_exchange; [apply Hpend | done | apply Hfresh1; lia..].
  - exfalso. apply strict_neq_opt_spec in Eneq.
    change (ms_next s1) with (S (S n1)) in Hn2.
    apply (history_id_not_fresh s _ _ (S n2) Hpend Hfresh); [lia | exact Eneq].
Qed.

Lemma button_forks_conversation_witness :
  let sys' := run sys_step (initial_system ∅ answering_store demo_env)
                [Browser (TypeInput "a"); Browser ClickSubmit; Browser (TypeInput "b");
                 Browser ClickSubmit; Deliver 0; Deliver 1] in
  response (w_form (sys_client sys')) = [] ++ ["a"; "b"; "ok"] /\
  build_history (S (length (@nil string) + 2)) ns_demo (ms_messages (sys_service sys'))
    (of_option (currMessageId (w_form (sys_client sys')))) = as_turns ([] ++ ["b"; "ok"]).
Proof.
  pose proof (coupled_initial answering_store ∅ demo_env (empty_store_fresh _ _) demo_env_key
                (storage_ok_empty _)) as Hc.
  unfold initial_system in Hc |- *. rewrite initial_world_empty in Hc |- *.
  apply (button_forks_conversation (fun _ => Some "ok") 10 _ "a" "b" "ok" "ok" Hc);
    [reflexivity | reflexivity | discriminate | discriminate | reflexivity | reflexivity].
Defined.
