(* ===== verification/Home.v ===== *)
(** * The home page: [src/pages/index.tsx]

    [Home] renders a [next/head] block (title, description, viewport,
    icon) and one [Form].  Loading the page mounts that [Form] with its
    initial state over the browser's [localStorage]; its SWR fetcher then
    restores what the storage holds (spec section 4.1, restore on load). *)

From S2P Require Import Prelude JsValue Json Storage Form.

Record page_head := mk_page_head {
  head_title : string;
  head_description : string;
  head_viewport : string;
  head_icon : string
}.

(** The rendered page: its head and the mounted [Form]. *)
Record page := mk_page {
  page_head_of : page_head;
  page_form : world
}.

Definition home_head : page_head :=
  mk_page_head "Chat" "Chat" "width=device-width, initial-scale=1" "/favicon.ico".

Definition Home (st : storage) : page := mk_page home_head (initial_world st).

(** Restore on load: loading the home page over a storage that holds
    the JSON text of a transcript and two non-empty identifiers shows
    that transcript, adopts both identifiers, is not loading, has nothing
    in flight, and leaves the storage as it was; the page is titled
    "Chat". *)
Lemma home_load_restores (st : storage) (l : list string) (c m : string) :
  getItem key_response st = Some (JSON_stringify l) ->
  getItem key_conversationId st = Some c -> c <> "" ->
  getItem key_messageId st = Some m -> m <> "" ->
  let p := Home st in
  w_form (page_form p) = mk_form_state l false (Some c) (Some m) /\
  w_pending (page_form p) = [] /\ w_storage (page_form p) = st /\
  head_title (page_head_of p) = "Chat".
Proof.
  intros Hr Hc Hc' Hm Hm'. unfold Home. cbn [page_head_of page_form].
  split; [|split; [apply mount_idle | split; [apply initial_world_storage | done]]].
  change (w_form (initial_world st)) with (restored_form st).
  rewrite (restored_form_stored st l); [| by rewrite Hr, stored_response_stringify].
  by rewrite Hc, Hm, !stored_id_some.
Qed.

Lemma home_load_restores_witness :
  let st := <[key_messageId := "m1"]> (<[key_conversationId := "c1"]>
              (<[key_response := JSON_stringify ["hello"; "hi"]]> ∅)) in
  let p := Home st in
  w_form (page_form p) = mk_form_state ["hello"; "hi"] false (Some "c1") (Some "m1") /\
  w_pending (page_form p) = [] /\ w_storage (page_form p) = st /\
  head_title (page_head_of p) = "Chat".
Proof. apply home_load_restores; (reflexivity || discriminate). Defined.
