(* ===== verification/Restore.v ===== *)
(** * Any value read back from [localStorage]

    The SWR fetcher of [Form.tsx] (lines 84 to 87) passes whatever
    [JSON.parse] returns for the stored transcript to [setResponse], and
    the page renders [response ? response.map(...) : null] (line 141).
    [Form] models the texts the client itself writes, arrays of strings;
    this file models any JSON text the storage may hold (it is shared by
    the scripts of the origin and editable by the user): the value the
    fetcher restores ([restored_value]), how React renders it
    ([render_response]: a falsy value renders nothing, an array one bubble
    per element, anything else throws "response.map is not a function",
    and an object as a child throws as well), and the first Enter on the
    loaded page, whose updater [(prev) => [...prev, userMessage]] needs an
    iterable.  A throw during rendering unmounts the page: the outcome
    [Crashed]. *)

From S2P Require Import Prelude JsValue Json JsonValue Storage Form Render.

(** ** Rendering a value *)

Inductive page_outcome :=
| Rendered (n : node)
| Crashed.

(** The nodes React makes of a child [{item}]: nothing for [null] and the
    booleans, a text node for a string or a number, the children of each
    element for an array; an object is not a valid child and throws. *)
Fixpoint render_child (v : json) : option (list node) :=
  match v with
  | JSONNull | JSONBool _ => Some []
  | JSONNumber n => Some [NumText n]
  | JSONString s => Some [Text s]
  | JSONArray vs =>
      (fix go (vs : list json) : option (list node) :=
         match vs with
         | [] => Some []
         | x :: r =>
             match render_child x, go r with
             | Some a, Some b => Some (a ++ b)
             | _, _ => None
             end
         end) vs
  | JSONObject _ => None
  end.

(** [response ? response.map((item, index) => ...) : null]; [None] is the
    [TypeError] of [map] on a value that has none, or the error of an
    object child. *)
Definition render_response (v : json) : option (list node) :=
  if json_truthy v then
    match v with
    | JSONArray vs => mapM id (imap (fun i item => bubble_with i <$> render_child item) vs)
    | _ => None
    end
  else Some [].

Definition Form_value_view (loading : bool) (v : json) : page_outcome :=
  match render_response v with
  | Some bubbles => Rendered (Form_page loading bubbles)
  | None => Crashed
  end.

(** ** Loading and the first Enter *)

(** The value of [response] after the fetcher's first statement on a
    fresh page: [useState([])] unless the stored text is non-empty and
    parses; when [JSON.parse] throws, [response] keeps its initial
    value. *)
Definition restored_value (st : storage) : json :=
  match getItem key_response st with
  | Some s => if String.eqb s "" then JSONArray [] else default (JSONArray []) (JSON_parse_value s)
  | None => JSONArray []
  end.

Definition loaded_form (st : storage) : page_outcome :=
  Form_value_view false (restored_value st).

(** [[...prev, userMessage]]: spreading iterates an array or the
    characters of a string, and throws on any other value. *)
Definition spread_append (v : json) (u : string) : option json :=
  match v with
  | JSONArray vs => Some (JSONArray (vs ++ [JSONString u]))
  | JSONString s => Some (JSONArray (((fun c => JSONString (String c "")) <$> list_ascii_of_string s)
                                     ++ [JSONString u]))
  | _ => None
  end.

(** Enter with the text [u] on a page whose [response] is [v]:
    [handleEnter] sets [isLoading]; [handleSubmit] warns on an empty
    text, and otherwise queues the updater, which React runs when it
    renders. *)
Definition enter_on_value (v : json) (u : string) : page_outcome :=
  if String.eqb u "" then Form_value_view true v
  else match spread_append v u with
       | Some v' => Form_value_view true v'
       | None => Crashed
       end.

(** ** Lemmas *)

(** On an array of strings, the rendering is [Render]'s. *)
Lemma render_strings (l : list string) :
  render_response (JSONArray (JSONString <$> l)) = Some (imap bubble l).
Proof.
  unfold render_response. cbn [json_truthy]. rewrite imap_fmap.
  change (mapM id (imap (fun i s => Some (bubble i s)) l) = Some (imap bubble l)).
  replace (imap (fun i s => Some (bubble i s)) l) with (Some <$> imap bubble l)
    by (rewrite fmap_imap; by apply imap_ext).
  by apply mapM_fmap_Some.
Qed.

Lemma restored_value_stringify (st : storage) (l : list string) :
  getItem key_response st = Some (JSON_stringify l) ->
  restored_value st = JSONArray (JSONString <$> l).
Proof.
  intros H. unfold restored_value. by rewrite H, JSON_stringify_not_empty, JSON_parse_value_stringify.
Qed.

(** On the texts the client writes, this model is [Form]'s: the page
    loaded over them is [Form_view] of the state the SWR fetcher
    restores. *)
Lemma loaded_form_refines (st : storage) (l : list string) :
  getItem key_response st = Some (JSON_stringify l) ->
  loaded_form st = Rendered (Form_view (w_form (initial_world st))).
Proof.
  intros H. unfold loaded_form, Form_value_view.
  rewrite (restored_value_stringify _ _ H), render_strings.
  change (w_form (initial_world st)) with (restored_form st).
  by rewrite (restored_form_stored st l) by (by rewrite H, stored_response_stringify).
Qed.

Lemma JSON_parse_value_empty : JSON_parse_value "" = None.
Proof. reflexivity. Qed.

Lemma restored_value_parsed (st : storage) (s : string) (v : json) :
  getItem key_response st = Some s -> JSON_parse_value s = Some v -> restored_value st = v.
Proof.
  intros Hs Hv. unfold restored_value. rewrite Hs.
  destruct (String.eqb_spec s "") as [->|_]; [by rewrite JSON_parse_value_empty in Hv|].
  by rewrite Hv.
Qed.

(** ** A stored value that is not an array *)

(** C21. A stored transcript that is valid JSON but not an array breaks
    the page, unless it is the empty string: a truthy value (a non-empty
    string, a non-zero number, [true], an object) makes the first render
    throw ([response.map] is not a function), and a falsy one ([null],
    [false], a zero) renders an empty transcript but makes the first
    Enter with a text throw, since [[...prev, userMessage]] cannot spread
    it.  Either way the page unmounts. *)
Theorem stored_non_array_breaks_page (st : storage) (s : string) (v : json) (u : string) :
  getItem key_response st = Some s -> JSON_parse_value s = Some v ->
  (forall vs, v <> JSONArray vs) -> v <> JSONString "" -> u <> "" ->
  loaded_form st = Crashed \/
  (loaded_form st = Rendered (Form_page false []) /\ enter_on_value v u = Crashed).
Proof.
  intros Hs Hv Harr Hstr Hu. unfold loaded_form, enter_on_value.
  rewrite (restored_value_parsed _ _ _ Hs Hv). apply String.eqb_neq in Hu. rewrite Hu.
  unfold Form_value_view, render_response.
  destruct v as [|[]|n|t|vs|kvs]; cbn [json_truthy spread_append]; try by left.
  - by right.
  - by right.
  - destruct (number_is_zero n); cbn; [by right|by left].
  - destruct (String.eqb_spec t "") as [->|]; [done|by left].
  - by destruct (Harr vs).
Qed.

(** ** Witnesses *)

Lemma stored_non_array_breaks_page_witness :
  let st := <[key_response := "null"]> ∅ in
  loaded_form st = Crashed \/
  (loaded_form st = Rendered (Form_page false []) /\ enter_on_value JSONNull "hello" = Crashed).
Proof.
  apply (stored_non_array_breaks_page _ "null"); [reflexivity | vm_compute; reflexivity | done | done | done].
Defined.
